(* ===== verification/_CoqProject ===== *)
-Q . S2P
Prelude.v
Classifier.v
Frame.v
Accumulate.v
CsvWriter.v
JsonWriter.v
HtmlWriter.v
Orchestrator.v
TopItems.v
Insights.v
JsonReader.v
EndToEnd.v
