(* ===== verification/Prelude.v ===== *)
(** * Verification of the per-country chart merge pipeline

    The repository is a two-script batch tool.

    - [src/merge_csv.py] walks a directory tree of weekly chart CSV
      exports, derives a country code from every file name
      ([extract_country_from_filename]), reads every file with
      [pandas.read_csv], injects a [country] column, accumulates the
      frames per country in an insertion-ordered [dict]
      ([merge_by_country], lines 75-96), writes each country's frame as
      CSV ([DataFrame.to_csv]), JSON ([save_as_json]) and HTML
      ([save_as_html]) into an intermediate directory, then concatenates
      all country frames and writes the merged frame the same three ways
      into a final directory (lines 98-126).
    - [src/insight_analysis.py] reads up to five optional CSV files in
      three guarded sections and saves up to three charts (a bar chart of
      monthly maxima and minima, a Venn diagram of local and global
      artists, a line chart of the ten names with the most streams); it
      does not share code or state with
      the merge script (only file names and column names).

    ** Layout of the development

    - [Prelude] (this file): Python string primitives used by the code
      ([str.split], [str.upper], [str.endswith], [str.join]), the
      [result] error monad with its notation in [merge_scope], the shared
      tactics and the [merge] hint database.
    - [Classifier]: [extract_country_from_filename] (lines 6-13).
    - [Frame]: the pandas [DataFrame] as columns plus rectangular rows,
      [df['country'] = c] (line 91) and [pd.concat(..., ignore_index=True)]
      (lines 96 and 116), with the well-formedness invariant.
    - [Accumulate]: the per-country [dict] and the loop of lines 87-96.
    - [CsvWriter], [JsonWriter], [HtmlWriter]: the three serialisations
      (lines 107/122, 15-17, 19-73).
    - [Orchestrator]: [os.walk] filtering, the file-system world, the
      whole of [merge_by_country] as a state-and-error computation.
    - [TopItems] (stdpp): section 3's table arithmetic,
      [groupby(...).sum().nlargest(10)], [isin] and the second
      [groupby] feeding the [plt.plot] calls (lines 76-82).
    - [Insights] (stdpp, [gset]): the insight script as a computation of
      its own state-and-error monad [IM], an instance of stdpp's
      [MRet]/[MBind]: [os.path.exists], [os.makedirs], [plt.savefig] and
      [print] over an [iworld]; the three sections and the run
      (lines 7-104).  A saved figure is recorded by the data it draws.
    - [JsonReader]: a JSON reader (whitespace, numbers, strings with
      their escapes, arrays, objects), the consumer the spec has in mind
      for the [.json] outputs; it is not code of the repository but the
      oracle against which [save_as_json] is checked.
    - [EndToEnd]: the run composed with the two readers: the merged
      files on disk after a run, read back.

    ** How the code maps to the model

    - State: [country_data] is [Accumulate.store], an association list
      whose order is the dict's insertion order; the file system is
      [Orchestrator.world] (existing directories, the sequence of file
      writes with their contents, the printed lines).  Every function of
      the script that touches state is a computation of the monad
      [Orchestrator.M] (state and [py_error] result): [os.makedirs] is
      [makedirs], [open(...).write] / [to_csv] / [to_json] are
      [write_file] of the text the writer produces, [print] is [print].
    - Errors: Python exceptions are the constructors of [py_error]
      ([ParserError] from [read_csv], [OSError] and [FileExistsError]
      from the file system, [ValueError] from [pd.concat] of nothing,
      [KeyError] from [df[col]], [TypeError] from arithmetic on text
      and from Matplotlib's category axis);
      an exception aborts the rest of the run, which is [bind] on [Err].
    - Inputs the code does not control are section variables:
      [read_csv : string -> option frame] (what pandas reads from each
      path) and [can_write : string -> bool] (what the OS allows);
      [os.walk] is a function of an explicit directory listing.

    ** What the theorems show

    - Accumulation (C1, C5-C7, C10, C11): the loop refines bulk
      concatenation: keys in first-seen order, each country's frame is
      [pd.concat] of its tagged files in discovery order, no row lost
      or duplicated, every row tagged; the first unreadable path aborts.
    - Orchestration (C2, C3, C9, C16, C32): on good input the run writes
      exactly the planned files in order; on any failure the writes are
      a prefix of that plan; with no CSV it raises [ValueError] after
      creating both folders; [os.makedirs(exist_ok=True)] is
      idempotent; a second run over the first run's folders succeeds,
      writes the plan again and ends with every file holding the same
      content.  The spec's AU/US scenario, through the [__main__] block
      ([merge_csv_main]), is an example run by [vm_compute].
    - End to end (C36): after a successful run the merged CSV and JSON
      files read back to the concatenation of all tagged inputs grouped
      by country, with as many rows as the inputs together.
    - Classifier (C4, C17, C18): every branch of
      [extract_country_from_filename], the names that give [UNKNOWN]
      and the shape of the codes.
    - Frames (C12-C14, C19-C21): [df['country'] = c] and [pd.concat]
      keep the invariant, keep every cell and count rows exactly;
      incremental concatenation equals one concatenation.
    - Writers (C8, C15, C22-C24, C35): the CSV text reads back, with a
      reader that ends records at LF, to the header and the cells; the
      JSON text is the printing of the array of row objects and reads
      back, with [JsonReader], to exactly that array; HTML escaping is
      invertible and cell text carries no markup; one table row per
      record.
    - Top-10 selection (C25-C27, C34): [nlargest] is a stable descending sort
      cut to [n] (size, dominance, ties to the earlier entry); the ten
      names are distinct, dominate the names left out and win ties by
      key order; for a [Month] column Matplotlib's axis accepts, one
      plotted line per name, in key order, with exactly that name's rows;
      a name whose months mix strings with a missing value makes the
      plot calls raise and section 3 draw nothing.
    - Insight run (C28-C31, C33): figures are saved only at the three
      chart paths, in section order, and the final line lists exactly
      them; missing inputs give diagnostics and no figure; the Venn
      figure of section 2 counts the local-only, global-only and shared
      artists of the two files; with every input well formed the three
      charts are saved with their data; a failing [plt.bar] call in
      section 1 (a missing column, or a missing value among the country
      names) aborts the whole run before any chart.

    Every function modelling the code is structurally recursive (the
    walk on the listing, the loop on the path list, the writers on the
    rows, the CSV reader on the text).  Only [JsonReader.parse_value]
    runs on fuel, one unit per nesting level and per array item or
    object member; C35 states the amount that suffices, the number of
    rows plus the number of columns plus 3, so the round trip is a
    statement that the reader terminates with the right value.

    ** What is not modelled

    - [pandas.read_csv]'s parser and dtype inference: a run is
      parameterised by the result of reading each path (a frame or a
      parse error), see [Orchestrator].
    - Float columns (pandas upcasts an integer column that receives
      missing values to float64 and prints [1.0]): cells are [CNull],
      [CInt] or [CStr].
    - Non-ASCII text: strings are byte strings; [str.upper] is modelled
      on ASCII letters only, and the JSON writer's [\uXXXX] escapes of
      non-ASCII characters are not modelled.
    - The [line_terminator] keyword of [to_csv] is taken with its pandas
      1.x meaning (pandas 2 removed it and raises [TypeError]).
    - [os.makedirs] creating missing parent directories: the model
      creates the named directory only.
    - Matplotlib's drawing (titles, fonts, colours, layout, the pixels
      of the PNG): pure output; a figure is its data.  What can make a
      [plt.bar] or [plt.plot] call raise is modelled: the x data's unit
      conversion on the figure's axis ([TopItems.axis_convert]: the
      category converter chosen by the first finite value, which then
      accepts strings only, so [NaN] among names raises [TypeError]).  [plt.cm.get_cmap]
      is taken with its pre-3.9 meaning (colour [i] of [n]); Matplotlib
      3.9 removed it.
    - Float arithmetic of [streams / 1e6]: heights are exact rationals.
    - A carriage return inside a CSV cell: [to_csv] writes it
      unquoted, and the reader of the round trip, which ends records at
      LF only, reads it back; Python's reader would end the record there.
    - [set()] of a column whose [NaN]s are distinct float objects (an
      all-missing column): the model keeps one missing value. *)

From Stdlib Require Export String Ascii List Bool Arith Lia.
From Stdlib Require Import NArith.
Export ListNotations.
Open Scope string_scope.
Open Scope list_scope.

(** ** Characters and small strings *)

Definition dash : ascii := "-".
Definition slash : ascii := "/".
Definition dq_char : ascii := ascii_of_nat 34.

(** A string of one double quote (written without a doubled quote). *)
Definition dq : string := String dq_char EmptyString.
Definition nl : string := String (ascii_of_nat 10) EmptyString.

(** ** Python [str] primitives on byte strings *)

(** [s.split(sep)] for a one-character separator. *)
Fixpoint py_split (sep : ascii) (s : string) : list string :=
  match s with
  | EmptyString => [EmptyString]
  | String c s' =>
      let parts := py_split sep s' in
      if Ascii.eqb c sep then EmptyString :: parts
      else match parts with
           | p :: ps => String c p :: ps
           | [] => [String c EmptyString]
           end
  end.

(** [sep.join(parts)]. *)
Fixpoint py_join (sep : string) (parts : list string) : string :=
  match parts with
  | [] => EmptyString
  | [p] => p
  | p :: ps => p ++ sep ++ py_join sep ps
  end.

(** [c.upper()] on one byte: ASCII [a]..[z] are shifted, every other
    byte is kept. *)
Definition upper_char (c : ascii) : ascii :=
  let n := nat_of_ascii c in
  if Nat.leb 97 n && Nat.leb n 122 then ascii_of_nat (n - 32) else c.

Definition is_lower (c : ascii) : bool :=
  let n := nat_of_ascii c in Nat.leb 97 n && Nat.leb n 122.

(** [s.upper()]. *)
Fixpoint py_upper (s : string) : string :=
  match s with
  | EmptyString => EmptyString
  | String c s' => String (upper_char c) (py_upper s')
  end.

(** [s.endswith(suffix)]. *)
Definition py_endswith (s suffix : string) : bool :=
  Nat.leb (String.length suffix) (String.length s)
  && String.eqb (substring (String.length s - String.length suffix) (String.length suffix) s) suffix.

(** [s.startswith(prefix)]. *)
Definition py_startswith (s prefix : string) : bool :=
  String.prefix prefix s.

(** [os.path.basename(p)] (posixpath): the text after the last slash. *)
Definition py_basename (p : string) : string :=
  last (py_split slash p) EmptyString.

(** [os.path.join(a, b)] (posixpath, two arguments). *)
Definition py_path_join (a b : string) : string :=
  if py_startswith b "/" then b
  else if String.eqb a EmptyString || py_endswith a "/" then a ++ b
  else a ++ "/" ++ b.

(** [s.rstrip(c)] for one character. *)
Fixpoint rstrip_char (c : ascii) (s : string) : string :=
  match s with
  | EmptyString => EmptyString
  | String d s' =>
      let t := rstrip_char c s' in
      if String.eqb t EmptyString && Ascii.eqb d c then EmptyString else String d t
  end.

(** [os.path.dirname(p)] (posixpath): the text up to the last slash,
    trailing slashes removed unless it is made of slashes only. *)
Definition py_dirname (p : string) : string :=
  match py_split slash p with
  | [_] => EmptyString
  | parts =>
      let head := (py_join "/" (removelast parts) ++ "/")%string in
      let h := rstrip_char slash head in
      if String.eqb h EmptyString then head else h
  end.

(** Whether a byte occurs in a string. *)
Fixpoint has_char (c : ascii) (s : string) : bool :=
  match s with
  | EmptyString => false
  | String d s' => Ascii.eqb d c || has_char c s'
  end.

Definition bslash : ascii := ascii_of_nat 92.

(** A lower-case hexadecimal digit. *)
Definition hex_digit (n : nat) : ascii :=
  if Nat.ltb n 10 then ascii_of_nat (48 + n) else ascii_of_nat (87 + n).

(** [repr(s)] of a [str]: single quotes unless [s] holds a single quote
    and no double quote; the quote in use and the backslash escaped;
    tab, line feed and carriage return as [\t], [\n], [\r]; other
    control bytes as [\xNN]; every other byte as itself. *)
Definition sq_char : ascii := ascii_of_nat 39.

Definition repr_quote (s : string) : ascii :=
  if has_char sq_char s && negb (has_char dq_char s) then dq_char else sq_char.

Definition repr_char (q c : ascii) : string :=
  let n := nat_of_ascii c in
  if Ascii.eqb c q || Ascii.eqb c bslash then String bslash (String c EmptyString)
  else if Nat.eqb n 9 then String bslash "t"
  else if Nat.eqb n 10 then String bslash "n"
  else if Nat.eqb n 13 then String bslash "r"
  else if Nat.ltb n 32 || Nat.eqb n 127 then
    String bslash (String "x" (String (hex_digit (n / 16)) (String (hex_digit (n mod 16)) EmptyString)))
  else String c EmptyString.

Fixpoint repr_body (q : ascii) (s : string) : string :=
  match s with
  | EmptyString => EmptyString
  | String c s' => (repr_char q c ++ repr_body q s')%string
  end.

Definition py_repr_str (s : string) : string :=
  let q := repr_quote s in String q (repr_body q s ++ String q EmptyString).

(** [repr(l)] of a list of [str]. *)
Definition py_repr_list (l : list string) : string :=
  ("[" ++ py_join ", " (map py_repr_str l) ++ "]")%string.

(** ** The error monad *)

Inductive result (E A : Type) : Type :=
| Ok (a : A)
| Err (e : E).
Arguments Ok {E A} a.
Arguments Err {E A} e.

Definition rbind {E A B} (r : result E A) (k : A -> result E B) : result E B :=
  match r with
  | Ok a => k a
  | Err e => Err e
  end.

Declare Scope merge_scope.
Delimit Scope merge_scope with merge.
Notation "'let*' x ':=' c 'in' k" := (rbind c (fun x => k))
  (at level 10, x name, c at level 100, k at level 200) : merge_scope.

(** The Python exceptions the pipeline can raise. *)
Inductive py_error : Type :=
| ParserError (path : string)        (* pd.read_csv on malformed content *)
| OSError (path : string)            (* open/write of an output file *)
| FileExistsError (path : string)    (* os.makedirs over an existing file *)
| ValueError (msg : string)          (* pd.concat of no objects *)
| KeyError (key : string)            (* df[col] of a missing column *)
| TypeError (msg : string).          (* arithmetic on a column of text *)

(** ** Shared tactics and hint database *)

Create HintDb merge.
Create Rewrite HintDb merge_rw.

Ltac inv H := inversion H; subst; clear H.

(** Case on the boolean tests of the goal, reflecting the ones on
    strings and ASCII characters. *)
Ltac case_tests :=
  repeat match goal with
    | |- context [Ascii.eqb ?a ?b] =>
        destruct (Ascii.eqb_spec a b); subst
    | |- context [String.eqb ?a ?b] =>
        destruct (String.eqb_spec a b); subst
    end.

(** ** Lemmas on the string primitives *)

Lemma py_split_not_nil sep s : py_split sep s <> [].
Proof.
  destruct s as [|c s]; simpl; [discriminate|].
  destruct (Ascii.eqb c sep); [discriminate|].
  destruct (py_split sep s); discriminate.
Qed.

Lemma py_join_cons sep p ps :
  ps <> [] -> py_join sep (p :: ps) = (p ++ sep ++ py_join sep ps)%string.
Proof. destruct ps; [congruence | reflexivity]. Qed.

Lemma py_split_app_sep sep a rest :
  has_char sep a = false ->
  py_split sep (a ++ String sep rest)%string = a :: py_split sep rest.
Proof.
  induction a as [|c a IH]; simpl; intros H.
  - rewrite Ascii.eqb_refl. reflexivity.
  - apply orb_false_iff in H as [Hc Ha].
    rewrite IH by exact Ha. rewrite Hc. reflexivity.
Qed.

Lemma py_split_nosep sep a :
  has_char sep a = false -> py_split sep a = [a].
Proof.
  induction a as [|c a IH]; simpl; intros H; [reflexivity|].
  apply orb_false_iff in H as [Hc Ha].
  rewrite IH by exact Ha. rewrite Hc. reflexivity.
Qed.

(** Splitting at a separator occurrence concatenates the two splits. *)
Lemma py_split_app_sep_gen sep x y :
  py_split sep (x ++ String sep y)%string = py_split sep x ++ py_split sep y.
Proof.
  induction x as [|c x IH]; simpl; [rewrite Ascii.eqb_refl; reflexivity|].
  rewrite IH. destruct (Ascii.eqb c sep); [reflexivity|].
  pose proof (py_split_not_nil sep x) as Hn.
  destruct (py_split sep x); [congruence | reflexivity].
Qed.

Lemma substring_full s : substring 0 (String.length s) s = s.
Proof. induction s; simpl; congruence. Qed.

Lemma substring_split n s :
  n <= String.length s ->
  (substring 0 n s ++ substring n (String.length s - n) s)%string = s.
Proof.
  revert s. induction n as [|n IH]; intros [|c s] H; simpl in *; try lia.
  - reflexivity.
  - apply (substring_full (String c s)).
  - f_equal. apply IH. lia.
Qed.

Lemma append_assoc (a b c : string) : ((a ++ b) ++ c = a ++ (b ++ c))%string.
Proof. induction a; simpl; congruence. Qed.

Lemma append_empty_r (a : string) : (a ++ EmptyString)%string = a.
Proof. induction a; simpl; congruence. Qed.

Lemma length_append (a b : string) : String.length (a ++ b) = String.length a + String.length b.
Proof. induction a; simpl; congruence. Qed.

Lemma prefix_app p s : String.prefix p (p ++ s) = true.
Proof. induction p as [|c p IH]; simpl; [destruct s; reflexivity|]. destruct (ascii_dec c c); congruence. Qed.

Lemma py_endswith_inv s suf : py_endswith s suf = true -> exists p, s = (p ++ suf)%string.
Proof.
  unfold py_endswith. intros H. apply andb_true_iff in H as [H1 H2].
  apply Nat.leb_le in H1. apply String.eqb_eq in H2.
  exists (substring 0 (String.length s - String.length suf) s).
  rewrite <- (substring_split (String.length s - String.length suf) s) at 1 by lia.
  f_equal. replace (String.length s - (String.length s - String.length suf))
    with (String.length suf) by lia. exact H2.
Qed.

Lemma py_endswith_app p suf : py_endswith (p ++ suf) suf = true.
Proof.
  unfold py_endswith. rewrite length_append. apply andb_true_iff. split.
  - apply Nat.leb_le. lia.
  - apply String.eqb_eq. replace (String.length p + String.length suf - String.length suf)
      with (String.length p) by lia.
    clear. induction p as [|c p IH]; simpl; [|exact IH].
    apply substring_full.
Qed.

Lemma py_startswith_slash s : has_char slash s = false -> py_startswith s "/" = false.
Proof.
  destruct s as [|c s]; [reflexivity|]. simpl. intros H. apply orb_false_iff in H as [H _].
  unfold py_startswith. destruct c as [[] [] [] [] [] [] [] []]; try (vm_compute in H; discriminate); reflexivity.
Qed.

(** [os.path.basename(os.path.join(root, name))] is [name] for a name
    without a slash. *)
Lemma py_basename_join a b :
  has_char slash b = false -> py_basename (py_path_join a b) = b.
Proof.
  intros Hb. unfold py_basename, py_path_join. rewrite py_startswith_slash by assumption.
  assert (Hlast : forall x, last (py_split slash (x ++ String slash b)%string) EmptyString = b).
  { intros x. rewrite py_split_app_sep_gen, (py_split_nosep slash b) by assumption.
    apply last_last. }
  destruct (String.eqb a EmptyString || py_endswith a "/") eqn:E; [|apply Hlast].
  destruct (String.eqb_spec a EmptyString) as [->|Ha].
  - simpl. rewrite (py_split_nosep slash b) by assumption. reflexivity.
  - simpl in E. apply py_endswith_inv in E as [a' ->].
    rewrite append_assoc. apply Hlast.
Qed.



(** Splitting a joined list gives the list back when no part contains
    the separator. *)
Lemma py_split_join sep parts :
  parts <> [] -> Forall (fun p => has_char sep p = false) parts ->
  py_split sep (py_join (String sep EmptyString) parts) = parts.
Proof.
  induction parts as [|p ps IH]; intros Hne Hall; [congruence|].
  inv Hall. destruct ps as [|q qs].
  - apply py_split_nosep; assumption.
  - rewrite py_join_cons by discriminate.
    cbn [String.append]. rewrite py_split_app_sep by assumption.
    rewrite IH; [reflexivity | discriminate | assumption].
Qed.

(** Joining the parts of a split gives the string back. *)
Lemma py_join_split sep s :
  py_join (String sep EmptyString) (py_split sep s) = s.
Proof.
  induction s as [|c s IH]; [reflexivity|]. simpl.
  destruct (Ascii.eqb_spec c sep) as [->|Hne].
  - pose proof (py_split_not_nil sep s) as Hn.
    destruct (py_split sep s) as [|p ps] eqn:E; [congruence|].
    simpl in *. rewrite IH. reflexivity.
  - pose proof (py_split_not_nil sep s) as Hn.
    destruct (py_split sep s) as [|p ps] eqn:E; [congruence|].
    destruct ps; simpl in *; rewrite IH; reflexivity.
Qed.

Lemma py_split_parts_nosep sep s :
  Forall (fun p => has_char sep p = false) (py_split sep s).
Proof.
  induction s as [|c s IH]; simpl; [repeat constructor|].
  destruct (Ascii.eqb_spec c sep) as [->|Hne]; [constructor; auto|].
  destruct (py_split sep s) as [|p ps]; inv IH; constructor; simpl; auto.
  - apply Ascii.eqb_neq in Hne. rewrite Hne. reflexivity.
  - apply Ascii.eqb_neq in Hne. rewrite Hne. assumption.
Qed.

Lemma py_split_length_nosep sep s :
  has_char sep s = false <-> length (py_split sep s) = 1.
Proof.
  split; [intros H; rewrite py_split_nosep; auto|].
  induction s as [|c s IH]; simpl; [reflexivity|].
  destruct (Ascii.eqb c sep) eqn:Ec.
  - pose proof (py_split_not_nil sep s). destruct (py_split sep s); simpl; [congruence|].
    intros H'; discriminate.
  - simpl.
    destruct (py_split sep s) as [|p [|q qs]] eqn:E; simpl; intros H'; try discriminate.
    + exfalso; eapply py_split_not_nil; eauto.
    + apply IH. reflexivity.
Qed.

Lemma upper_char_not_lower c : is_lower (upper_char c) = false.
Proof.
  destruct c as [b0 b1 b2 b3 b4 b5 b6 b7].
  destruct b0, b1, b2, b3, b4, b5, b6, b7; reflexivity.
Qed.

Lemma upper_char_idem c : upper_char (upper_char c) = upper_char c.
Proof.
  destruct c as [b0 b1 b2 b3 b4 b5 b6 b7].
  destruct b0, b1, b2, b3, b4, b5, b6, b7; reflexivity.
Qed.

Lemma upper_char_dash c : upper_char c = dash <-> c = dash.
Proof.
  destruct c as [b0 b1 b2 b3 b4 b5 b6 b7].
  destruct b0, b1, b2, b3, b4, b5, b6, b7; cbv; split; congruence.
Qed.

Lemma upper_char_slash c : upper_char c = slash <-> c = slash.
Proof.
  destruct c as [b0 b1 b2 b3 b4 b5 b6 b7].
  destruct b0, b1, b2, b3, b4, b5, b6, b7; cbv; split; congruence.
Qed.

(** [upper()] keeps a byte that is its own only preimage. *)
Lemma py_upper_has_char d s :
  (forall c, upper_char c = d <-> c = d) -> has_char d (py_upper s) = has_char d s.
Proof.
  intros Hd. induction s as [|c s IH]; simpl; [reflexivity|]. rewrite IH. f_equal.
  destruct (Ascii.eqb_spec (upper_char c) d) as [E|E];
  destruct (Ascii.eqb_spec c d) as [E'|E']; auto.
  - apply (proj1 (Hd c)) in E. congruence.
  - subst. exfalso. apply E, Hd. reflexivity.
Qed.

Lemma py_split_parts_nochar sep c s :
  has_char c s = false -> Forall (fun p => has_char c p = false) (py_split sep s).
Proof.
  induction s as [|d s IH]; simpl; intros H; [repeat constructor|].
  apply orb_false_iff in H as [Hd Hs]. specialize (IH Hs).
  destruct (Ascii.eqb d sep); [constructor; auto|].
  destruct (py_split sep s) as [|p ps]; inv IH; constructor; simpl; rewrite ?Hd; auto.
Qed.

Lemma has_char_app c a b : has_char c (a ++ b) = has_char c a || has_char c b.
Proof. induction a as [|d a IH]; simpl; [reflexivity|]. rewrite IH, orb_assoc. reflexivity. Qed.

Lemma py_basename_no_slash p : has_char slash (py_basename p) = false.
Proof.
  unfold py_basename. pose proof (py_split_parts_nosep slash p) as H.
  pose proof (py_split_not_nil slash p) as Hn.
  rewrite Forall_forall in H. apply H. destruct (py_split slash p) as [|x l]; [congruence|].
  clear. revert x. induction l as [|y l IH]; intros x; [left; reflexivity|].
  right. apply IH.
Qed.

Lemma py_upper_idem s : py_upper (py_upper s) = py_upper s.
Proof. induction s; simpl; [reflexivity|]. rewrite upper_char_idem, IHs. reflexivity. Qed.

Lemma py_upper_length s : String.length (py_upper s) = String.length s.
Proof. induction s; simpl; auto. Qed.

Lemma rstrip_char_snoc c a :
  rstrip_char c (a ++ String c EmptyString)%string = rstrip_char c a.
Proof.
  induction a as [|d a IH]; simpl.
  - rewrite Ascii.eqb_refl. reflexivity.
  - rewrite IH. reflexivity.
Qed.

Lemma rstrip_char_length c a : String.length (rstrip_char c a) <= String.length a.
Proof.
  induction a as [|d a IH]; simpl; [lia|].
  destruct (String.eqb (rstrip_char c a) EmptyString && Ascii.eqb d c); simpl; lia.
Qed.

Lemma rstrip_char_id_not_endswith a :
  rstrip_char slash a = a -> py_endswith a "/" = false.
Proof.
  intros H. destruct (py_endswith a "/") eqn:E; [|reflexivity].
  apply py_endswith_inv in E as [p ->]. change "/" with (String slash EmptyString) in H.
  rewrite rstrip_char_snoc in H. pose proof (rstrip_char_length slash p) as L.
  rewrite H, length_append in L. simpl in L. lia.
Qed.

(** [os.path.dirname(os.path.join(d, n))] is [d] for a directory without
    trailing slash and a name without slash. *)
Lemma py_dirname_join d n :
  d <> EmptyString -> rstrip_char slash d = d -> has_char slash n = false ->
  py_dirname (py_path_join d n) = d.
Proof.
  intros Hne Hr Hn. unfold py_path_join. rewrite py_startswith_slash by assumption.
  rewrite (proj2 (String.eqb_neq d EmptyString) Hne), rstrip_char_id_not_endswith by assumption.
  simpl orb. cbv iota. unfold py_dirname.
  change ("/" ++ n)%string with (String slash n). rewrite py_split_app_sep_gen, (py_split_nosep slash n) by assumption.
  pose proof (py_split_not_nil slash d) as Hsd.
  destruct (py_split slash d ++ [n]) as [|x [|y l]] eqn:E.
  - destruct (py_split slash d); discriminate.
  - destruct (py_split slash d) as [|a [|b l']]; [congruence| |]; simpl in E; discriminate.
  - rewrite <- E, removelast_last, py_join_split.
    change "/" with (String slash EmptyString). rewrite rstrip_char_snoc, Hr.
    rewrite (proj2 (String.eqb_neq d EmptyString) Hne). reflexivity.
Qed.

(** ** Generic list lemmas *)

(** Python compares [str] by code points, which on UTF-8 bytes is
    [String.compare]; [String.leb] is a total order. *)
Lemma string_compare_le_trans s t u :
  String.compare s t <> Gt -> String.compare t u <> Gt -> String.compare s u <> Gt.
Proof.
  revert t u. induction s as [|a s IH]; intros [|b t] [|c u]; simpl; try congruence.
  unfold Ascii.compare.
  destruct (N.compare_spec (N_of_ascii a) (N_of_ascii b)) as [Hab|Hab|Hab];
  destruct (N.compare_spec (N_of_ascii b) (N_of_ascii c)) as [Hbc|Hbc|Hbc]; try congruence; intros H1 H2.
  - rewrite Hab, Hbc, N.compare_refl. exact (IH t u H1 H2).
  - rewrite Hab. rewrite (proj2 (N.compare_lt_iff _ _) Hbc). congruence.
  - rewrite <- Hbc. rewrite (proj2 (N.compare_lt_iff _ _) Hab). congruence.
  - rewrite (proj2 (N.compare_lt_iff _ _)) by lia. congruence.
Qed.

Lemma string_leb_trans s t u : String.leb s t = true -> String.leb t u = true -> String.leb s u = true.
Proof.
  unfold String.leb. intros H1 H2.
  destruct (String.compare s t) eqn:E1; try discriminate; destruct (String.compare t u) eqn:E2; try discriminate;
  destruct (String.compare s u) eqn:E3; try reflexivity;
  exfalso; apply (string_compare_le_trans s t u); congruence.
Qed.

(** The entries of one value kept by a prefix are a prefix of that value's entries. *)
Lemma filter_firstn_prefix {A} (P : A -> bool) n l :
  exists k, filter P (firstn n l) = firstn k (filter P l).
Proof.
  revert n. induction l as [|x l IH]; intros [|n]; simpl.
  - exists 0. reflexivity.
  - exists 0. reflexivity.
  - exists 0. reflexivity.
  - destruct (IH n) as [k Hk]. destruct (P x).
    + exists (S k). simpl. rewrite Hk. reflexivity.
    + exists k. exact Hk.
Qed.

Lemma filter_filter_bool {A} (P Q : A -> bool) l :
  filter P (filter Q l) = filter (fun x => Q x && P x) l.
Proof.
  induction l as [|x l IH]; simpl; [reflexivity|].
  destruct (Q x); simpl; [destruct (P x); simpl; rewrite IH; reflexivity | exact IH].
Qed.

Lemma filter_none {A} (P : A -> bool) l :
  (forall z, In z l -> P z = false) -> filter P l = [].
Proof.
  induction l as [|x l IH]; intros H; simpl; [reflexivity|].
  rewrite (H x (or_introl eq_refl)). apply IH. intros z Hz. apply H. right. exact Hz.
Qed.

Lemma Forall2_Forall_r {A B} (R : A -> B -> Prop) (Q : B -> Prop) l1 l2 :
  Forall2 R l1 l2 -> (forall x y, In x l1 -> R x y -> Q y) -> Forall Q l2.
Proof.
  induction 1 as [|x y l1 l2 Hxy Hrest IH]; intros H; constructor.
  - apply (H x); [left; reflexivity | assumption].
  - apply IH. intros x' y' Hx'. apply H. right. assumption.
Qed.

Lemma Forall2_impl_in {A B} (R S : A -> B -> Prop) l1 l2 :
  Forall2 R l1 l2 -> (forall x y, In x l1 -> R x y -> S x y) -> Forall2 S l1 l2.
Proof.
  induction 1 as [|x y l1 l2 Hxy Hrest IH]; intros H; constructor.
  - apply H; [left; reflexivity | assumption].
  - apply IH. intros x' y' Hx'. apply H. right. assumption.
Qed.

Lemma map_snd_combine {A B} (l1 : list A) (l2 : list B) :
  length l1 = length l2 -> map snd (combine l1 l2) = l2.
Proof.
  revert l2. induction l1 as [|x l1 IH]; intros [|y l2] H; simpl in *; try discriminate; [reflexivity|].
  f_equal. apply IH. congruence.
Qed.

Lemma map_fst_combine {A B} (l1 : list A) (l2 : list B) :
  length l1 = length l2 -> map fst (combine l1 l2) = l1.
Proof.
  revert l2. induction l1 as [|x l1 IH]; intros [|y l2] H; simpl in *; try discriminate; [reflexivity|].
  f_equal. apply IH. congruence.
Qed.

Lemma Forall2_map_l {A A' B} (R : A' -> B -> Prop) (g : A -> A') l1 l2 :
  Forall2 (fun x y => R (g x) y) l1 l2 -> Forall2 R (map g l1) l2.
Proof. induction 1; simpl; constructor; assumption. Qed.

#[export] Hint Rewrite py_upper_idem py_upper_length : merge_rw.
#[export] Hint Resolve py_split_not_nil py_split_parts_nosep upper_char_not_lower : merge.
