(* ===== verification/Classifier.v ===== *)
(** Country classifier: [extract_country_from_filename] of
    [src/merge_csv.py] (lines 6-13), with its behaviour on every branch,
    the names that give [UNKNOWN] and the shape of the codes it
    returns. *)

From S2P Require Import Prelude.

Module Classifier.

(** The sentinel returned when the name has no second token. *)
Definition UNKNOWN : string := "UNKNOWN".

(** [parts = file_name.split('-')]; [parts[1].upper()] when
    [len(parts) > 1], else ["UNKNOWN"]. *)
Definition extract_country_from_filename (file_name : string) : string :=
  let parts := py_split dash file_name in
  if Nat.ltb 1 (length parts) then py_upper (nth 1 parts EmptyString)
  else UNKNOWN.

(** ** Lemmas *)

Lemma extract_country_eq s :
  extract_country_from_filename s =
  match py_split dash s with
  | _ :: p :: _ => py_upper p
  | _ => UNKNOWN
  end.
Proof.
  unfold extract_country_from_filename.
  destruct (py_split dash s) as [|a [|b l]]; reflexivity.
Qed.

Lemma py_upper_has_dash s : has_char dash (py_upper s) = has_char dash s.
Proof. apply py_upper_has_char, upper_char_dash. Qed.

(** A name without slash gives a code without slash. *)
Lemma extract_country_no_slash s :
  has_char slash s = false -> has_char slash (extract_country_from_filename s) = false.
Proof.
  intros H. unfold extract_country_from_filename.
  destruct (Nat.ltb 1 (length (py_split dash s))); [|reflexivity].
  rewrite py_upper_has_char by apply upper_char_slash.
  pose proof (py_split_parts_nochar dash slash s H) as Hall.
  destruct (py_split dash s) as [|a [|b l]]; [reflexivity | reflexivity |]. inv Hall. inv H3. assumption.
Qed.

Lemma py_upper_no_lower s :
  forall i c, String.get i (py_upper s) = Some c -> is_lower c = false.
Proof.
  induction s as [|d s IH]; intros [|i] c H; simpl in H; try discriminate.
  - inv H. apply upper_char_not_lower.
  - eapply IH; eauto.
Qed.

(** ** Properties *)

(** C4. For a name with at least two hyphen-separated tokens the
    classifier returns the upper-cased second token; for a name with
    fewer it returns the sentinel ["UNKNOWN"]. *)
Theorem extract_country_spec (file_name : string) :
  (2 <= length (py_split dash file_name) ->
   extract_country_from_filename file_name =
   py_upper (nth 1 (py_split dash file_name) EmptyString)) /\
  (length (py_split dash file_name) < 2 ->
   extract_country_from_filename file_name = UNKNOWN).
Proof.
  unfold extract_country_from_filename. split; intros H.
  - destruct (Nat.ltb_spec 1 (length (py_split dash file_name))); [reflexivity | lia].
  - destruct (Nat.ltb_spec 1 (length (py_split dash file_name))); [lia | reflexivity].
Qed.

Lemma extract_country_spec_witness :
  (2 <= length (py_split dash "regional-au-weekly-2023-06-15.csv") /\
   extract_country_from_filename "regional-au-weekly-2023-06-15.csv" = "AU") /\
  (length (py_split dash "data.csv") < 2 /\
   extract_country_from_filename "data.csv" = UNKNOWN).
Proof.
  split; split.
  - vm_compute. lia.
  - rewrite (proj1 (extract_country_spec _)) by (vm_compute; lia). reflexivity.
  - vm_compute. lia.
  - apply (proj2 (extract_country_spec _)). vm_compute. lia.
Defined.

(** C17. The sentinel is returned exactly for the names without a
    hyphen, and for the names whose second token upper-cases to
    ["UNKNOWN"] (the accepted ambiguity of the spec). *)
Theorem extract_country_unknown_iff (file_name : string) :
  extract_country_from_filename file_name = UNKNOWN <->
  has_char dash file_name = false \/
  py_upper (nth 1 (py_split dash file_name) EmptyString) = UNKNOWN.
Proof.
  rewrite py_split_length_nosep. unfold extract_country_from_filename.
  pose proof (py_split_not_nil dash file_name) as Hn.
  destruct (py_split dash file_name) as [|a [|b l]]; simpl; [congruence| |].
  - split; [left; reflexivity | intros _; reflexivity].
  - split; [right; assumption | intros [H|H]; [discriminate | assumption]].
Qed.



(** C18. Every code the classifier returns is free of hyphens and of
    lower-case ASCII letters, and applying [upper()] to it again changes
    nothing. *)
Theorem extract_country_shape (file_name : string) :
  let code := extract_country_from_filename file_name in
  has_char dash code = false /\
  (forall i c, String.get i code = Some c -> is_lower c = false) /\
  py_upper code = code.
Proof.
  cbv zeta. unfold extract_country_from_filename.
  destruct (Nat.ltb 1 (length (py_split dash file_name))).
  - split; [|split].
    + rewrite py_upper_has_dash.
      pose proof (py_split_parts_nosep dash file_name) as Hall.
      destruct (py_split dash file_name) as [|a [|b l]]; [reflexivity|reflexivity|].
      inv Hall. inv H2. assumption.
    + apply py_upper_no_lower.
    + apply py_upper_idem.
  - split; [reflexivity | split; [|reflexivity]].
    intros i c H. do 8 (destruct i as [|i]; [inv H; reflexivity|]). discriminate.
Qed.

(** A file name that keeps the extension in the second token gives a
    code with the extension upper-cased, and a doubled hyphen gives an
    empty code (behaviours the spec does not mention). *)
Example extract_country_extension_kept :
  extract_country_from_filename "regional-au.csv" = "AU.CSV".
Proof. reflexivity. Qed.

Example extract_country_empty_token :
  extract_country_from_filename "regional--weekly.csv" = "".
Proof. reflexivity. Qed.

Example extract_country_literal_unknown :
  extract_country_from_filename "regional-unknown-weekly.csv" = UNKNOWN.
Proof. reflexivity. Qed.

End Classifier.
