(* ===== verification/Frame.v ===== *)
(** The pandas [DataFrame] as [merge_csv.py] uses it: a list of column
    names and a list of rows, each row a list of cells aligned with the
    columns.  It models the two operations the script performs on frames:
    [df['country'] = country] (line 91) and
    [pd.concat(frames, ignore_index=True)] (lines 96 and 116), the latter
    with pandas' outer join of the column indexes in first-seen order and
    missing cells filled with [NaN] ([CNull]).  The invariant [wf] says the
    column names are distinct and every row has one cell per column. *)

From Stdlib Require Import ZArith DecimalString.
From S2P Require Import Prelude.

Module Frame.

(** A cell: pandas' missing value, an integer, or a string. *)
Inductive cell : Type :=
| CNull
| CInt (z : Z)
| CStr (s : string).

Definition cell_eq_dec (a b : cell) : {a = b} + {a <> b}.
Proof. decide equality; [apply Z.eq_dec | apply string_dec]. Defined.

(** [str(z)] of an integer. *)
Definition z_text (z : Z) : string := NilZero.string_of_int (Z.to_int z).

Record frame : Type := mkFrame {
  columns : list string;
  rows : list (list cell)
}.

Definition nrows (f : frame) : nat := length (rows f).

(** [c in cols]. *)
Definition mem (c : string) (cols : list string) : bool :=
  existsb (String.eqb c) cols.

(** The invariant of a frame. *)
Definition wf (f : frame) : Prop :=
  NoDup (columns f) /\ Forall (fun r => length r = length (columns f)) (rows f).

(** The invariant as a boolean test. *)
Fixpoint nodupb (l : list string) : bool :=
  match l with
  | [] => true
  | x :: xs => negb (mem x xs) && nodupb xs
  end.

Definition wfb (f : frame) : bool :=
  nodupb (columns f) && forallb (fun r => Nat.eqb (length r) (length (columns f))) (rows f).

(** ** [df[col] = value] with a scalar value *)

(** Overwrite, in one row, the cells of the columns named [col]. *)
Fixpoint set_at (cols : list string) (col : string) (v : cell) (row : list cell)
  : list cell :=
  match cols, row with
  | c :: cs, x :: xs => (if String.eqb c col then v else x) :: set_at cs col v xs
  | _, _ => row
  end.

(** An existing column is overwritten in place; a new column is appended
    at the right end, in every row. *)
Definition setitem (col : string) (v : cell) (f : frame) : frame :=
  if mem col (columns f)
  then mkFrame (columns f) (map (set_at (columns f) col v) (rows f))
  else mkFrame (columns f ++ [col]) (map (fun r => r ++ [v]) (rows f)).

(** ** [pd.concat(frames, ignore_index=True)] *)

(** [Index.unique()]: first occurrences, in order, skipping [seen]. *)
Fixpoint unique_from (seen : list string) (l : list string) : list string :=
  match l with
  | [] => []
  | x :: xs =>
      if mem x seen then unique_from seen xs
      else x :: unique_from (x :: seen) xs
  end.

Definition unique (l : list string) : list string := unique_from [] l.

(** pandas' [union_indexes] for [sort=False]: the first index made
    unique, then the labels of the other indexes it lacks, made unique. *)
Definition union_columns (idx : list (list string)) : list string :=
  match idx with
  | [] => []
  | first :: rest =>
      let index := unique first in
      let diff := filter (fun c => negb (mem c index)) (concat rest) in
      index ++ unique diff
  end.

(** The cell of column [c] in a row laid out along [cols]; [NaN] when the
    row has no such column. *)
Fixpoint lookup_cell (c : string) (cols : list string) (row : list cell) : cell :=
  match cols, row with
  | c' :: cs, x :: xs => if String.eqb c' c then x else lookup_cell c cs xs
  | _, _ => CNull
  end.

(** [reindex(columns=dst)] of one row. *)
Definition reindex (src dst : list string) (row : list cell) : list cell :=
  map (fun c => lookup_cell c src row) dst.

(** [pd.concat] raises [ValueError('No objects to concatenate')] on an
    empty list; [ignore_index=True] renumbers the rows, which the list
    of rows does implicitly. *)
Definition concat_ne (f : frame) (fs : list frame) : frame :=
  let objs := f :: fs in
  let cols := union_columns (map columns objs) in
  mkFrame cols (flat_map (fun h => map (reindex (columns h) cols) (rows h)) objs).

Definition concat_frames (fs : list frame) : option frame :=
  match fs with
  | [] => None
  | f :: fs' => Some (concat_ne f fs')
  end.

(** ** Lemmas on membership and [unique] *)

Lemma mem_In c cols : mem c cols = true <-> In c cols.
Proof.
  unfold mem. rewrite existsb_exists. split.
  - intros [x [Hx E]]. apply String.eqb_eq in E. subst. assumption.
  - intros H. exists c. split; [assumption | apply String.eqb_refl].
Qed.

Lemma mem_notin c cols : mem c cols = false <-> ~ In c cols.
Proof. rewrite <- mem_In. destruct (mem c cols); split; congruence. Qed.

Lemma nodupb_spec l : nodupb l = true <-> NoDup l.
Proof.
  induction l as [|x xs IH]; simpl; [split; constructor|].
  rewrite andb_true_iff, negb_true_iff, mem_notin, IH. split.
  - intros [H1 H2]. constructor; assumption.
  - intros H. inv H. split; assumption.
Qed.

Lemma wfb_spec f : wfb f = true <-> wf f.
Proof.
  unfold wfb, wf. rewrite andb_true_iff, nodupb_spec, forallb_forall, Forall_forall.
  split; intros [H1 H2]; split; auto; intros r Hr; apply Nat.eqb_eq; auto.
Qed.

Lemma unique_from_In seen l z :
  In z (unique_from seen l) <-> In z l /\ ~ In z seen.
Proof.
  revert seen. induction l as [|x xs IH]; intros seen; simpl; [tauto|].
  destruct (mem x seen) eqn:E.
  - apply mem_In in E. rewrite IH. split; [tauto|].
    intros [[->|H] H']; [contradiction | tauto].
  - apply mem_notin in E. simpl. rewrite IH. simpl.
    split; [intros [->|[H H']]; tauto |].
    intros [[->|H] H']; [tauto|]. destruct (string_dec x z); [left; assumption|].
    right. split; [assumption|]. intros [->|H'']; [congruence | contradiction].
Qed.

Lemma unique_from_nodup seen l : NoDup (unique_from seen l).
Proof.
  revert seen. induction l as [|x xs IH]; intros seen; simpl; [constructor|].
  destruct (mem x seen); [apply IH|]. constructor; [|apply IH].
  rewrite unique_from_In. simpl. tauto.
Qed.

Lemma unique_from_seen_equiv s1 s2 l :
  (forall z, In z s1 <-> In z s2) -> unique_from s1 l = unique_from s2 l.
Proof.
  revert s1 s2. induction l as [|x xs IH]; intros s1 s2 Hs; simpl; [reflexivity|].
  destruct (mem x s1) eqn:E1, (mem x s2) eqn:E2.
  - apply IH, Hs.
  - apply mem_In, Hs, mem_In in E1. congruence.
  - apply mem_In, Hs, mem_In in E2. congruence.
  - f_equal. apply IH. intros z. simpl. rewrite Hs. tauto.
Qed.

Lemma unique_from_app seen l1 l2 :
  unique_from seen (l1 ++ l2) = unique_from seen l1 ++ unique_from (l1 ++ seen) l2.
Proof.
  revert seen. induction l1 as [|x xs IH]; intros seen; simpl; [reflexivity|].
  destruct (mem x seen) eqn:E.
  - rewrite IH. f_equal. apply unique_from_seen_equiv. intros z.
    apply mem_In in E. rewrite !in_app_iff. simpl. rewrite in_app_iff. split; [tauto|].
    intros [<-|H]; tauto.
  - simpl. rewrite IH. f_equal. f_equal. apply unique_from_seen_equiv. intros z.
    simpl. rewrite !in_app_iff. simpl. tauto.
Qed.

Lemma unique_from_app_seen s1 s2 l :
  unique_from (s1 ++ s2) l = unique_from s1 (filter (fun c => negb (mem c s2)) l).
Proof.
  revert s1. induction l as [|x xs IH]; intros s1; simpl; [reflexivity|].
  assert (Hm : mem x (s1 ++ s2) = mem x s1 || mem x s2) by apply existsb_app.
  rewrite Hm. destruct (mem x s2); simpl; rewrite ?orb_true_r, ?orb_false_r; [apply IH|].
  destruct (mem x s1); [apply IH|]. f_equal. apply (IH (x :: s1)).
Qed.

Lemma unique_from_filter seen l :
  unique_from seen l = unique_from [] (filter (fun c => negb (mem c seen)) l).
Proof. apply (unique_from_app_seen [] seen). Qed.

(** pandas' union is the unique labels of all the indexes, in order. *)
Lemma union_columns_unique idx :
  union_columns idx = unique (concat idx).
Proof.
  destruct idx as [|first rest]; [reflexivity|]. simpl. unfold unique.
  rewrite unique_from_app. f_equal.
  rewrite (unique_from_filter (first ++ [])), app_nil_r.
  f_equal. apply filter_ext. intros c. f_equal.
  destruct (mem c (unique_from [] first)) eqn:E1, (mem c first) eqn:E2; auto.
  - apply mem_In, unique_from_In in E1. apply mem_notin in E2. tauto.
  - apply mem_In in E2. apply mem_notin in E1. exfalso. apply E1.
    apply unique_from_In. simpl. tauto.
Qed.

Lemma union_columns_In idx c :
  In c (union_columns idx) <-> In c (concat idx).
Proof. rewrite union_columns_unique. unfold unique. rewrite unique_from_In. simpl. tauto. Qed.

Lemma union_columns_nodup idx : NoDup (union_columns idx).
Proof. rewrite union_columns_unique. apply unique_from_nodup. Qed.

Lemma unique_nodup_id seen l :
  NoDup l -> (forall z, In z l -> ~ In z seen) -> unique_from seen l = l.
Proof.
  revert seen. induction l as [|x xs IH]; intros seen Hnd Hs; simpl; [reflexivity|].
  inv Hnd. destruct (mem x seen) eqn:E.
  - apply mem_In in E. exfalso. eapply Hs; [left; reflexivity | exact E].
  - f_equal. apply IH; [assumption|]. intros z Hz [->|H]; [contradiction|].
    eapply Hs; [right|]; eassumption.
Qed.

#[export] Hint Resolve unique_from_nodup union_columns_nodup : merge.
#[export] Hint Rewrite union_columns_unique : merge_rw.

(** ** Lemmas on rows *)

Lemma lookup_cell_notin c cols r : ~ In c cols -> lookup_cell c cols r = CNull.
Proof.
  revert r. induction cols as [|c' cs IH]; intros [|x xs] H; simpl; try reflexivity.
  destruct (String.eqb_spec c' c); [exfalso; apply H; left; assumption|].
  apply IH. intros H'. apply H. right. assumption.
Qed.

Lemma length_reindex src dst r : length (reindex src dst r) = length dst.
Proof. apply length_map. Qed.

Lemma lookup_cell_reindex_in c src dst r :
  NoDup dst -> In c dst -> lookup_cell c dst (reindex src dst r) = lookup_cell c src r.
Proof.
  induction dst as [|d ds IH]; intros Hnd Hin; [contradiction|]. inv Hnd. simpl.
  destruct (String.eqb_spec d c) as [->|Hne]; [reflexivity|].
  apply IH; [assumption|]. destruct Hin; [congruence | assumption].
Qed.

(** Reindexing onto a duplicate-free superset of the columns keeps every
    cell and adds [NaN] for the other columns. *)
Lemma lookup_cell_reindex c src dst r :
  NoDup dst -> incl src dst -> lookup_cell c dst (reindex src dst r) = lookup_cell c src r.
Proof.
  intros Hnd Hinc. destruct (in_dec string_dec c dst) as [H|H].
  - apply lookup_cell_reindex_in; assumption.
  - rewrite !lookup_cell_notin; auto.
Qed.

Lemma reindex_ext s1 s2 dst r1 r2 :
  (forall c, In c dst -> lookup_cell c s1 r1 = lookup_cell c s2 r2) ->
  reindex s1 dst r1 = reindex s2 dst r2.
Proof. intros H. apply map_ext_in. exact H. Qed.

Lemma reindex_reindex src mid dst r :
  NoDup mid -> incl src mid -> reindex mid dst (reindex src mid r) = reindex src dst r.
Proof. intros Hnd Hinc. apply reindex_ext. intros c _. apply lookup_cell_reindex; assumption. Qed.

Lemma lookup_cell_set_at c cols col v r :
  length r = length cols ->
  lookup_cell c cols (set_at cols col v r) =
  if String.eqb c col then (if mem col cols then v else lookup_cell c cols r)
  else lookup_cell c cols r.
Proof.
  revert r. induction cols as [|c' cs IH]; intros [|x xs] Hl; simpl in *; try discriminate.
  - destruct (String.eqb c col); reflexivity.
  - injection Hl as Hl. unfold mem in *. simpl. rewrite IH by assumption.
    destruct (String.eqb_spec c' c), (String.eqb_spec c col), (String.eqb_spec col c');
      subst; simpl; rewrite ?String.eqb_refl; try congruence; try reflexivity.
    + rewrite (proj2 (String.eqb_neq c col)) by congruence. reflexivity.
Qed.

Lemma lookup_cell_snoc c cols col v r :
  length r = length cols ->
  lookup_cell c (cols ++ [col]) (r ++ [v]) =
  if mem c cols then lookup_cell c cols r else if String.eqb col c then v else CNull.
Proof.
  revert r. induction cols as [|c' cs IH]; intros [|x xs] Hl; simpl in *; try discriminate.
  - destruct (String.eqb col c); reflexivity.
  - injection Hl as Hl. unfold mem in *. simpl.
    destruct (String.eqb_spec c' c) as [->|Hne].
    + rewrite String.eqb_refl. reflexivity.
    + rewrite (proj2 (String.eqb_neq c c')) by congruence. simpl. apply IH. assumption.
Qed.

Lemma Forall2_map_r {A B} (R : A -> B -> Prop) (g : A -> B) l :
  (forall x, In x l -> R x (g x)) -> Forall2 R l (map g l).
Proof.
  induction l as [|x xs IH]; intros H; simpl; constructor.
  - apply H. left. reflexivity.
  - apply IH. intros y Hy. apply H. right. assumption.
Qed.

Lemma incl_concat_columns (fs : list frame) f :
  In f fs -> incl (columns f) (union_columns (map columns fs)).
Proof.
  intros Hf c Hc. apply union_columns_In, in_concat. exists (columns f).
  split; [apply in_map|]; assumption.
Qed.

#[export] Hint Resolve lookup_cell_notin incl_concat_columns : merge.

Lemma length_set_at cols col v r : length (set_at cols col v r) = length r.
Proof.
  revert r. induction cols as [|c cs IH]; intros [|x xs]; simpl; auto.
Qed.

Lemma NoDup_snoc {A} (l : list A) x : NoDup l -> ~ In x l -> NoDup (l ++ [x]).
Proof.
  induction l as [|y ys IH]; intros Hnd Hx; simpl; [repeat constructor; auto|].
  inv Hnd. constructor.
  - rewrite in_app_iff. simpl. intros [H|[H|H]]; [contradiction | apply Hx; left; congruence | exact H].
  - apply IH; [assumption|]. intros H. apply Hx. right. assumption.
Qed.

(** [unique] absorbs an inner [unique] of a prefix. *)
Lemma unique_unique_app x y : unique (unique x ++ y) = unique (x ++ y).
Proof.
  unfold unique. rewrite !unique_from_app.
  rewrite (unique_nodup_id [] (unique_from [] x)) by (apply unique_from_nodup || (intros ? ? [])).
  f_equal. apply unique_from_seen_equiv. intros z. rewrite !in_app_iff, unique_from_In. simpl. tauto.
Qed.

Lemma map_reindex_flat_map (l : list frame) mid dst :
  NoDup mid -> (forall f, In f l -> incl (columns f) mid) ->
  map (reindex mid dst) (flat_map (fun f => map (reindex (columns f) mid) (rows f)) l) =
  flat_map (fun f => map (reindex (columns f) dst) (rows f)) l.
Proof.
  intros Hnd. induction l as [|f l IH]; intros Hinc; simpl; [reflexivity|].
  rewrite map_app, map_map, IH by (intros; apply Hinc; right; assumption).
  f_equal. apply map_ext. intros r. apply reindex_reindex; [assumption|]. apply Hinc. left. reflexivity.
Qed.

Lemma concat_frames_cons f fs : concat_frames (f :: fs) = Some (concat_ne f fs).
Proof. reflexivity. Qed.

Lemma concat_frames_ne l :
  l <> [] ->
  concat_frames l =
  Some (mkFrame (union_columns (map columns l))
          (flat_map (fun h => map (reindex (columns h) (union_columns (map columns l))) (rows h)) l)).
Proof. destruct l; [congruence | reflexivity]. Qed.

Lemma concat_frames_inv fs g :
  concat_frames fs = Some g ->
  g = mkFrame (union_columns (map columns fs))
        (flat_map (fun h => map (reindex (columns h) (union_columns (map columns fs))) (rows h)) fs).
Proof. destruct fs; [discriminate|]. intros H. rewrite concat_frames_cons in H. unfold concat_ne in H. congruence. Qed.

(** ** Properties *)

Lemma setitem_columns col v f :
  columns (setitem col v f) = if mem col (columns f) then columns f else columns f ++ [col].
Proof. unfold setitem. destruct (mem col (columns f)); reflexivity. Qed.

Lemma setitem_nrows col v f : nrows (setitem col v f) = nrows f.
Proof. unfold setitem, nrows. destruct (mem col (columns f)); apply length_map. Qed.

Lemma wf_setitem col v f : wf f -> wf (setitem col v f).
Proof.
  intros [Hnd Hlen]. unfold setitem. destruct (mem col (columns f)) eqn:E; split; simpl.
  - assumption.
  - apply Forall_map. eapply Forall_impl; [|exact Hlen]. intros r Hr. rewrite length_set_at. exact Hr.
  - apply NoDup_snoc; [assumption|]. apply mem_notin. assumption.
  - apply Forall_map. eapply Forall_impl; [|exact Hlen]. intros r Hr. simpl in Hr. rewrite !length_app. simpl. lia.
Qed.

(** C21. [df['country'] = code] keeps the invariant of a frame: the
    column names stay distinct and every row gets one cell per column. *)
Theorem setitem_wf col v f : wf f -> wf (setitem col v f).
Proof. intros; eapply wf_setitem; eassumption. Qed.

Lemma setitem_wf_witness :
  wf (mkFrame ["track"; "streams"] [[CStr "a"; CInt 1]]) /\
  wf (setitem "country" (CStr "AU") (mkFrame ["track"; "streams"] [[CStr "a"; CInt 1]])).
Proof.
  assert (H : wf (mkFrame ["track"; "streams"] [[CStr "a"; CInt 1]])).
  { split; simpl; [repeat constructor; simpl; intuition discriminate | repeat constructor]. }
  split; [exact H | apply setitem_wf; exact H].
Defined.

Lemma setitem_cells col v f :
  wf f ->
  nrows (setitem col v f) = nrows f /\
  Forall2 (fun r r' => forall c,
             lookup_cell c (columns (setitem col v f)) r' =
             if String.eqb c col then v else lookup_cell c (columns f) r)
          (rows f) (rows (setitem col v f)).
Proof.
  intros [Hnd Hlen]. rewrite Forall_forall in Hlen. unfold setitem, nrows.
  destruct (mem col (columns f)) eqn:E; simpl; (split; [apply length_map|]);
    apply Forall2_map_r; intros r Hr c.
  - rewrite lookup_cell_set_at, E by (apply Hlen; assumption). reflexivity.
  - rewrite lookup_cell_snoc by (apply Hlen; assumption).
    destruct (String.eqb_spec c col) as [->|Hne].
    + rewrite E, String.eqb_refl. reflexivity.
    + rewrite (proj2 (String.eqb_neq col c)) by congruence.
      destruct (mem c (columns f)) eqn:Ec; [reflexivity|].
      symmetry. apply lookup_cell_notin, mem_notin. assumption.
Qed.

(** C14. [df['country'] = code] keeps the number of rows, and in every row
    the cell of the assigned column is the code while every other column
    keeps its cell (an existing column of that name is overwritten in
    place, a new one is appended). *)
Theorem setitem_spec col v f :
  wf f ->
  nrows (setitem col v f) = nrows f /\
  Forall2 (fun r r' => forall c,
             lookup_cell c (columns (setitem col v f)) r' =
             if String.eqb c col then v else lookup_cell c (columns f) r)
          (rows f) (rows (setitem col v f)).
Proof. intros; eapply setitem_cells; eassumption. Qed.

Lemma setitem_spec_witness :
  wf (mkFrame ["track"; "streams"] [[CStr "a"; CInt 1]; [CStr "b"; CInt 2]]) /\
  rows (setitem "country" (CStr "AU")
          (mkFrame ["track"; "streams"] [[CStr "a"; CInt 1]; [CStr "b"; CInt 2]])) =
  [[CStr "a"; CInt 1; CStr "AU"]; [CStr "b"; CInt 2; CStr "AU"]].
Proof.
  assert (H : wf (mkFrame ["track"; "streams"] [[CStr "a"; CInt 1]; [CStr "b"; CInt 2]])).
  { split; simpl; [repeat constructor; simpl; intuition discriminate | repeat constructor]. }
  split; [exact H|].
  pose proof (setitem_spec "country" (CStr "AU") _ H) as [_ _]. reflexivity.
Defined.

Lemma wf_concat_frames fs g : concat_frames fs = Some g -> wf g.
Proof.
  intros H. apply concat_frames_inv in H. subst g. split; [apply union_columns_nodup|]. cbn [rows columns].
  apply Forall_forall. intros r Hr. apply in_flat_map in Hr as [f' [_ Hr]].
  apply in_map_iff in Hr as [r0 [<- _]]. apply length_reindex.
Qed.

(** C20. [pd.concat] of a non-empty list always yields a well-formed frame
    (distinct column names, rows as wide as the columns), whatever the
    column sets of its inputs. *)
Theorem concat_frames_wf fs g : concat_frames fs = Some g -> wf g.
Proof. intros; eapply wf_concat_frames; eassumption. Qed.

Lemma concat_frames_wf_witness :
  concat_frames [mkFrame ["a"] [[CInt 1]]; mkFrame ["b"] [[CInt 2]]] =
    Some (mkFrame ["a"; "b"] [[CInt 1; CNull]; [CNull; CInt 2]]) /\
  wf (mkFrame ["a"; "b"] [[CInt 1; CNull]; [CNull; CInt 2]]).
Proof.
  split; [reflexivity|]. apply (concat_frames_wf [mkFrame ["a"] [[CInt 1]]; mkFrame ["b"] [[CInt 2]]]).
  reflexivity.
Defined.

Lemma concat_frames_rows_cells fs g :
  concat_frames fs = Some g ->
  Forall2 (fun (sr : list string * list cell) r' =>
             forall c, lookup_cell c (columns g) r' = lookup_cell c (fst sr) (snd sr))
          (flat_map (fun f => map (pair (columns f)) (rows f)) fs) (rows g).
Proof.
  intros H. assert (Hnd : NoDup (columns g)) by (apply wf_concat_frames in H; apply H).
  apply concat_frames_inv in H. subst g. cbn [rows columns] in *.
  set (U := union_columns (map columns fs)) in *.
  assert (Hinc : forall f, In f fs -> incl (columns f) U) by (intros; apply incl_concat_columns; assumption).
  clearbody U. induction fs as [|f l IH]; simpl; [constructor|].
  apply Forall2_app.
  - induction (rows f) as [|r rs IHr]; simpl; constructor; [|apply IHr].
    intros c. apply lookup_cell_reindex; [assumption | apply Hinc; left; reflexivity].
  - apply IH. intros; apply Hinc; right; assumption.
Qed.

(** C13. [pd.concat] drops and duplicates no row: the rows of the result
    are, in order, the rows of the inputs, each keeping the cell of every
    column it had and [NaN] in the columns it lacked. *)
Theorem concat_frames_cells fs g :
  concat_frames fs = Some g ->
  Forall2 (fun (sr : list string * list cell) r' =>
             forall c, lookup_cell c (columns g) r' = lookup_cell c (fst sr) (snd sr))
          (flat_map (fun f => map (pair (columns f)) (rows f)) fs) (rows g).
Proof. intros; eapply concat_frames_rows_cells; eassumption. Qed.


Lemma concat_frames_cells_witness :
  concat_frames [mkFrame ["a"] [[CInt 1]]; mkFrame ["b"] [[CInt 2]]] =
    Some (mkFrame ["a"; "b"] [[CInt 1; CNull]; [CNull; CInt 2]]) /\
  lookup_cell "a" ["a"; "b"] [CInt 1; CNull] = CInt 1.
Proof.
  split; [reflexivity|].
  pose proof (concat_frames_cells [mkFrame ["a"] [[CInt 1]]; mkFrame ["b"] [[CInt 2]]] _ eq_refl) as H.
  inv H. apply (H3 "a").
Defined.

Lemma concat_frames_length fs g :
  concat_frames fs = Some g -> nrows g = list_sum (map nrows fs).
Proof.
  intros H. apply concat_frames_rows_cells, Forall2_length in H.
  unfold nrows. rewrite <- H. clear. induction fs as [|f fs IH]; simpl; [reflexivity|].
  rewrite length_app, length_map, IH. reflexivity.
Qed.

(** C19. The row count of [pd.concat] is the sum of the row counts of its
    inputs. *)
Theorem concat_frames_nrows fs g :
  concat_frames fs = Some g -> nrows g = list_sum (map nrows fs).
Proof. intros; eapply concat_frames_length; eassumption. Qed.

Lemma concat_frames_nrows_witness :
  concat_frames [mkFrame ["a"] [[CInt 1]; [CInt 3]]; mkFrame ["b"] [[CInt 2]]] =
    Some (mkFrame ["a"; "b"] [[CInt 1; CNull]; [CInt 3; CNull]; [CNull; CInt 2]]) /\
  nrows (mkFrame ["a"; "b"] [[CInt 1; CNull]; [CInt 3; CNull]; [CNull; CInt 2]]) = 3.
Proof.
  split; [reflexivity|].
  exact (concat_frames_nrows [mkFrame ["a"] [[CInt 1]; [CInt 3]]; mkFrame ["b"] [[CInt 2]]] _ eq_refl).
Defined.

Lemma concat_frames_app fs a rest :
  concat_frames fs = Some a -> concat_frames (a :: rest) = concat_frames (fs ++ rest).
Proof.
  intros H. assert (Hne : fs <> []) by (destruct fs; discriminate).
  apply concat_frames_inv in H. subst a.
  rewrite concat_frames_cons, (concat_frames_ne (fs ++ rest)) by (destruct fs; [congruence | discriminate]).
  unfold concat_ne. cbn [columns rows map].
  assert (Hcols : union_columns (union_columns (map columns fs) :: map columns rest) =
                  union_columns (map columns (fs ++ rest))).
  { rewrite !union_columns_unique, map_app, concat_app. apply unique_unique_app. }
  rewrite Hcols. f_equal. f_equal.
  rewrite flat_map_app. simpl. f_equal.
  apply map_reindex_flat_map; [auto with merge|]. intros; apply incl_concat_columns; assumption.
Qed.

(** C12. Concatenating incrementally, as the accumulation loop does, is
    the same as one concatenation of all the frames: concatenating the
    result of [pd.concat(fs)] with further frames [rest] gives
    [pd.concat(fs + rest)]. *)
Theorem concat_frames_assoc fs a rest :
  concat_frames fs = Some a -> concat_frames (a :: rest) = concat_frames (fs ++ rest).
Proof. intros; eapply concat_frames_app; eassumption. Qed.

Lemma concat_frames_assoc_witness :
  concat_frames [mkFrame ["a"] [[CInt 1]]; mkFrame ["b"] [[CInt 2]]] =
    Some (mkFrame ["a"; "b"] [[CInt 1; CNull]; [CNull; CInt 2]]) /\
  concat_frames [mkFrame ["a"; "b"] [[CInt 1; CNull]; [CNull; CInt 2]]; mkFrame ["c"] [[CInt 3]]] =
  concat_frames ([mkFrame ["a"] [[CInt 1]]; mkFrame ["b"] [[CInt 2]]] ++ [mkFrame ["c"] [[CInt 3]]]).
Proof.
  split; [reflexivity|].
  apply (concat_frames_assoc [mkFrame ["a"] [[CInt 1]]; mkFrame ["b"] [[CInt 2]]]). reflexivity.
Defined.

Lemma unique_from_unique_from s t y :
  incl t s -> unique_from s (unique_from t y) = unique_from s y.
Proof.
  revert s t. induction y as [|y0 ys IH]; intros s t Hts; simpl; [reflexivity|].
  destruct (mem y0 t) eqn:Et.
  - rewrite IH by assumption. apply mem_In, Hts, mem_In in Et. rewrite Et. reflexivity.
  - simpl. destruct (mem y0 s) eqn:Es.
    + apply IH. intros z [<-|Hz]; [apply mem_In; assumption | apply Hts; assumption].
    + f_equal. apply IH. intros z [<-|Hz]; [left; reflexivity | right; apply Hts; assumption].
Qed.

Lemma unique_app_unique x y : unique (x ++ unique y) = unique (x ++ y).
Proof.
  unfold unique. rewrite !unique_from_app. f_equal.
  apply unique_from_unique_from. intros z [].
Qed.

(** The other association: concatenating [fs] with the result of
    [pd.concat(rest)] is [pd.concat(fs + rest)]. *)
Lemma concat_frames_assoc_r fs rest b :
  concat_frames rest = Some b -> concat_frames (fs ++ [b]) = concat_frames (fs ++ rest).
Proof.
  intros H. assert (Hne : rest <> []) by (destruct rest; discriminate).
  apply concat_frames_inv in H. subst b.
  rewrite (concat_frames_ne (fs ++ _)) by (destruct fs; discriminate).
  rewrite (concat_frames_ne (fs ++ rest)) by (destruct fs, rest; simpl; congruence).
  assert (Hcols : union_columns (map columns (fs ++ [mkFrame (union_columns (map columns rest))
                    (flat_map (fun h => map (reindex (columns h) (union_columns (map columns rest))) (rows h)) rest)])) =
                  union_columns (map columns (fs ++ rest))).
  { rewrite !union_columns_unique, !map_app, !concat_app. simpl. rewrite app_nil_r.
    apply unique_app_unique. }
  rewrite Hcols. f_equal. f_equal. rewrite !flat_map_app. f_equal. simpl. rewrite app_nil_r.
  apply map_reindex_flat_map; [auto with merge|]. intros; apply incl_concat_columns; assumption.
Qed.

Lemma reindex_id cols r :
  NoDup cols -> length r = length cols -> reindex cols cols r = r.
Proof.
  intros Hnd Hl. unfold reindex. revert r Hl. induction cols as [|c cs IH]; intros [|x xs] Hl;
    simpl in *; try discriminate; [reflexivity|].
  inv Hnd. injection Hl as Hl. rewrite String.eqb_refl. f_equal.
  transitivity (map (fun c' => lookup_cell c' cs xs) cs); [|apply IH; assumption].
  apply map_ext_in. intros c' Hc'.
  destruct (String.eqb_spec c c'); [subst; contradiction | reflexivity].
Qed.

(** [pd.concat] of one well-formed frame is that frame. *)
Lemma concat_frames_single h : wf h -> concat_frames [h] = Some h.
Proof.
  intros [Hnd Hlen]. rewrite concat_frames_cons. unfold concat_ne. cbn [map].
  assert (Hc : union_columns [columns h] = columns h).
  { rewrite union_columns_unique. simpl. rewrite app_nil_r. apply unique_nodup_id; auto. }
  rewrite Hc. destruct h as [cols rs]. simpl in *. rewrite app_nil_r. f_equal. f_equal.
  rewrite <- map_id. apply map_ext_in. intros r Hr. apply reindex_id; [assumption|].
  rewrite Forall_forall in Hlen. apply Hlen. assumption.
Qed.

(** Concatenating the concatenations of non-empty groups is the
    concatenation of all their frames. *)
Lemma concat_frames_groups (gs : list (list frame)) (hs : list frame) :
  Forall2 (fun g h => concat_frames g = Some h) gs hs ->
  concat_frames hs = concat_frames (concat gs).
Proof.
  induction 1 as [|g h gs' hs' Hgh Hrest IH]; [reflexivity|]. simpl.
  destruct hs' as [|h' hs''].
  - inv Hrest. simpl. rewrite app_nil_r, Hgh. apply concat_frames_single.
    eapply wf_concat_frames; eassumption.
  - destruct (concat_frames (h' :: hs'')) as [b|] eqn:Eb; [|discriminate].
    transitivity (concat_frames [h; b]).
    + symmetry. exact (concat_frames_assoc_r [h] (h' :: hs'') b Eb).
    + etransitivity; [exact (concat_frames_assoc_r [h] (concat gs') b (eq_sym IH))|].
      exact (concat_frames_app g h (concat gs') Hgh).
Qed.

(** [pd.concat([])] is the [ValueError] path. *)
Lemma concat_frames_nil : concat_frames [] = None.
Proof. reflexivity. Qed.

Lemma concat_frames_some fs : fs <> [] -> exists g, concat_frames fs = Some g.
Proof. destruct fs; [congruence|]. intros _. eexists. reflexivity. Qed.


End Frame.
