(* ===== verification/Accumulate.v ===== *)
(** The per-country accumulation of [merge_by_country]
    ([src/merge_csv.py], lines 84-96): the insertion-ordered [dict]
    [country_data] and the loop that reads each CSV path, tags its rows
    with the country code and either stores the frame or concatenates it
    onto the stored one.  [read_csv] is a section variable: the result of
    [pd.read_csv] on each path, [None] for content pandas cannot parse.

    The theorems: the loop succeeds exactly when every read does, and
    stops at the first unreadable path; the keys are the country codes in
    first-seen order; the frame kept for a country is the one
    [pd.concat] of that country's tagged frames in discovery order
    (incremental concatenation refines bulk concatenation); hence its row
    count is the sum of the files' row counts and every row carries its
    country code. *)

From Stdlib Require Import Permutation ZArith.
From S2P Require Import Prelude Classifier Frame.
Import Classifier Frame.
Open Scope merge_scope.

Module Accumulate.

(** ** The insertion-ordered dictionary *)

Definition store : Type := list (string * frame).

(** [d.get(k)]. *)
Fixpoint dict_get (k : string) (d : store) : option frame :=
  match d with
  | [] => None
  | (k', v) :: d' => if String.eqb k' k then Some v else dict_get k d'
  end.

(** [d[k] = v]: an existing key keeps its position, a new key goes last. *)
Fixpoint dict_set (k : string) (v : frame) (d : store) : store :=
  match d with
  | [] => [(k, v)]
  | (k', v') :: d' => if String.eqb k' k then (k, v) :: d' else (k', v') :: dict_set k v d'
  end.

(** ** One iteration of the loop and the loop *)

Section Loop.

Variable read_csv : string -> option frame.

(** Lines 88-96 for one [file_path]. *)
Definition ingest_file (country_data : store) (file_path : string) : result py_error store :=
  let file_name := py_basename file_path in
  let country := extract_country_from_filename file_name in
  match read_csv file_path with
  | None => Err (ParserError file_path)
  | Some df0 =>
      let df := setitem "country" (CStr country) df0 in
      match dict_get country country_data with
      | None => Ok (dict_set country df country_data)
      | Some acc => Ok (dict_set country (concat_ne acc [df]) country_data)
      end
  end.

(** [for file_path in csv_files: ...] *)
Fixpoint accumulate (country_data : store) (csv_files : list string) : result py_error store :=
  match csv_files with
  | [] => Ok country_data
  | file_path :: rest =>
      let* country_data' := ingest_file country_data file_path in
      accumulate country_data' rest
  end.

End Loop.

(** ** What the loop computes, stated without the loop *)

(** The country code of a path. *)
Definition classify (file_path : string) : string :=
  extract_country_from_filename (py_basename file_path).

(** A read frame with its [country] column set. *)
Definition tag (file_path : string) (df : frame) : frame :=
  setitem "country" (CStr (classify file_path)) df.

(** The tagged frames of the paths classified to [k], in order. *)
Definition frames_of (k : string) (loaded : list (string * frame)) : list frame :=
  map (fun pd => tag (fst pd) (snd pd))
      (filter (fun pd => String.eqb (classify (fst pd)) k) loaded).

Definition option_list {A} (o : option A) : list A :=
  match o with Some x => [x] | None => [] end.

(** ** Lemmas on the dictionary *)

Lemma dict_get_set k k' v d :
  dict_get k' (dict_set k v d) = if String.eqb k k' then Some v else dict_get k' d.
Proof.
  induction d as [|[k0 v0] d IH]; simpl.
  - destruct (String.eqb k k'); reflexivity.
  - destruct (String.eqb_spec k0 k) as [->|Hne]; simpl.
    + destruct (String.eqb k k'); reflexivity.
    + rewrite IH. destruct (String.eqb_spec k0 k'), (String.eqb_spec k k'); congruence.
Qed.

Lemma dict_keys_set k v d :
  map fst (dict_set k v d) = if mem k (map fst d) then map fst d else map fst d ++ [k].
Proof.
  induction d as [|[k0 v0] d IH]; simpl; [reflexivity|]. unfold mem in *. simpl.
  destruct (String.eqb_spec k0 k) as [->|Hne]; simpl.
  - rewrite String.eqb_refl. reflexivity.
  - rewrite (proj2 (String.eqb_neq k k0)) by congruence. simpl. rewrite IH.
    destruct (existsb (String.eqb k) (map fst d)); reflexivity.
Qed.

Lemma dict_get_mem k d : mem k (map fst d) = true <-> dict_get k d <> None.
Proof.
  unfold mem. induction d as [|[k0 v0] d IH]; simpl; [split; congruence|].
  destruct (String.eqb_spec k k0), (String.eqb_spec k0 k); subst; try congruence; simpl.
  - split; congruence.
  - exact IH.
Qed.

#[export] Hint Rewrite dict_get_set dict_keys_set : merge_rw.

(** The step of the loop, described by what it does to [dict_get]. *)
Lemma ingest_file_ok read_csv d p df :
  read_csv p = Some df ->
  exists d', ingest_file read_csv d p = Ok d' /\
    (forall k, dict_get k d' =
       if String.eqb (classify p) k
       then match dict_get k d with
            | None => Some (tag p df)
            | Some acc => Some (concat_ne acc [tag p df])
            end
       else dict_get k d) /\
    map fst d' = map fst d ++ (if mem (classify p) (map fst d) then [] else [classify p]).
Proof.
  intros Hr. unfold ingest_file. rewrite Hr. fold (classify p). fold (tag p df).
  destruct (dict_get (classify p) d) as [acc|] eqn:E; eexists; (split; [reflexivity|]);
    (split; [intros k; rewrite dict_get_set; destruct (String.eqb_spec (classify p) k) as [<-|];
             [rewrite E|]; reflexivity |]);
    rewrite dict_keys_set; destruct (mem (classify p) (map fst d)) eqn:Em;
    rewrite ?app_nil_r; reflexivity.
Qed.
Lemma frames_of_cons k p df loaded :
  frames_of k ((p, df) :: loaded) =
  if String.eqb (classify p) k then tag p df :: frames_of k loaded else frames_of k loaded.
Proof. unfold frames_of. simpl. destruct (String.eqb (classify p) k); reflexivity. Qed.

Definition store_wf (d : store) : Prop := forall k f, dict_get k d = Some f -> wf f.

Lemma tag_wf p df : wf df -> wf (tag p df).
Proof. apply wf_setitem. Qed.

Lemma concat_ne_wf f fs : wf (concat_ne f fs).
Proof. apply (wf_concat_frames (f :: fs)). reflexivity. Qed.

#[export] Hint Resolve tag_wf concat_ne_wf : merge.

Lemma accumulate_spec_gen read_csv files dfs :
  Forall2 (fun q df => read_csv q = Some df) files dfs -> Forall wf dfs ->
  forall d, store_wf d -> exists d',
    accumulate read_csv d files = Ok d' /\
    (forall k, dict_get k d' =
               concat_frames (option_list (dict_get k d) ++ frames_of k (combine files dfs))) /\
    map fst d' = map fst d ++ unique_from (map fst d) (map classify files).
Proof.
  induction 1 as [|p df ps dfs' Hr Hrest IH]; intros Hwf d Hd.
  - exists d. split; [reflexivity|]. split; [|simpl; rewrite app_nil_r; reflexivity].
    intros k. unfold frames_of. simpl. rewrite app_nil_r.
    destruct (dict_get k d) as [f|] eqn:E; [|reflexivity].
    symmetry. apply concat_frames_single. eapply Hd. exact E.
  - inv Hwf. destruct (ingest_file_ok read_csv d p df Hr) as [d1 [Hstep [Hget Hkeys]]].
    destruct (IH H2 d1) as [d' [Hrun [Hget' Hkeys']]].
    { intros k f. rewrite Hget. destruct (String.eqb (classify p) k).
      - destruct (dict_get k d); intros [= <-]; auto with merge.
      - apply Hd. }
    exists d'. simpl. rewrite Hstep. simpl. split; [exact Hrun|]. split.
    + intros k. rewrite Hget', Hget, frames_of_cons.
      destruct (String.eqb (classify p) k); [|reflexivity].
      destruct (dict_get k d) as [acc|]; [|reflexivity]. simpl.
      apply (concat_frames_app [acc; tag p df]). reflexivity.
    + rewrite Hkeys', Hkeys. simpl. destruct (mem (classify p) (map fst d)) eqn:Em.
      * rewrite !app_nil_r. reflexivity.
      * rewrite <- app_assoc. f_equal. simpl. f_equal. apply unique_from_seen_equiv.
        intros z. rewrite in_app_iff. simpl. tauto.
Qed.

Lemma classify_no_slash p : has_char slash (classify p) = false.
Proof. apply extract_country_no_slash, py_basename_no_slash. Qed.

(** Every key the loop produces was there before or is the code of one
    of the paths. *)
Lemma accumulate_keys_from read_csv d files d' :
  accumulate read_csv d files = Ok d' ->
  forall k, In k (map fst d') -> In k (map fst d) \/ exists p, In p files /\ k = classify p.
Proof.
  revert d. induction files as [|p ps IH]; intros d Hrun k Hk; simpl in Hrun.
  - inv Hrun. left. assumption.
  - destruct (read_csv p) as [df|] eqn:Hr; [|unfold ingest_file in Hrun; rewrite Hr in Hrun; discriminate].
    destruct (ingest_file_ok read_csv d p df Hr) as [d1 [Hstep [_ Hkeys]]].
    rewrite Hstep in Hrun. simpl in Hrun. destruct (IH d1 Hrun k Hk) as [H|[q [Hq ->]]].
    + rewrite Hkeys, in_app_iff in H. destruct H as [H|H]; [left; assumption|].
      right. exists p. split; [left; reflexivity|].
      destruct (mem (classify p) (map fst d)); [contradiction | destruct H as [<-|[]]; reflexivity].
    + right. exists q. split; [right|]; auto.
Qed.

(** ** Properties *)

(** C1. Refinement of the accumulation loop: when every CSV path reads
    to a well-formed frame, the loop succeeds, its keys are the country
    codes in first-seen order, and the frame kept for each code is
    [pd.concat] of the tagged frames of that code's files in discovery
    order (and there is no entry for any other code). *)
Theorem accumulate_spec read_csv files dfs :
  Forall2 (fun q df => read_csv q = Some df) files dfs -> Forall wf dfs ->
  exists d,
    accumulate read_csv [] files = Ok d /\
    map fst d = unique (map classify files) /\
    (forall k, dict_get k d = concat_frames (frames_of k (combine files dfs))).
Proof.
  intros Hr Hwf. destruct (accumulate_spec_gen read_csv files dfs Hr Hwf [])
    as [d [Hrun [Hget Hkeys]]]; [intros k f; discriminate|].
  exists d. split; [exact Hrun|]. split; [exact Hkeys|]. exact Hget.
Qed.


Lemma accumulate_inv read_csv files dfs d :
  Forall2 (fun q df => read_csv q = Some df) files dfs -> Forall wf dfs ->
  accumulate read_csv [] files = Ok d ->
  map fst d = unique (map classify files) /\
  (forall k, dict_get k d = concat_frames (frames_of k (combine files dfs))).
Proof.
  intros Hr Hwf Hrun. destruct (accumulate_spec_gen _ _ _ Hr Hwf []) as [d' [Hrun' [Hget Hkeys]]];
    [intros k f; discriminate|].
  rewrite Hrun in Hrun'. injection Hrun' as <-. split; assumption.
Qed.

Lemma in_frames_of k loaded f :
  In f (frames_of k loaded) ->
  exists p df, f = tag p df /\ In (p, df) loaded /\ classify p = k.
Proof.
  unfold frames_of. intros H. apply in_map_iff in H as [[p df] [<- H]].
  apply filter_In in H as [H Hk]. apply String.eqb_eq in Hk. exists p, df. auto.
Qed.

(** C6. Accumulation is non-lossy: the row count of the frame kept for
    a country is the sum of the row counts of the files classified to
    it. *)
Theorem accumulate_nrows read_csv files dfs d k g :
  Forall2 (fun q df => read_csv q = Some df) files dfs -> Forall wf dfs ->
  accumulate read_csv [] files = Ok d -> dict_get k d = Some g ->
  nrows g = list_sum (map (fun pd => nrows (snd pd))
                          (filter (fun pd => String.eqb (classify (fst pd)) k) (combine files dfs))).
Proof.
  intros Hr Hwf Hrun Hg. destruct (accumulate_inv _ _ _ _ Hr Hwf Hrun) as [_ Hget].
  rewrite Hget in Hg. rewrite (concat_frames_length _ _ Hg). unfold frames_of. rewrite map_map.
  f_equal. apply map_ext. intros [p df]. apply setitem_nrows.
Qed.

(** C11. Every row of the frame kept for a country carries that
    country's code in its [country] column. *)
Theorem accumulate_country_column read_csv files dfs d k g :
  Forall2 (fun q df => read_csv q = Some df) files dfs -> Forall wf dfs ->
  accumulate read_csv [] files = Ok d -> dict_get k d = Some g ->
  Forall (fun r => lookup_cell "country" (columns g) r = CStr k) (rows g).
Proof.
  intros Hr Hwf Hrun Hg. destruct (accumulate_inv _ _ _ _ Hr Hwf Hrun) as [_ Hget].
  rewrite Hget in Hg. apply concat_frames_rows_cells in Hg.
  eapply Forall2_Forall_r; [exact Hg|]. intros [src r] r' Hin Hrel. rewrite Hrel. simpl.
  apply in_flat_map in Hin as [f [Hf Hin]]. apply in_map_iff in Hin as [r1 [Heq Hr1]].
  injection Heq as <- <-. apply in_frames_of in Hf as [p [df [-> [Hpd Hk]]]].
  assert (Hdf : wf df) by (rewrite Forall_forall in Hwf; apply Hwf; eapply in_combine_r; eassumption).
  destruct (setitem_cells "country" (CStr (classify p)) df Hdf) as [_ Hs].
  eapply Forall2_Forall_r with (Q := fun r => lookup_cell "country" (columns (tag p df)) r = CStr k)
    in Hs; [rewrite Forall_forall in Hs; apply Hs; exact Hr1|].
  intros r0 r0' _ H. unfold tag. rewrite H, String.eqb_refl, Hk. reflexivity.
Qed.

(** C10. A malformed file aborts the loop at the first unreadable path:
    every earlier path is read and folded in, and the error names the
    failing path. *)
Theorem accumulate_first_error read_csv d pre p post dfs :
  Forall2 (fun q df => read_csv q = Some df) pre dfs -> read_csv p = None ->
  accumulate read_csv d (pre ++ p :: post) = Err (ParserError p).
Proof.
  intros Hr Hp. revert d. induction Hr as [|q df pre' dfs' Hq Hrest IH]; intros d; simpl.
  - unfold ingest_file. rewrite Hp. reflexivity.
  - destruct (ingest_file_ok read_csv d q df Hq) as [d1 [Hstep _]]. rewrite Hstep. apply IH.
Qed.

(** ** The merged frame (line 116) *)

Lemma dict_get_entries d :
  NoDup (map fst d) -> Forall2 (fun k v => dict_get k d = Some v) (map fst d) (map snd d).
Proof.
  induction d as [|[k v] d IH]; intros Hnd; simpl; constructor.
  - rewrite String.eqb_refl. reflexivity.
  - inv Hnd. eapply Forall2_impl_in; [apply IH; assumption|]. intros k' v' Hk' H.
    rewrite (proj2 (String.eqb_neq k k')) by congruence. exact H.
Qed.

Lemma flat_map_map {A B C} (g : B -> C) (h : A -> list B) l :
  flat_map (fun x => map g (h x)) l = map g (flat_map h l).
Proof. induction l as [|x l IH]; simpl; [reflexivity|]. rewrite map_app, IH. reflexivity. Qed.

Lemma flat_map_if_absent {A} (f : A -> string) (x : A) (F : string -> list A) ks :
  ~ In (f x) ks ->
  flat_map (fun k => if String.eqb (f x) k then x :: F k else F k) ks = flat_map F ks.
Proof.
  induction ks as [|k ks IH]; intros H; simpl; [reflexivity|].
  destruct (String.eqb_spec (f x) k); [exfalso; apply H; left; congruence|].
  rewrite IH; [reflexivity|]. intros H'. apply H. right. assumption.
Qed.

Lemma flat_map_if_once {A} (f : A -> string) (x : A) (F : string -> list A) ks :
  NoDup ks -> In (f x) ks ->
  Permutation (flat_map (fun k => if String.eqb (f x) k then x :: F k else F k) ks)
              (x :: flat_map F ks).
Proof.
  induction ks as [|k ks IH]; intros Hnd Hin; [contradiction|]. inv Hnd. simpl.
  destruct (String.eqb_spec (f x) k) as [<-|Hne].
  - rewrite flat_map_if_absent by assumption. reflexivity.
  - destruct Hin as [Hin|Hin]; [congruence|].
    rewrite IH by assumption. symmetry. apply Permutation_middle.
Qed.

(** Grouping a list by a key, over duplicate-free keys covering every
    element, permutes the list. *)
Lemma group_by_perm {A} (f : A -> string) (l : list A) (ks : list string) :
  NoDup ks -> (forall x, In x l -> In (f x) ks) ->
  Permutation (flat_map (fun k => filter (fun x => String.eqb (f x) k) l) ks) l.
Proof.
  intros Hnd. induction l as [|x l IH]; intros Hcov; simpl.
  - induction ks as [|k ks IHk]; [constructor|]. inv Hnd. apply (IHk H2). intros ? [].
  - rewrite flat_map_if_once by (auto; apply Hcov; left; reflexivity).
    constructor. apply IH. intros y Hy. apply Hcov. right. assumption.
Qed.

Lemma accumulate_merged_eq read_csv files dfs d :
  Forall2 (fun q df => read_csv q = Some df) files dfs -> Forall wf dfs ->
  accumulate read_csv [] files = Ok d ->
  concat_frames (map snd d) =
  concat_frames (flat_map (fun k => frames_of k (combine files dfs)) (unique (map classify files))).
Proof.
  intros Hr Hwf Hrun. destruct (accumulate_inv _ _ _ _ Hr Hwf Hrun) as [Hkeys Hget].
  rewrite flat_map_concat_map, <- Hkeys. symmetry. symmetry. apply concat_frames_groups.
  apply Forall2_map_l. eapply Forall2_impl_in.
  - apply dict_get_entries. rewrite Hkeys. apply unique_from_nodup.
  - intros k v _ H. rewrite <- Hget. exact H.
Qed.

(** C5. The merged frame of line 116, [pd.concat(country_data.values())],
    is [pd.concat] of all the tagged frames grouped by country: countries
    in first-seen order, files of one country in discovery order. *)
Theorem accumulate_merged read_csv files dfs d :
  Forall2 (fun q df => read_csv q = Some df) files dfs -> Forall wf dfs ->
  accumulate read_csv [] files = Ok d ->
  concat_frames (map snd d) =
  concat_frames (flat_map (fun k => frames_of k (combine files dfs)) (unique (map classify files))).
Proof. intros; eapply accumulate_merged_eq; eassumption. Qed.

(** The row count of the merged frame, shared by C7 and the end-to-end theorems. *)
Lemma accumulate_merged_nrows_eq read_csv files dfs d m :
  Forall2 (fun q df => read_csv q = Some df) files dfs -> Forall wf dfs ->
  accumulate read_csv [] files = Ok d -> concat_frames (map snd d) = Some m ->
  nrows m = list_sum (map nrows dfs).
Proof.
  intros Hr Hwf Hrun Hm. rewrite (accumulate_merged_eq _ _ _ _ Hr Hwf Hrun) in Hm.
  rewrite (concat_frames_length _ _ Hm). unfold frames_of. rewrite flat_map_map, map_map.
  rewrite (map_ext _ (fun pd => nrows (snd pd))) by (intros; apply setitem_nrows).
  rewrite (group_by_perm (fun pd => classify (fst pd))).
  - rewrite <- (map_snd_combine files dfs (Forall2_length Hr)) at 2. rewrite map_map. reflexivity.
  - apply unique_from_nodup.
  - intros [p df] Hin. apply unique_from_In. split; [|intros []].
    apply in_map. eapply in_combine_l. exact Hin.
Qed.

(** C7. No row is dropped or duplicated by the whole pipeline: the
    merged frame has as many rows as all the input files together. *)
Theorem accumulate_merged_nrows read_csv files dfs d m :
  Forall2 (fun q df => read_csv q = Some df) files dfs -> Forall wf dfs ->
  accumulate read_csv [] files = Ok d -> concat_frames (map snd d) = Some m ->
  nrows m = list_sum (map nrows dfs).
Proof. intros; eapply accumulate_merged_nrows_eq; eassumption. Qed.

(** ** A concrete run: the two-file scenario of the spec *)

Definition au_path : string := "./spotify_data/regional-au-weekly-2023-06-15.csv".
Definition us_path : string := "./spotify_data/regional-us-weekly-2023-06-15.csv".
Definition bad_path : string := "./spotify_data/regional-kr-weekly-broken.csv".

Definition sample_au : frame :=
  mkFrame ["track"; "streams"]
    [[CStr "a1"; CInt 300%Z]; [CStr "a2"; CInt 200%Z]; [CStr "a3"; CInt 100%Z]].

Definition sample_us : frame :=
  mkFrame ["track"; "streams"]
    [[CStr "u1"; CInt 500%Z]; [CStr "u2"; CInt 400%Z]; [CStr "u3"; CInt 300%Z];
     [CStr "u4"; CInt 200%Z]; [CStr "u5"; CInt 100%Z]].

Definition sample_read (p : string) : option frame :=
  if String.eqb p au_path then Some sample_au
  else if String.eqb p us_path then Some sample_us
  else None.

Lemma sample_reads :
  Forall2 (fun q df => sample_read q = Some df) [au_path; us_path] [sample_au; sample_us].
Proof. repeat constructor. Qed.

Lemma sample_wf : Forall wf [sample_au; sample_us].
Proof. apply Forall_forall. intros f [<-|[<-|[]]]; apply wfb_spec; reflexivity. Qed.

Definition sample_store : store :=
  match accumulate sample_read [] [au_path; us_path] with Ok d => d | Err _ => [] end.

Lemma sample_run : accumulate sample_read [] [au_path; us_path] = Ok sample_store.
Proof. vm_compute. reflexivity. Qed.

Lemma accumulate_spec_witness :
  exists d, accumulate sample_read [] [au_path; us_path] = Ok d /\
    map fst d = ["AU"; "US"] /\
    (forall k, dict_get k d = concat_frames (frames_of k (combine [au_path; us_path] [sample_au; sample_us]))).
Proof.
  destruct (accumulate_spec sample_read [au_path; us_path] [sample_au; sample_us] sample_reads sample_wf)
    as [d [Hrun [Hkeys Hget]]].
  exists d. split; [exact Hrun|]. split; [rewrite Hkeys; vm_compute; reflexivity | exact Hget].
Defined.

Lemma accumulate_nrows_witness :
  dict_get "AU" sample_store = Some (tag au_path sample_au) /\
  nrows (tag au_path sample_au) = 3.
Proof.
  assert (Hg : dict_get "AU" sample_store = Some (tag au_path sample_au)) by (vm_compute; reflexivity).
  split; [exact Hg|].
  rewrite (accumulate_nrows sample_read [au_path; us_path] [sample_au; sample_us] sample_store "AU" _
             sample_reads sample_wf sample_run Hg).
  vm_compute. reflexivity.
Defined.

Lemma accumulate_country_column_witness :
  dict_get "US" sample_store = Some (tag us_path sample_us) /\
  Forall (fun r => lookup_cell "country" (columns (tag us_path sample_us)) r = CStr "US")
         (rows (tag us_path sample_us)).
Proof.
  assert (Hg : dict_get "US" sample_store = Some (tag us_path sample_us)) by (vm_compute; reflexivity).
  split; [exact Hg|].
  exact (accumulate_country_column sample_read [au_path; us_path] [sample_au; sample_us] sample_store "US" _
           sample_reads sample_wf sample_run Hg).
Defined.

Lemma accumulate_first_error_witness :
  sample_read bad_path = None /\
  accumulate sample_read [] ([au_path] ++ bad_path :: [us_path]) = Err (ParserError bad_path).
Proof.
  assert (Hb : sample_read bad_path = None) by reflexivity. split; [exact Hb|].
  apply (accumulate_first_error sample_read [] [au_path] bad_path [us_path] [sample_au]);
    [repeat constructor | exact Hb].
Defined.

Lemma accumulate_merged_witness :
  concat_frames (map snd sample_store) =
  concat_frames (flat_map (fun k => frames_of k (combine [au_path; us_path] [sample_au; sample_us]))
                          ["AU"; "US"]).
Proof.
  exact (accumulate_merged sample_read [au_path; us_path] [sample_au; sample_us] sample_store
           sample_reads sample_wf sample_run).
Defined.

Definition sample_merged : frame :=
  match concat_frames (map snd sample_store) with Some m => m | None => mkFrame [] [] end.

Lemma accumulate_merged_nrows_witness :
  concat_frames (map snd sample_store) = Some sample_merged /\ nrows sample_merged = 8.
Proof.
  assert (Hm : concat_frames (map snd sample_store) = Some sample_merged) by (vm_compute; reflexivity).
  split; [exact Hm|].
  rewrite (accumulate_merged_nrows sample_read [au_path; us_path] [sample_au; sample_us] sample_store _
             sample_reads sample_wf sample_run Hm).
  reflexivity.
Defined.

End Accumulate.
