(* ===== verification/CsvWriter.v ===== *)
(** The delimited-text writer: [data.to_csv(path, index=False,
    encoding='utf-8-sig', line_terminator='\n')] ([src/merge_csv.py],
    lines 107 and 122), i.e. pandas' CSV formatter over Python's [csv]
    writer with the default dialect (comma delimiter, double-quote quote
    character, doubled quotes, minimal quoting) and a byte-order mark in front.

    A small CSV reader ([parse_csv], the Python [csv] reader's state
    machine, strict about text after a closing quote) is the oracle of the
    round trip: reading back the written text gives the header and, for
    every row, the text of every cell. *)

From Stdlib Require Import ZArith DecimalString.
From S2P Require Import Prelude Frame.
Import Frame.

Module CsvWriter.

Definition comma : ascii := ",".
Definition lf : ascii := ascii_of_nat 10.

(** The UTF-8 byte-order mark written by the [utf-8-sig] codec. *)
Definition bom : string :=
  String (ascii_of_nat 239) (String (ascii_of_nat 187) (String (ascii_of_nat 191) EmptyString)).

(** [QUOTE_MINIMAL]: a field is quoted when it holds the delimiter, the
    quote character or a character of the line terminator. *)
Definition needs_quote (s : string) : bool :=
  has_char comma s || has_char dq_char s || has_char lf s.

(** [doublequote=True]: a quote inside a quoted field is doubled. *)
Fixpoint double_quotes (s : string) : string :=
  match s with
  | EmptyString => EmptyString
  | String c s' =>
      if Ascii.eqb c dq_char then String dq_char (String dq_char (double_quotes s'))
      else String c (double_quotes s')
  end.

Definition quote_field (s : string) : string :=
  if needs_quote s then (dq ++ double_quotes s ++ dq)%string else s.

(** pandas' text of a cell: [na_rep=''] for [NaN], decimal integers. *)
Definition cell_text (c : cell) : string :=
  match c with
  | CNull => EmptyString
  | CInt z => z_text z
  | CStr s => s
  end.

(** [writer.writerow(fields)]: a record whose joined text is empty while
    it has a field (one empty field) is written as two quote characters. *)
Definition write_row (fields : list string) : string :=
  let line := py_join "," (map quote_field fields) in
  ((if negb (Nat.eqb (length fields) 0) && String.eqb line EmptyString then dq ++ dq else line)
   ++ String lf EmptyString)%string.

(** The whole file: BOM, header row, one row per record, no index. *)
Definition to_csv (df : frame) : string :=
  (bom ++ write_row (columns df)
       ++ String.concat EmptyString (map (fun r => write_row (map cell_text r)) (rows df)))%string.

(** ** The reader *)

Inductive rstate : Type := LineStart | FieldStart | Unquoted | Quoted | QuoteSeen.

Fixpoint parse_from (st : rstate) (field : string) (record : list string)
    (acc : list (list string)) (s : string) : option (list (list string)) :=
  match s with
  | EmptyString =>
      match st with
      | LineStart => Some acc
      | Quoted => None
      | _ => Some (acc ++ [record ++ [field]])
      end
  | String c s' =>
      match st with
      | LineStart | FieldStart =>
          if Ascii.eqb c comma then parse_from FieldStart EmptyString (record ++ [field]) acc s'
          else if Ascii.eqb c lf then
            match st with
            | LineStart => parse_from LineStart EmptyString [] (acc ++ [record]) s'
            | _ => parse_from LineStart EmptyString [] (acc ++ [record ++ [field]]) s'
            end
          else if Ascii.eqb c dq_char then parse_from Quoted EmptyString record acc s'
          else parse_from Unquoted (String c EmptyString) record acc s'
      | Unquoted =>
          if Ascii.eqb c comma then parse_from FieldStart EmptyString (record ++ [field]) acc s'
          else if Ascii.eqb c lf then parse_from LineStart EmptyString [] (acc ++ [record ++ [field]]) s'
          else parse_from Unquoted (field ++ String c EmptyString) record acc s'
      | Quoted =>
          if Ascii.eqb c dq_char then parse_from QuoteSeen field record acc s'
          else parse_from Quoted (field ++ String c EmptyString) record acc s'
      | QuoteSeen =>
          if Ascii.eqb c dq_char then parse_from Quoted (field ++ dq) record acc s'
          else if Ascii.eqb c comma then parse_from FieldStart EmptyString (record ++ [field]) acc s'
          else if Ascii.eqb c lf then parse_from LineStart EmptyString [] (acc ++ [record ++ [field]]) s'
          else None
      end
  end.

Definition parse_csv (s : string) : option (list (list string)) :=
  parse_from LineStart EmptyString [] [] s.

(** Reading with [encoding='utf-8-sig'] drops a leading BOM. *)
Definition read_csv_text (s : string) : option (list (list string)) :=
  if String.prefix bom s then parse_csv (substring 3 (String.length s - 3) s) else parse_csv s.

Example to_csv_small :
  to_csv (mkFrame ["track"; "streams"] [[CStr "a,b"; CInt 7]; [CNull; CInt (-2)]]) =
  (bom ++ "track,streams" ++ nl ++ dq ++ "a,b" ++ dq ++ ",7" ++ nl ++ ",-2" ++ nl)%string.
Proof. reflexivity. Qed.

(** ** Reader lemmas *)

(** Where the reader stands after a field written by [quote_field]. *)
Definition after (st : rstate) (f : string) : rstate :=
  if needs_quote f then QuoteSeen
  else match f with EmptyString => st | _ => Unquoted end.

Definition at_start (st : rstate) : Prop := st = LineStart \/ st = FieldStart.

Lemma read_unquoted f acc R A rest :
  has_char comma f = false -> has_char lf f = false ->
  parse_from Unquoted acc R A (f ++ rest) = parse_from Unquoted (acc ++ f) R A rest.
Proof.
  revert acc. induction f as [|c f IH]; intros acc Hc Hl; simpl in *.
  - rewrite append_empty_r. reflexivity.
  - apply orb_false_iff in Hc as [Hc1 Hc2]. apply orb_false_iff in Hl as [Hl1 Hl2].
    rewrite Hc1, Hl1, IH by assumption. rewrite append_assoc. reflexivity.
Qed.

Lemma read_quoted f acc R A rest :
  parse_from Quoted acc R A (double_quotes f ++ String dq_char rest) =
  parse_from QuoteSeen (acc ++ f) R A rest.
Proof.
  revert acc. induction f as [|c f IH]; intros acc; cbn [double_quotes String.append parse_from].
  - rewrite Ascii.eqb_refl, append_empty_r. reflexivity.
  - destruct (Ascii.eqb_spec c dq_char) as [->|Hne]; cbn [String.append parse_from].
    + rewrite !Ascii.eqb_refl, IH, append_assoc. reflexivity.
    + apply Ascii.eqb_neq in Hne. rewrite Hne, IH, append_assoc. reflexivity.
Qed.

Lemma step_open st R A rest :
  at_start st -> parse_from st EmptyString R A (String dq_char rest) = parse_from Quoted EmptyString R A rest.
Proof. intros [-> | ->]; reflexivity. Qed.

Lemma read_field st f R A rest :
  at_start st ->
  parse_from st EmptyString R A (quote_field f ++ rest) = parse_from (after st f) f R A rest.
Proof.
  intros Hst. unfold quote_field, after. destruct (needs_quote f) eqn:Hq.
  - rewrite !append_assoc. unfold dq. cbn [String.append].
    rewrite step_open by assumption. rewrite read_quoted. reflexivity.
  - unfold needs_quote in Hq. apply orb_false_iff in Hq as [Hq Hl]. apply orb_false_iff in Hq as [Hc Hd].
    destruct f as [|c f]; [reflexivity|]. simpl in Hc, Hd, Hl.
    apply orb_false_iff in Hc as [Hc1 Hc2]. apply orb_false_iff in Hd as [Hd1 Hd2].
    apply orb_false_iff in Hl as [Hl1 Hl2].
    destruct Hst as [->| ->]; simpl; rewrite Hc1, Hl1, Hd1, read_unquoted by assumption; reflexivity.
Qed.

Lemma after_comma st f R A rest :
  at_start st ->
  parse_from (after st f) f R A (String comma rest) =
  parse_from FieldStart EmptyString (R ++ [f]) A rest.
Proof.
  intros Hst. unfold after. destruct (needs_quote f); [reflexivity|].
  destruct f; [destruct Hst as [->| ->]|]; reflexivity.
Qed.

Lemma after_lf st f R A rest :
  at_start st -> ~ (st = LineStart /\ quote_field f = EmptyString) ->
  parse_from (after st f) f R A (String lf rest) =
  parse_from LineStart EmptyString [] (A ++ [R ++ [f]]) rest.
Proof.
  intros Hst Hne. unfold after. unfold quote_field in Hne.
  destruct (needs_quote f); [reflexivity|].
  destruct f; [destruct Hst as [->| ->]; [exfalso; apply Hne; split; reflexivity | reflexivity]|].
  reflexivity.
Qed.

Lemma read_fields st f fs R A rest :
  at_start st -> ~ (st = LineStart /\ fs = [] /\ quote_field f = EmptyString) ->
  parse_from st EmptyString R A (py_join "," (map quote_field (f :: fs)) ++ String lf rest) =
  parse_from LineStart EmptyString [] (A ++ [R ++ f :: fs]) rest.
Proof.
  revert st f R. induction fs as [|g gs IH]; intros st f R Hst Hne.
  - simpl. rewrite read_field, after_lf by (auto; intros [H1 H2]; apply Hne; auto). reflexivity.
  - change (py_join "," (map quote_field (f :: g :: gs)))
      with (quote_field f ++ String comma (py_join "," (map quote_field (g :: gs))))%string.
    rewrite append_assoc, read_field by assumption. cbn [String.append].
    rewrite after_comma by exact Hst.
    rewrite IH; [| right; reflexivity | intros [H _]; discriminate].
    rewrite <- app_assoc. reflexivity.
Qed.

Lemma quote_field_empty f : quote_field f = EmptyString -> f = EmptyString.
Proof.
  unfold quote_field. destruct (needs_quote f); [discriminate | auto].
Qed.

(** Reading one written record. *)
Lemma read_row fields A rest :
  parse_from LineStart EmptyString [] A (write_row fields ++ rest) =
  parse_from LineStart EmptyString [] (A ++ [fields]) rest.
Proof.
  unfold write_row. destruct fields as [|f fs]; [reflexivity|]. simpl negb.
  destruct (String.eqb_spec (py_join "," (map quote_field (f :: fs))) EmptyString) as [E|E]; simpl andb.
  - destruct fs as [|g gs].
    + simpl in E. apply quote_field_empty in E. subst f. reflexivity.
    + exfalso. simpl in E. destruct (quote_field f); discriminate.
  - rewrite append_assoc. cbn [String.append]. rewrite read_fields; [reflexivity | left; reflexivity|].
    intros [_ [-> H]]. apply E. exact H.
Qed.

Lemma concat_empty_cons x xs :
  String.concat EmptyString (x :: xs) = (x ++ String.concat EmptyString xs)%string.
Proof. destruct xs; simpl; [rewrite append_empty_r|]; reflexivity. Qed.

Lemma read_rows rs A rest :
  parse_from LineStart EmptyString [] A
    (String.concat EmptyString (map write_row rs) ++ rest) =
  parse_from LineStart EmptyString [] (A ++ rs) rest.
Proof.
  revert A. induction rs as [|r rs IH]; intros A; simpl map.
  - rewrite app_nil_r. reflexivity.
  - rewrite concat_empty_cons, append_assoc, read_row, IH, <- app_assoc. reflexivity.
Qed.

Lemma substring_app_length p s :
  substring (String.length p) (String.length (p ++ s) - String.length p) (p ++ s) = s.
Proof.
  rewrite length_append. replace (String.length p + String.length s - String.length p)
    with (String.length s) by lia.
  induction p; simpl; [apply substring_full | assumption].
Qed.

(** ** Properties *)

(** The CSV reader inverts [to_csv]: the body of C8, shared with the end-to-end theorems. *)
Lemma to_csv_reads_back df :
  read_csv_text (to_csv df) = Some (columns df :: map (map cell_text) (rows df)).
Proof.
  unfold read_csv_text, to_csv. rewrite prefix_app.
  change 3 with (String.length bom). rewrite substring_app_length.
  unfold parse_csv. rewrite <- (append_empty_r (String.concat _ _)).
  rewrite <- (map_map (map cell_text) write_row), read_row, read_rows. reflexivity.
Qed.

(** C8. Round trip of the CSV output: reading back what [to_csv]
    writes (dropping the byte-order mark) gives the header row and, for
    every record in order, the text of each of its cells.  The reader
    ends records at LF, the writer's line terminator; a carriage return
    in a cell is written unquoted, as Python's [csv] module does with
    this terminator, and is read back as text. *)
Theorem to_csv_roundtrip df :
  read_csv_text (to_csv df) = Some (columns df :: map (map cell_text) (rows df)).
Proof. apply to_csv_reads_back. Qed.

End CsvWriter.
