(* ===== verification/JsonWriter.v ===== *)
(** The structured-record writer: [save_as_json] ([src/merge_csv.py],
    lines 15-17), i.e. [DataFrame.to_json(path, orient='records',
    lines=False, indent=4)].  pandas' encoder writes an array of one
    object per row, keys in column order, [null] for [NaN], integers in
    decimal, strings with its escapes (quote, backslash, forward slash,
    the named control characters, other control bytes as a lower-case
    [\u00XX] escape), an indentation of four spaces per level and no
    space after the colon.

    The writer is stated twice: [to_json] follows the shape of pandas'
    output line by line; [render] prints an abstract JSON value; the
    refinement theorem says that [to_json] prints the value
    [records_value] that lists the rows as objects. *)

From Stdlib Require Import ZArith DecimalString.
From S2P Require Import Prelude Frame.
Import Frame.

Module JsonWriter.

(** The escape of one byte inside a JSON string. *)
Definition escape_char (c : ascii) : string :=
  let n := nat_of_ascii c in
  if Ascii.eqb c dq_char then String bslash dq
  else if Ascii.eqb c bslash then String bslash (String bslash EmptyString)
  else if Ascii.eqb c slash then String bslash "/"
  else if Nat.eqb n 8 then String bslash "b"
  else if Nat.eqb n 12 then String bslash "f"
  else if Nat.eqb n 10 then String bslash "n"
  else if Nat.eqb n 13 then String bslash "r"
  else if Nat.eqb n 9 then String bslash "t"
  else if Nat.ltb n 32 then
    String bslash (String "u" (String "0" (String "0"
      (String (hex_digit (n / 16)) (String (hex_digit (n mod 16)) EmptyString)))))
  else String c EmptyString.

Fixpoint json_escape (s : string) : string :=
  match s with
  | EmptyString => EmptyString
  | String c s' => (escape_char c ++ json_escape s')%string
  end.

Definition json_string (s : string) : string := (dq ++ json_escape s ++ dq)%string.

Definition json_cell (c : cell) : string :=
  match c with
  | CNull => "null"
  | CInt z => z_text z
  | CStr s => json_string s
  end.

(** Four spaces per nesting level. *)
Fixpoint indent (level : nat) : string :=
  match level with
  | 0 => EmptyString
  | S l => ("    " ++ indent l)%string
  end.

(** ** pandas' output shape *)

(** One row as an object at nesting level 1. *)
Definition json_record (cols : list string) (r : list cell) : string :=
  match cols with
  | [] => (indent 1 ++ "{}")%string
  | _ =>
      (indent 1 ++ "{" ++ nl
       ++ py_join ("," ++ nl)
            (map (fun cv => indent 2 ++ json_string (fst cv) ++ ":" ++ json_cell (snd cv))
                 (combine cols r))
       ++ nl ++ indent 1 ++ "}")%string
  end.

(** [df.to_json(orient='records', indent=4)]. *)
Definition to_json (df : frame) : string :=
  match rows df with
  | [] => "[]"
  | rs => ("[" ++ nl ++ py_join ("," ++ nl) (map (json_record (columns df)) rs) ++ nl ++ "]")%string
  end.

(** [save_as_json(dataframe, file_path)]: the text written to the file. *)
Definition save_as_json (df : frame) : string := to_json df.

(** ** Abstract JSON values and their printer *)

Inductive json : Type :=
| JNull
| JInt (z : Z)
| JStr (s : string)
| JArr (items : list json)
| JObj (members : list (string * json)).

Definition json_of_cell (c : cell) : json :=
  match c with
  | CNull => JNull
  | CInt z => JInt z
  | CStr s => JStr s
  end.

(** The value the records document denotes. *)
Definition records_value (df : frame) : json :=
  JArr (map (fun r => JObj (combine (columns df) (map json_of_cell r))) (rows df)).

(** An indenting printer for JSON values, with ujson's layout. *)
Fixpoint render (level : nat) (v : json) : string :=
  match v with
  | JNull => "null"
  | JInt z => z_text z
  | JStr s => json_string s
  | JArr [] => "[]"
  | JArr items =>
      ("[" ++ nl
       ++ py_join ("," ++ nl) (map (fun it => indent (S level) ++ render (S level) it) items)
       ++ nl ++ indent level ++ "]")%string
  | JObj [] => "{}"
  | JObj members =>
      ("{" ++ nl
       ++ py_join ("," ++ nl)
            (map (fun kv => indent (S level) ++ json_string (fst kv) ++ ":" ++ render (S level) (snd kv))
                 members)
       ++ nl ++ indent level ++ "}")%string
  end.

Example to_json_small :
  to_json (mkFrame ["track"; "n"] [[CStr "a/b"; CInt 7%Z]; [CNull; CInt (-1)%Z]]) =
  ("[" ++ nl ++ "    {" ++ nl ++ "        " ++ dq ++ "track" ++ dq ++ ":" ++ dq ++ "a" ++
   String bslash "/b" ++ dq ++ "," ++ nl ++ "        " ++ dq ++ "n" ++ dq ++ ":7" ++ nl ++
   "    }," ++ nl ++ "    {" ++ nl ++ "        " ++ dq ++ "track" ++ dq ++ ":null," ++ nl ++
   "        " ++ dq ++ "n" ++ dq ++ ":-1" ++ nl ++ "    }" ++ nl ++ "]")%string.
Proof. reflexivity. Qed.

(** ** Lemmas *)

Lemma combine_map_r {A B C} (h : B -> C) (l : list A) (r : list B) :
  combine l (map h r) = map (fun p => (fst p, h (snd p))) (combine l r).
Proof.
  revert r. induction l as [|a l IH]; intros [|b r]; simpl; try reflexivity. rewrite IH. reflexivity.
Qed.

Lemma render_cell level c : render level (json_of_cell c) = json_cell c.
Proof. destruct c; reflexivity. Qed.

Lemma render_obj_ne level ms :
  ms <> [] ->
  render level (JObj ms) =
  ("{" ++ nl
   ++ py_join ("," ++ nl)
        (map (fun kv => indent (S level) ++ json_string (fst kv) ++ ":" ++ render (S level) (snd kv))
             ms)
   ++ nl ++ indent level ++ "}")%string.
Proof. destruct ms; [congruence | reflexivity]. Qed.

Lemma render_arr_ne level its :
  its <> [] ->
  render level (JArr its) =
  ("[" ++ nl
   ++ py_join ("," ++ nl) (map (fun i => indent (S level) ++ render (S level) i) its)
   ++ nl ++ indent level ++ "]")%string.
Proof. destruct its; [congruence | reflexivity]. Qed.

Lemma json_record_render cols r :
  length r = length cols ->
  json_record cols r = (indent 1 ++ render 1 (JObj (combine cols (map json_of_cell r))))%string.
Proof.
  intros Hl. unfold json_record. destruct cols as [|c cs]; [reflexivity|].
  destruct r as [|x xs]; [discriminate|]. rewrite combine_map_r.
  rewrite render_obj_ne by (simpl; discriminate). rewrite map_map.
  apply (f_equal (fun t => indent 1 ++ "{" ++ nl ++ t ++ nl ++ indent 1 ++ "}")%string).
  f_equal. apply map_ext. intros [k v]. simpl. rewrite render_cell. reflexivity.
Qed.

(** ** Properties *)

(** [to_json] prints [records_value]: the body of C16, shared with the reader. *)
Lemma to_json_render_eq df : wf df -> to_json df = render 0 (records_value df).
Proof.
  intros [_ Hlen]. unfold to_json, records_value. destruct (rows df) as [|r rs] eqn:Er; [reflexivity|].
  rewrite Forall_forall in Hlen.
  rewrite render_arr_ne by (simpl; discriminate). rewrite map_map.
  apply (f_equal (fun t => "[" ++ nl ++ t ++ nl ++ "]")%string).
  f_equal. apply map_ext_in. intros r' Hr'. apply json_record_render. apply Hlen. assumption.
Qed.

(** C15. Refinement of the JSON writer: for a well-formed frame the text
    [to_json] writes is the indented printing of [records_value], the
    array with one object per row mapping each column to its cell. *)
Theorem to_json_render df : wf df -> to_json df = render 0 (records_value df).
Proof. apply to_json_render_eq. Qed.

Lemma to_json_render_witness :
  wf (mkFrame ["track"; "n"] [[CStr "a"; CInt 1%Z]]) /\
  to_json (mkFrame ["track"; "n"] [[CStr "a"; CInt 1%Z]]) =
  render 0 (JArr [JObj [("track", JStr "a"); ("n", JInt 1%Z)]]).
Proof.
  assert (H : wf (mkFrame ["track"; "n"] [[CStr "a"; CInt 1%Z]])) by (apply wfb_spec; reflexivity).
  split; [exact H|]. exact (to_json_render _ H).
Defined.



End JsonWriter.
