(* ===== verification/HtmlWriter.v ===== *)
(** The styled-document writer: [save_as_html] ([src/merge_csv.py],
    lines 19-73).  A Jinja2 template, constant but for its one
    placeholder [table|safe], is rendered with
    [dataframe.to_html(index=False, classes='table table-striped')] and
    written as UTF-8.  The template text is transcribed line by line from
    the source (lines 21-70); [to_html] follows pandas' HTML formatter:
    a [table] element with [thead] and [tbody], two spaces of indentation
    per level, every cell's text HTML-escaped (ampersand first, then the
    angle brackets) and stripped of surrounding whitespace, [NaN] shown as
    [NaN], no index column.

    The theorems: the escaping loses nothing (an unescape inverts it) and
    a cell can never produce markup (no angle bracket survives); the table
    has one header cell per column and one body row per record; the page
    is the constant template around the table. *)

From Stdlib Require Import ZArith.
From S2P Require Import Prelude Frame.
Import Frame.

Module HtmlWriter.

(** ** The Jinja2 template *)

(** Lines 22-66 of the source, each written with its indentation. *)
Definition template_head_lines : list string := [
  "    <!DOCTYPE html>";
  "    <html>";
  "    <head>";
  "        <title>Data Report</title>";
  "        <style>";
  "            body {";
  "                font-family: Arial, sans-serif;";
  "                margin: 20px;";
  "                background-color: #f9f9f9;";
  "            }";
  "            h1 {";
  "                text-align: center;";
  "                color: #333;";
  "            }";
  "            table {";
  "                width: 100%;";
  "                border-collapse: collapse;";
  "                margin: 20px 0;";
  "                font-size: 16px;";
  "                text-align: left;";
  "                background-color: #fff;";
  "            }";
  "            th, td {";
  "                border: 1px solid #ddd;";
  "                padding: 10px;";
  "            }";
  "            th {";
  "                background-color: #4CAF50;";
  "                color: white;";
  "            }";
  "            tr:nth-child(even) {";
  "                background-color: #f2f2f2;";
  "            }";
  "            tr:hover {";
  "                background-color: #ddd;";
  "            }";
  "        </style>";
  "        <script>";
  "            document.addEventListener('DOMContentLoaded', function() {";
  ("                console.log(" ++ dq ++ "Data Report Loaded" ++ dq ++ ");")%string;
  "            });";
  "        </script>";
  "    </head>";
  "    <body>";
  "        <h1>Data Report</h1>" ].

(** The template up to the placeholder: the line break that follows the
    opening triple quote, the head lines, and the indentation of line 67. *)
Definition template_prefix : string :=
  (nl ++ String.concat EmptyString (map (fun l => l ++ nl) template_head_lines) ++ "        ")%string.

(** The template after the placeholder: the rest of line 67 and lines
    68-70 up to the closing triple quote. *)
Definition template_suffix : string :=
  (nl ++ "    </body>" ++ nl ++ "    </html>" ++ nl ++ "    ")%string.

(** ** pandas' [to_html] *)

Definition amp : ascii := "&".
Definition lt_char : ascii := "<".
Definition gt_char : ascii := ">".

(** [pprint_thing(s, escape_chars={'&': '&amp;', '<': '&lt;', '>': '&gt;'})]:
    the replacements run in that order, so no produced entity is escaped
    again and the result is the one of a per-character map. *)
Definition html_escape_char (c : ascii) : string :=
  if Ascii.eqb c amp then "&amp;"
  else if Ascii.eqb c lt_char then "&lt;"
  else if Ascii.eqb c gt_char then "&gt;"
  else String c EmptyString.

Fixpoint html_escape (s : string) : string :=
  match s with
  | EmptyString => EmptyString
  | String c s' => (html_escape_char c ++ html_escape s')%string
  end.

(** [str.isspace()] on one byte. *)
Definition is_space (c : ascii) : bool :=
  let n := nat_of_ascii c in
  (Nat.leb 9 n && Nat.leb n 13) || (Nat.leb 28 n && Nat.leb n 32).

Fixpoint lstrip (s : string) : string :=
  match s with
  | EmptyString => EmptyString
  | String c s' => if is_space c then lstrip s' else s
  end.

Fixpoint rev_string (s : string) : string :=
  match s with
  | EmptyString => EmptyString
  | String c s' => (rev_string s' ++ String c EmptyString)%string
  end.

(** [s.strip()]. *)
Definition strip (s : string) : string := rev_string (lstrip (rev_string (lstrip s))).

(** [_write_cell]: the escaped, stripped text of a cell. *)
Definition html_text (s : string) : string := strip (html_escape s).

(** [pprint_thing(x, escape_chars=('\t', '\r', '\n'))]: the three
    control characters are shown as a backslash and a letter. *)
Fixpoint escape_ctrl (s : string) : string :=
  match s with
  | EmptyString => EmptyString
  | String c s' =>
      let n := nat_of_ascii c in
      if Nat.eqb n 9 then String bslash (String "t" (escape_ctrl s'))
      else if Nat.eqb n 13 then String bslash (String "r" (escape_ctrl s'))
      else if Nat.eqb n 10 then String bslash (String "n" (escape_ctrl s'))
      else String c (escape_ctrl s')
  end.

(** The text pandas formats for a cell. *)
Definition display_cell (c : cell) : string :=
  match c with
  | CNull => "NaN"
  | CInt z => z_text z
  | CStr s => escape_ctrl s
  end.

Definition table_open : string :=
  ("<table border=" ++ dq ++ "1" ++ dq ++ " class=" ++ dq ++ "dataframe table table-striped" ++ dq ++ ">")%string.

Definition header_row_open : string :=
  ("    <tr style=" ++ dq ++ "text-align: right;" ++ dq ++ ">")%string.

Definition th_line (c : string) : string := ("      <th>" ++ html_text c ++ "</th>")%string.
Definition td_line (v : cell) : string := ("      <td>" ++ html_text (display_cell v) ++ "</td>")%string.
Definition row_lines (r : list cell) : list string := ["    <tr>"] ++ map td_line r ++ ["    </tr>"].

(** The lines of [to_html(index=False, classes='table table-striped')]. *)
Definition html_lines (df : frame) : list string :=
  [table_open; "  <thead>"; header_row_open] ++ map th_line (columns df) ++
  ["    </tr>"; "  </thead>"; "  <tbody>"] ++ concat (map row_lines (rows df)) ++
  ["  </tbody>"; "</table>"].

Definition to_html (df : frame) : string := py_join nl (html_lines df).

(** [html_template.render(table=...)] written by [save_as_html]. *)
Definition save_as_html (df : frame) : string :=
  (template_prefix ++ to_html df ++ template_suffix)%string.

(** ** Decoding the three entities *)

Fixpoint html_unescape (s : string) : string :=
  match s with
  | EmptyString => EmptyString
  | String c s1 =>
      if Ascii.eqb c amp then
        match s1 with
        | String "a" (String "m" (String "p" (String ";" rest))) => String amp (html_unescape rest)
        | String "l" (String "t" (String ";" rest)) => String lt_char (html_unescape rest)
        | String "g" (String "t" (String ";" rest)) => String gt_char (html_unescape rest)
        | _ => String c (html_unescape s1)
        end
      else String c (html_unescape s1)
  end.

(** ** Lemmas *)

Lemma html_escape_app a b : html_escape (a ++ b) = (html_escape a ++ html_escape b)%string.
Proof. induction a as [|c a IH]; simpl; [reflexivity|]. rewrite IH, append_assoc. reflexivity. Qed.

Lemma has_char_rev c s : has_char c (rev_string s) = has_char c s.
Proof.
  induction s as [|d s IH]; simpl; [reflexivity|].
  rewrite has_char_app, IH. simpl. rewrite orb_false_r, orb_comm. reflexivity.
Qed.

Lemma has_char_lstrip c s : has_char c (lstrip s) = true -> has_char c s = true.
Proof.
  induction s as [|d s IH]; simpl; [discriminate|].
  destruct (is_space d); [intros H; rewrite IH by exact H; apply orb_true_r | simpl; auto].
Qed.

Lemma has_char_strip c s : has_char c (strip s) = true -> has_char c s = true.
Proof.
  unfold strip. rewrite has_char_rev. intros H.
  apply has_char_lstrip in H. rewrite has_char_rev in H. apply has_char_lstrip. exact H.
Qed.

Lemma html_escape_char_no_bracket c d :
  (d = lt_char \/ d = gt_char) -> has_char d (html_escape_char c) = false.
Proof.
  intros Hd. destruct c as [[] [] [] [] [] [] [] []];
    destruct Hd as [-> | ->]; reflexivity.
Qed.

(** ** Properties *)

(** C22. The HTML escaping of cell text loses nothing: decoding the
    three entities gives the original text back. *)
Theorem html_unescape_escape s : html_unescape (html_escape s) = s.
Proof.
  induction s as [|c s IH]; [reflexivity|]. simpl html_escape.
  unfold html_escape_char. destruct (Ascii.eqb_spec c amp) as [->|H1]; [simpl; rewrite IH; reflexivity|].
  destruct (Ascii.eqb_spec c lt_char) as [->|H2]; [simpl; rewrite IH; reflexivity|].
  destruct (Ascii.eqb_spec c gt_char) as [->|H3]; [simpl; rewrite IH; reflexivity|].
  simpl. apply Ascii.eqb_neq in H1. rewrite H1, IH. reflexivity.
Qed.

(** C23. No cell text can inject markup: the text written between the
    cell tags holds no angle bracket, whatever the cell holds. *)
Theorem html_text_no_markup s :
  has_char lt_char (html_text s) = false /\ has_char gt_char (html_text s) = false.
Proof.
  assert (Hesc : forall d, (d = lt_char \/ d = gt_char) -> has_char d (html_escape s) = false).
  { intros d Hd. induction s as [|c s IH]; [reflexivity|]. simpl.
    rewrite has_char_app, html_escape_char_no_bracket, IH by assumption. reflexivity. }
  unfold html_text. split; destruct (has_char _ (strip _)) eqn:E; try reflexivity;
    apply has_char_strip in E; rewrite Hesc in E by auto; discriminate.
Qed.

Lemma td_line_not_tr v : td_line v <> "    <tr>".
Proof. unfold td_line. simpl. discriminate. Qed.

Lemma th_line_not_tr c : th_line c <> "    <tr>".
Proof. unfold th_line. simpl. discriminate. Qed.

Lemma count_occ_map_none {A} (g : A -> string) l x :
  (forall a, g a <> x) -> count_occ string_dec (map g l) x = 0.
Proof.
  intros H. apply count_occ_not_In. intros Hin. apply in_map_iff in Hin as [a [Ha _]].
  exact (H a Ha).
Qed.

Lemma count_rows_tr rs :
  count_occ string_dec (concat (map row_lines rs)) "    <tr>" = length rs.
Proof.
  induction rs as [|r rs IH]; [reflexivity|].
  change (concat (map row_lines (r :: rs))) with (row_lines r ++ concat (map row_lines rs)).
  rewrite count_occ_app, IH. unfold row_lines. rewrite !count_occ_app.
  rewrite count_occ_map_none by apply td_line_not_tr. reflexivity.
Qed.

Lemma filter_th_td r : filter (fun l => String.prefix "      <th>" l) (row_lines r) = [].
Proof.
  unfold row_lines. rewrite !filter_app. simpl.
  induction r as [|v r IH]; [reflexivity|]. simpl. exact IH.
Qed.

Lemma filter_th_columns cols :
  filter (fun l => String.prefix "      <th>" l) (map th_line cols) = map th_line cols.
Proof.
  induction cols as [|c cs IH]; [reflexivity|]. cbn [map filter]. rewrite IH.
  replace (String.prefix "      <th>" (th_line c)) with true
    by (symmetry; unfold th_line; apply prefix_app).
  reflexivity.
Qed.

(** C24. The table has one header cell per column and one body row per
    record: among the lines of [to_html], the [th] lines are exactly one
    per column and the lines opening a body row exactly one per row. *)
Theorem html_lines_counts df :
  length (filter (fun l => String.prefix "      <th>" l) (html_lines df)) = length (columns df) /\
  count_occ string_dec (html_lines df) "    <tr>" = nrows df.
Proof.
  unfold html_lines, nrows. split.
  - rewrite !filter_app, !length_app, filter_th_columns, length_map.
    assert (H : filter (fun l => String.prefix "      <th>" l) (concat (map row_lines (rows df))) = []).
    { induction (rows df) as [|r rs IH]; [reflexivity|].
      change (concat (map row_lines (r :: rs))) with (row_lines r ++ concat (map row_lines rs)).
      rewrite filter_app, filter_th_td, IH. reflexivity. }
    rewrite H. simpl. lia.
  - rewrite !count_occ_app, count_rows_tr, count_occ_map_none by apply th_line_not_tr. simpl. lia.
Qed.

(** A tab in a cell is shown as a backslash and [t]. *)
Example display_cell_tab : display_cell (CStr (String (ascii_of_nat 9) "x")) = String bslash "tx".
Proof. reflexivity. Qed.

End HtmlWriter.
