(* ===== verification/Orchestrator.v ===== *)
(** The merge orchestrator: [merge_by_country(input_folder,
    intermediate_folder, final_output_folder)] of [src/merge_csv.py]
    (lines 75-126) as a computation over an explicit world.

    - The input tree is the listing [os.walk] sees below the input
      folder: entries in directory-listing order.  [walk_csv] is lines
      77-81: for each directory, top-down, the [.csv] files of that
      directory joined to its path, then its subdirectories.
    - The world holds the existing directories, the trace of file
      writes in order (path and content) and the printed lines.
    - [read_csv] (the parse of each input path) and [can_write] (whether
      the OS lets a path be created) are section variables.
    - [M] is a state-and-error monad: an exception stops the run and
      keeps the world as it was when it was raised, so a failed run shows
      the prefix of outputs it produced.

    The theorems: on
    readable input and writable outputs the run succeeds and writes
    exactly the planned files, in order, with the three renderings of
    each country's frame and of the merged frame; a run on a tree without
    CSV files creates both directories and then raises [ValueError]; the
    directory creation is idempotent; any failing write leaves a strict
    prefix of the planned writes; a second run over the outputs of a
    first leaves every file as it was.  The spec's two-country scenario,
    run through the [__main__] block, is an example. *)

From Stdlib Require Import ZArith.
From S2P Require Import Prelude Classifier Frame Accumulate CsvWriter JsonWriter HtmlWriter.
Import Classifier Frame Accumulate CsvWriter JsonWriter HtmlWriter.

Module Orchestrator.

(** ** The input tree and [os.walk] *)

Inductive entry : Type :=
| EFile (name : string)
| EDir (name : string) (children : list entry).

Definition file_names (es : list entry) : list string :=
  flat_map (fun e => match e with EFile n => [n] | EDir _ _ => [] end) es.

(** [for file in files: if file.endswith('.csv'):
        csv_files.append(os.path.join(root, file))] for one directory. *)
Definition csv_here (root : string) (es : list entry) : list string :=
  map (py_path_join root) (filter (fun n => py_endswith n ".csv") (file_names es)).

(** [os.walk(root)] top-down, restricted to the CSV paths it yields. *)
Fixpoint walk_entry (root : string) (e : entry) : list string :=
  match e with
  | EFile _ => []
  | EDir n children =>
      let r := py_path_join root n in
      csv_here r children ++ flat_map (walk_entry r) children
  end.

Definition walk_csv (input_folder : string) (children : list entry) : list string :=
  csv_here input_folder children ++ flat_map (walk_entry input_folder) children.

(** ** The world and the monad *)

Record world : Type := mkWorld {
  w_dirs : list string;
  w_files : list (string * string);
  w_log : list string
}.

Definition M (A : Type) : Type := world -> result py_error A * world.

Definition ret {A} (a : A) : M A := fun w => (Ok a, w).
Definition raise {A} (e : py_error) : M A := fun w => (Err e, w).
Definition bind {A B} (c : M A) (k : A -> M B) : M B :=
  fun w => match c w with
           | (Ok a, w') => k a w'
           | (Err e, w') => (Err e, w')
           end.
Definition lift {A} (r : result py_error A) : M A :=
  fun w => (r, w).

Declare Scope io_scope.
Delimit Scope io_scope with io.
Notation "x <- c ;; k" := (bind c (fun x => k))
  (at level 61, c at next level, right associativity) : io_scope.
Notation "c ;; k" := (bind c (fun _ => k))
  (at level 61, right associativity) : io_scope.
Open Scope io_scope.

Section Run.

Variable read_csv : string -> option frame.
Variable can_write : string -> bool.

(** [os.makedirs(d, exist_ok=True)]: an existing directory is fine, an
    existing file of that name raises [FileExistsError], a path the OS
    refuses raises [OSError]. *)
Definition makedirs (d : string) : M unit :=
  fun w =>
    if mem d (w_dirs w) then (Ok tt, w)
    else if mem d (map fst (w_files w)) then (Err (FileExistsError d), w)
    else if can_write d then (Ok tt, mkWorld (w_dirs w ++ [d]) (w_files w) (w_log w))
    else (Err (OSError d), w).

(** [open(path, 'w')] and write: the path must be writable and its
    directory must exist. *)
Definition write_file (path content : string) : M unit :=
  fun w =>
    if negb (can_write path) then (Err (OSError path), w)
    else if negb (mem (py_dirname path) (w_dirs w)) then (Err (OSError path), w)
    else (Ok tt, mkWorld (w_dirs w) (w_files w ++ [(path, content)]) (w_log w)).

Definition print (line : string) : M unit :=
  fun w => (Ok tt, mkWorld (w_dirs w) (w_files w) (w_log w ++ [line])).

(** The three outputs of one frame: lines 107-111 and 122-124. *)
Definition save_three (data : frame) (csv_p json_p html_p : string) : M unit :=
  write_file csv_p (to_csv data) ;;
  write_file json_p (save_as_json data) ;;
  write_file html_p (save_as_html data).

Definition country_paths (folder country : string) : string * string * string :=
  (py_path_join folder (country ++ "_data.csv"),
   py_path_join folder (country ++ "_data.json"),
   py_path_join folder (country ++ "_data.html"))%string.

(** Lines 101-113 for one [(country, data)] item. *)
Definition save_country (intermediate_folder : string) (item : string * frame) : M unit :=
  let '(country_csv, country_json, country_html) := country_paths intermediate_folder (fst item) in
  save_three (snd item) country_csv country_json country_html ;;
  print ("Saved country data: " ++ country_csv ++ ", " ++ country_json ++ ", " ++ country_html)%string.

Fixpoint save_countries (intermediate_folder : string) (items : store) : M unit :=
  match items with
  | [] => ret tt
  | item :: rest => save_country intermediate_folder item ;; save_countries intermediate_folder rest
  end.

(** Lines 116-126. *)
Definition save_final (final_output_folder : string) (country_data : store) : M unit :=
  merged_data <- lift (match concat_frames (map snd country_data) with
                       | Some m => Ok m
                       | None => Err (ValueError "No objects to concatenate")
                       end) ;;
  let '(final_csv, final_json, final_html) := country_paths final_output_folder "final_merged" in
  save_three merged_data final_csv final_json final_html ;;
  print ("Final merged data saved to " ++ final_csv ++ ", " ++ final_json ++ ", " ++ final_html)%string.

(** [merge_by_country], given the listing below [input_folder]. *)
Definition merge_by_country (input_tree : list entry)
    (input_folder intermediate_folder final_output_folder : string) : M unit :=
  let csv_files := walk_csv input_folder input_tree in
  country_data <- lift (accumulate read_csv [] csv_files) ;;
  makedirs intermediate_folder ;;
  makedirs final_output_folder ;;
  save_countries intermediate_folder country_data ;;
  save_final final_output_folder country_data.

(** The [__main__] block (lines 128-132): the run on the three fixed
    folders. *)
Definition merge_csv_main (input_tree : list entry) : M unit :=
  merge_by_country input_tree "./spotify_data" "./country_data" "./final_data".

End Run.

(** ** The planned writes *)

Definition three_writes (data : frame) (paths : string * string * string) : list (string * string) :=
  let '(p_csv, p_json, p_html) := paths in
  [(p_csv, to_csv data); (p_json, save_as_json data); (p_html, save_as_html data)].

Definition country_plan (intermediate_folder : string) (d : store) : list (string * string) :=
  flat_map (fun item => three_writes (snd item) (country_paths intermediate_folder (fst item))) d.

Definition final_plan (final_output_folder : string) (d : store) : list (string * string) :=
  match concat_frames (map snd d) with
  | Some m => three_writes m (country_paths final_output_folder "final_merged")
  | None => []
  end.

(** Every file [merge_by_country] means to write, in order, with its
    content: nothing when a read fails. *)
Definition merge_plan (read_csv : string -> option frame) (input_tree : list entry)
    (input_folder intermediate_folder final_output_folder : string) : list (string * string) :=
  match accumulate read_csv [] (walk_csv input_folder input_tree) with
  | Ok d => country_plan intermediate_folder d ++ final_plan final_output_folder d
  | Err _ => []
  end.

(** ** Writes as a prefix of a plan *)

(** [c] writes a prefix of [plan], all of it when it returns normally. *)
Definition writes_prefix {A} (c : M A) (plan : list (string * string)) : Prop :=
  forall w, exists n,
    w_files (snd (c w)) = w_files w ++ firstn n plan /\
    (forall a, fst (c w) = Ok a -> n = length plan).

Lemma writes_prefix_ret {A} (a : A) : writes_prefix (ret a) [].
Proof. intros w. exists 0. simpl. rewrite app_nil_r. split; reflexivity. Qed.

Lemma writes_prefix_lift {A} (r : result py_error A) : writes_prefix (lift r) [].
Proof. intros w. exists 0. simpl. rewrite app_nil_r. split; reflexivity. Qed.

Lemma writes_prefix_print line : writes_prefix (print line) [].
Proof. intros w. exists 0. simpl. rewrite app_nil_r. split; reflexivity. Qed.

Lemma writes_prefix_makedirs can_write d : writes_prefix (makedirs can_write d) [].
Proof.
  intros w. exists 0. unfold makedirs. simpl firstn. rewrite app_nil_r.
  destruct (mem d (w_dirs w)); [split; reflexivity|].
  destruct (mem d (map fst (w_files w))); [split; [reflexivity | discriminate]|].
  destruct (can_write d); split; reflexivity || discriminate.
Qed.

Lemma writes_prefix_write can_write path content :
  writes_prefix (write_file can_write path content) [(path, content)].
Proof.
  intros w. unfold write_file.
  destruct (negb (can_write path)); [exists 0; simpl; rewrite app_nil_r; split; [reflexivity | discriminate]|].
  destruct (negb (mem (py_dirname path) (w_dirs w))); [exists 0; simpl; rewrite app_nil_r; split; [reflexivity | discriminate]|].
  exists 1. split; reflexivity.
Qed.

(** Sequencing concatenates the plans. *)
Lemma writes_prefix_bind {A B} (c : M A) (k : A -> M B) p1 p2 :
  writes_prefix c p1 -> (forall a, writes_prefix (k a) p2) -> writes_prefix (bind c k) (p1 ++ p2).
Proof.
  intros H1 H2 w. destruct (H1 w) as [n1 [E1 F1]]. unfold bind.
  destruct (c w) as [[a|e] w1] eqn:Ec; simpl in *.
  - specialize (F1 a eq_refl). subst n1. destruct (H2 a w1) as [n2 [E2 F2]].
    exists (length p1 + n2). split.
    + rewrite E2, E1, <- app_assoc, firstn_app_2, firstn_all. reflexivity.
    + intros b Hb. rewrite length_app, (F2 b Hb). reflexivity.
  - exists (Nat.min n1 (length p1)). split; [|discriminate].
    rewrite E1, firstn_app. replace (Nat.min n1 (length p1) - length p1) with 0 by lia.
    simpl. rewrite app_nil_r, <- firstn_firstn, firstn_all. reflexivity.
Qed.

Lemma writes_prefix_save_three can_write data a b c :
  writes_prefix (save_three can_write data a b c) (three_writes data (a, b, c)).
Proof.
  unfold save_three, three_writes. change [(a, to_csv data); (b, save_as_json data); (c, save_as_html data)]
    with ([(a, to_csv data)] ++ [(b, save_as_json data)] ++ [(c, save_as_html data)]).
  apply writes_prefix_bind; [apply writes_prefix_write|]. intros _.
  apply writes_prefix_bind; [apply writes_prefix_write|]. intros _. apply writes_prefix_write.
Qed.

Lemma writes_prefix_save_country can_write inter item :
  writes_prefix (save_country can_write inter item)
                (three_writes (snd item) (country_paths inter (fst item))).
Proof.
  unfold save_country. destruct (country_paths inter (fst item)) as [[a b] c].
  rewrite <- (app_nil_r (three_writes _ _)). apply writes_prefix_bind;
    [apply writes_prefix_save_three | intros _; apply writes_prefix_print].
Qed.

Lemma writes_prefix_save_countries can_write inter d :
  writes_prefix (save_countries can_write inter d) (country_plan inter d).
Proof.
  induction d as [|item d IH]; [apply writes_prefix_ret|].
  change (country_plan inter (item :: d))
    with (three_writes (snd item) (country_paths inter (fst item)) ++ country_plan inter d).
  apply writes_prefix_bind; [apply writes_prefix_save_country | intros _; exact IH].
Qed.

Lemma writes_prefix_lift_ok {A B} (a : A) (k : A -> M B) p :
  writes_prefix (k a) p -> writes_prefix (bind (lift (Ok a)) k) p.
Proof. intros H w. exact (H w). Qed.

Lemma writes_prefix_lift_err {A B} (e : py_error) (k : A -> M B) p :
  writes_prefix (bind (lift (Err e)) k) p.
Proof. intros w. exists 0. simpl. rewrite app_nil_r. split; [reflexivity | discriminate]. Qed.

Lemma writes_prefix_save_final can_write fin d :
  writes_prefix (save_final can_write fin d) (final_plan fin d).
Proof.
  unfold save_final, final_plan. destruct (concat_frames (map snd d)) as [m|];
    [apply writes_prefix_lift_ok | apply writes_prefix_lift_err].
  destruct (country_paths fin "final_merged") as [[a b] c].
  rewrite <- (app_nil_r (three_writes _ _)). apply writes_prefix_bind;
    [apply writes_prefix_save_three | intros _; apply writes_prefix_print].
Qed.

(** ** Properties of a run *)

(** C3. Whatever the input, the writability of the outputs and the
    initial world, a run of [merge_by_country] writes a prefix of its
    plan (the three files of each country in first-seen order, then the
    three merged files), and all of it when it returns normally: there
    is no partial file set other than a prefix, and no write out of
    order. *)
Theorem merge_by_country_prefix read_csv can_write tree inp inter fin :
  writes_prefix (merge_by_country read_csv can_write tree inp inter fin)
                (merge_plan read_csv tree inp inter fin).
Proof.
  unfold merge_by_country, merge_plan.
  destruct (accumulate read_csv [] (walk_csv inp tree)) as [d|e];
    [apply writes_prefix_lift_ok | apply writes_prefix_lift_err].
  change (country_plan inter d ++ final_plan fin d)
    with ([] ++ [] ++ country_plan inter d ++ final_plan fin d).
  apply writes_prefix_bind; [apply writes_prefix_makedirs | intros _].
  apply writes_prefix_bind; [apply writes_prefix_makedirs | intros _].
  apply writes_prefix_bind; [apply writes_prefix_save_countries | intros _].
  apply writes_prefix_save_final.
Qed.


(** ** Runs that complete *)

(** From any world whose directories are [dirs], [c] returns normally,
    keeps the directories and appends [plan] to the writes. *)
Definition ok_from (c : M unit) (dirs : list string) (plan : list (string * string)) : Prop :=
  forall w, w_dirs w = dirs ->
  exists w', c w = (Ok tt, w') /\ w_dirs w' = dirs /\ w_files w' = w_files w ++ plan.

Lemma ok_from_write can_write dirs p c :
  can_write p = true -> mem (py_dirname p) dirs = true ->
  ok_from (write_file can_write p c) dirs [(p, c)].
Proof.
  intros H1 H2 w Hw. unfold write_file. rewrite H1, Hw, H2. simpl.
  eexists. split; [reflexivity|]. split; [reflexivity|]. reflexivity.
Qed.

Lemma ok_from_print dirs line : ok_from (print line) dirs [].
Proof. intros w Hw. eexists. split; [reflexivity|]. simpl. rewrite app_nil_r. auto. Qed.

Lemma ok_from_bind (c : M unit) (k : unit -> M unit) dirs p1 p2 :
  ok_from c dirs p1 -> ok_from (k tt) dirs p2 -> ok_from (bind c k) dirs (p1 ++ p2).
Proof.
  intros H1 H2 w Hw. destruct (H1 w Hw) as [w1 [E1 [D1 F1]]].
  destruct (H2 w1 D1) as [w2 [E2 [D2 F2]]]. exists w2. unfold bind. rewrite E1, E2.
  split; [reflexivity|]. split; [assumption|]. rewrite F2, F1, app_assoc. reflexivity.
Qed.

Lemma country_paths_dirname folder k :
  folder <> EmptyString -> rstrip_char slash folder = folder -> has_char slash k = false ->
  let '(a, b, c) := country_paths folder k in
  py_dirname a = folder /\ py_dirname b = folder /\ py_dirname c = folder.
Proof.
  intros H1 H2 H3. unfold country_paths.
  split; [|split]; apply py_dirname_join; auto; rewrite has_char_app, H3; reflexivity.
Qed.

Lemma ok_from_save_three can_write dirs data a b c :
  (forall p, can_write p = true) ->
  mem (py_dirname a) dirs = true -> mem (py_dirname b) dirs = true -> mem (py_dirname c) dirs = true ->
  ok_from (save_three can_write data a b c) dirs (three_writes data (a, b, c)).
Proof.
  intros Hw Ha Hb Hc. unfold save_three, three_writes.
  change [(a, to_csv data); (b, save_as_json data); (c, save_as_html data)]
    with ([(a, to_csv data)] ++ [(b, save_as_json data)] ++ [(c, save_as_html data)]).
  repeat apply ok_from_bind; apply ok_from_write; auto.
Qed.

Lemma ok_from_save_files can_write dirs folder k data :
  (forall p, can_write p = true) ->
  folder <> EmptyString -> rstrip_char slash folder = folder -> has_char slash k = false ->
  mem folder dirs = true ->
  forall msg : string -> string -> string -> string,
  ok_from (let '(a, b, c) := country_paths folder k in save_three can_write data a b c ;; print (msg a b c))
          dirs (three_writes data (country_paths folder k)).
Proof.
  intros Hw H1 H2 H3 Hd msg. pose proof (country_paths_dirname folder k H1 H2 H3) as Hp.
  destruct (country_paths folder k) as [[a b] c]. destruct Hp as [Ha [Hb Hc]].
  rewrite <- (app_nil_r (three_writes _ _)). apply ok_from_bind; [|apply ok_from_print].
  apply ok_from_save_three; [assumption | rewrite Ha | rewrite Hb | rewrite Hc]; assumption.
Qed.

Lemma ok_from_save_countries can_write dirs inter d :
  (forall p, can_write p = true) ->
  inter <> EmptyString -> rstrip_char slash inter = inter -> mem inter dirs = true ->
  (forall k, In k (map fst d) -> has_char slash k = false) ->
  ok_from (save_countries can_write inter d) dirs (country_plan inter d).
Proof.
  intros Hw H1 H2 Hd Hk. induction d as [|item d IH].
  - intros w Hw'. exists w. simpl. rewrite app_nil_r. auto.
  - change (country_plan inter (item :: d))
      with (three_writes (snd item) (country_paths inter (fst item)) ++ country_plan inter d).
    apply ok_from_bind.
    + apply (ok_from_save_files can_write dirs inter (fst item) (snd item) Hw H1 H2);
        [apply Hk; left; reflexivity | assumption].
    + apply IH. intros k Hin. apply Hk. right. assumption.
Qed.

Lemma ok_from_save_final can_write dirs fin d :
  (forall p, can_write p = true) ->
  fin <> EmptyString -> rstrip_char slash fin = fin -> mem fin dirs = true -> d <> [] ->
  ok_from (save_final can_write fin d) dirs (final_plan fin d).
Proof.
  intros Hw H1 H2 Hd Hne. unfold save_final, final_plan.
  destruct d as [|item d]; [congruence|]. simpl map.
  destruct (concat_frames_some (snd item :: map snd d)) as [m Hm]; [discriminate|].
  rewrite Hm. intros w Hw'.
  exact (ok_from_save_files can_write dirs fin "final_merged" m Hw H1 H2 eq_refl Hd
           (fun a b c => ("Final merged data saved to " ++ a ++ ", " ++ b ++ ", " ++ c)%string) w Hw').
Qed.

Lemma makedirs_ok can_write d w :
  can_write d = true -> ~ In d (map fst (w_files w)) ->
  exists w', makedirs can_write d w = (Ok tt, w') /\ w_files w' = w_files w /\
    mem d (w_dirs w') = true /\ (forall x, mem x (w_dirs w) = true -> mem x (w_dirs w') = true).
Proof.
  intros H1 H2. unfold makedirs. destruct (mem d (w_dirs w)) eqn:E.
  - exists w. auto.
  - rewrite (proj2 (mem_notin d _) H2), H1. eexists. split; [reflexivity|]. simpl.
    split; [reflexivity|]. unfold mem. rewrite !existsb_app. simpl. rewrite String.eqb_refl.
    split; [apply orb_true_r | intros x Hx; rewrite existsb_app, Hx; reflexivity].
Qed.

(** [os.makedirs] succeeds on an existing directory, or on a new path
    that no file occupies. *)
Lemma makedirs_ok_gen can_write d w :
  can_write d = true -> mem d (w_dirs w) = true \/ ~ In d (map fst (w_files w)) ->
  exists w', makedirs can_write d w = (Ok tt, w') /\ w_files w' = w_files w /\
    mem d (w_dirs w') = true /\ (forall x, mem x (w_dirs w) = true -> mem x (w_dirs w') = true).
Proof.
  intros H1 [H2|H2]; [|exact (makedirs_ok can_write d w H1 H2)].
  exists w. unfold makedirs. rewrite H2. auto.
Qed.

Lemma bind_ok {A B} (c : M A) (k : A -> M B) w a w1 :
  c w = (Ok a, w1) -> bind c k w = k a w1.
Proof. intros H. unfold bind. rewrite H. reflexivity. Qed.

Lemma bind_err {A B} (c : M A) (k : A -> M B) w e w1 :
  c w = (Err e, w1) -> bind c k w = (Err e, w1).
Proof. intros H. unfold bind. rewrite H. reflexivity. Qed.

Lemma bind_lift_ok {A B} (a : A) (k : A -> M B) w : bind (lift (Ok a)) k w = k a w.
Proof. reflexivity. Qed.

(** The content a path holds after a run: its last write. *)
Definition file_content (p : string) (w : world) : option string :=
  fold_left (fun acc pc => if String.eqb (fst pc) p then Some (snd pc) else acc) (w_files w) None.

(** Writing a list of files twice leaves each path with the content of
    writing it once. *)
Lemma last_write_eq p (l : list (string * string)) (acc : option string) :
  fold_left (fun acc pc => if String.eqb (fst pc) p then Some (snd pc) else acc) l acc =
  match fold_left (fun acc pc => if String.eqb (fst pc) p then Some (snd pc) else acc) l None with
  | Some c => Some c
  | None => acc
  end.
Proof.
  revert acc. induction l as [|x l IH]; intros acc; simpl; [reflexivity|].
  rewrite (IH (if String.eqb (fst x) p then Some (snd x) else acc)), (IH (if String.eqb (fst x) p then Some (snd x) else None)).
  destruct (fold_left _ l None); [reflexivity|]. destruct (String.eqb (fst x) p); reflexivity.
Qed.

Lemma last_write_twice p (l : list (string * string)) (acc : option string) :
  fold_left (fun acc pc => if String.eqb (fst pc) p then Some (snd pc) else acc) l
    (fold_left (fun acc pc => if String.eqb (fst pc) p then Some (snd pc) else acc) l acc) =
  fold_left (fun acc pc => if String.eqb (fst pc) p then Some (snd pc) else acc) l acc.
Proof.
  rewrite (last_write_eq p l (fold_left _ l acc)), (last_write_eq p l acc).
  destruct (fold_left _ l None); reflexivity.
Qed.

(** The run of C2 from a world where each output folder already exists
    or is not the name of a file. *)
Lemma merge_by_country_ok_gen read_csv can_write tree inp inter fin w0 d :
  accumulate read_csv [] (walk_csv inp tree) = Ok d -> d <> [] ->
  (forall p, can_write p = true) ->
  inter <> EmptyString -> rstrip_char slash inter = inter ->
  fin <> EmptyString -> rstrip_char slash fin = fin ->
  mem inter (w_dirs w0) = true \/ ~ In inter (map fst (w_files w0)) ->
  mem fin (w_dirs w0) = true \/ ~ In fin (map fst (w_files w0)) ->
  let r := merge_by_country read_csv can_write tree inp inter fin w0 in
  fst r = Ok tt /\
  w_files (snd r) = w_files w0 ++ merge_plan read_csv tree inp inter fin /\
  mem inter (w_dirs (snd r)) = true /\ mem fin (w_dirs (snd r)) = true.
Proof.
  intros Hacc Hne Hw Hi1 Hi2 Hf1 Hf2 Hi Hf. cbv zeta.
  unfold merge_by_country, merge_plan. cbv zeta. rewrite Hacc.
  destruct (makedirs_ok_gen can_write inter w0 (Hw inter) Hi) as [w1 [E1 [F1 [M1 K1]]]].
  destruct (makedirs_ok_gen can_write fin w1 (Hw fin)) as [w2 [E2 [F2 [M2 K2]]]];
    [rewrite F1; destruct Hf as [Hf|Hf]; [left; apply K1, Hf | right; exact Hf]|].
  assert (Hkeys : forall k, In k (map fst d) -> has_char slash k = false).
  { intros k Hk. destruct (accumulate_keys_from _ _ _ _ Hacc k Hk) as [[]|[p [_ ->]]].
    apply classify_no_slash. }
  destruct (ok_from_bind (save_countries can_write inter d) (fun _ => save_final can_write fin d) (w_dirs w2) _ _
              (ok_from_save_countries can_write (w_dirs w2) inter d Hw Hi1 Hi2 (K2 _ M1) Hkeys)
              (ok_from_save_final can_write (w_dirs w2) fin d Hw Hf1 Hf2 M2 Hne) w2 eq_refl)
    as [w3 [E3 [D3 F3]]].
  rewrite bind_lift_ok. cbv beta. rewrite (bind_ok _ _ _ _ _ E1), (bind_ok _ _ _ _ _ E2), E3.
  simpl. rewrite F3, F2, F1, D3.
  split; [reflexivity|]. split; [reflexivity|]. split; [apply K2, M1 | exact M2].
Qed.

(** C2. On readable input with at least one CSV file, writable outputs
    and output folders written without trailing slash that are not
    existing files, [merge_by_country] returns normally, both folders
    exist afterwards, and the files written are exactly the plan: for
    each country in first-seen order its CSV, JSON and HTML files under
    the intermediate folder, then the three merged files under the final
    folder. *)
Theorem merge_by_country_ok read_csv can_write tree inp inter fin w0 d :
  accumulate read_csv [] (walk_csv inp tree) = Ok d -> d <> [] ->
  (forall p, can_write p = true) ->
  inter <> EmptyString -> rstrip_char slash inter = inter ->
  fin <> EmptyString -> rstrip_char slash fin = fin ->
  ~ In inter (map fst (w_files w0)) -> ~ In fin (map fst (w_files w0)) ->
  let r := merge_by_country read_csv can_write tree inp inter fin w0 in
  fst r = Ok tt /\
  w_files (snd r) = w_files w0 ++ merge_plan read_csv tree inp inter fin /\
  mem inter (w_dirs (snd r)) = true /\ mem fin (w_dirs (snd r)) = true.
Proof.
  intros Hacc Hne Hw Hi1 Hi2 Hf1 Hf2 Hi Hf.
  exact (merge_by_country_ok_gen read_csv can_write tree inp inter fin w0 d Hacc Hne Hw Hi1 Hi2 Hf1 Hf2
           (or_intror Hi) (or_intror Hf)).
Qed.

(** C32. Running the pipeline a second time against the output folders
    of a first run succeeds (spec section 8: directory creation is
    idempotent): the second run returns normally, writes the same plan
    again, and leaves every path with the content the first run gave
    it. *)
Theorem merge_by_country_rerun read_csv can_write tree inp inter fin w0 d :
  accumulate read_csv [] (walk_csv inp tree) = Ok d -> d <> [] ->
  (forall p, can_write p = true) ->
  inter <> EmptyString -> rstrip_char slash inter = inter ->
  fin <> EmptyString -> rstrip_char slash fin = fin ->
  ~ In inter (map fst (w_files w0)) -> ~ In fin (map fst (w_files w0)) ->
  let w1 := snd (merge_by_country read_csv can_write tree inp inter fin w0) in
  let r2 := merge_by_country read_csv can_write tree inp inter fin w1 in
  fst r2 = Ok tt /\ w_files (snd r2) = w_files w1 ++ merge_plan read_csv tree inp inter fin /\
  forall p, file_content p (snd r2) = file_content p w1.
Proof.
  intros Hacc Hne Hw Hi1 Hi2 Hf1 Hf2 Hi Hf. cbv zeta.
  destruct (merge_by_country_ok_gen read_csv can_write tree inp inter fin w0 d Hacc Hne Hw Hi1 Hi2 Hf1 Hf2
              (or_intror Hi) (or_intror Hf)) as [_ [F1 [M1 N1]]].
  cbv zeta in F1, M1, N1.
  destruct (merge_by_country_ok_gen read_csv can_write tree inp inter fin
              (snd (merge_by_country read_csv can_write tree inp inter fin w0)) d Hacc Hne Hw Hi1 Hi2 Hf1 Hf2
              (or_introl M1) (or_introl N1)) as [E2 [F2 _]].
  split; [exact E2|]. split; [exact F2|].
  intros p. unfold file_content. rewrite F2, fold_left_app, F1, fold_left_app, last_write_twice. reflexivity.
Qed.

(** C9. A tree without any CSV file is not an empty success: both
    folders are created, nothing is written, and the final [pd.concat]
    raises [ValueError('No objects to concatenate')]. *)
Theorem merge_by_country_no_csv read_csv can_write tree inp inter fin w0 :
  walk_csv inp tree = [] ->
  can_write inter = true -> can_write fin = true ->
  ~ In inter (map fst (w_files w0)) -> ~ In fin (map fst (w_files w0)) ->
  let r := merge_by_country read_csv can_write tree inp inter fin w0 in
  fst r = Err (ValueError "No objects to concatenate") /\ w_files (snd r) = w_files w0 /\
  mem inter (w_dirs (snd r)) = true /\ mem fin (w_dirs (snd r)) = true.
Proof.
  intros Hwalk Hci Hcf Hi Hf. cbv zeta. unfold merge_by_country. cbv zeta. rewrite Hwalk.
  destruct (makedirs_ok can_write inter w0 Hci Hi) as [w1 [E1 [F1 [M1 _]]]].
  destruct (makedirs_ok can_write fin w1 Hcf) as [w2 [E2 [F2 [M2 K2]]]]; [rewrite F1; exact Hf|].
  simpl accumulate. rewrite bind_lift_ok. cbv beta.
  rewrite (bind_ok _ _ _ _ _ E1), (bind_ok _ _ _ _ _ E2). simpl.
  rewrite F2, F1. split; [reflexivity|]. split; [reflexivity|]. split; [apply K2, M1 | exact M2].
Qed.

(** C16. [os.makedirs(d, exist_ok=True)] is idempotent: creating the
    same directory twice in a row behaves as creating it once, whatever
    the world and the permissions. *)
Theorem makedirs_idempotent can_write d w :
  bind (makedirs can_write d) (fun _ => makedirs can_write d) w = makedirs can_write d w.
Proof.
  unfold bind, makedirs. destruct (mem d (w_dirs w)) eqn:E; [rewrite E; reflexivity|].
  destruct (mem d (map fst (w_files w))); [reflexivity|].
  destruct (can_write d); [|reflexivity]. simpl. unfold mem. rewrite existsb_app. simpl.
  rewrite String.eqb_refl, orb_true_r. reflexivity.
Qed.


(** ** The spec's end-to-end scenario *)

Definition sample_tree : list entry :=
  [EFile "regional-au-weekly-2023-06-15.csv"; EFile "README.md";
   EFile "regional-us-weekly-2023-06-15.csv"].

Definition empty_world : world := mkWorld ["."] [] [].

(** The script's [__main__] block run on the spec's two files. *)
Definition scenario : result py_error unit * world :=
  merge_csv_main sample_read (fun _ => true) sample_tree empty_world.

Definition read_back (p : string) (w : world) : option (list (list string)) :=
  match file_content p w with Some c => read_csv_text c | None => None end.

(** A test of the model on the end-to-end scenario of the spec, run by
    [vm_compute]: from [regional-au-...csv]
    (3 rows) and [regional-us-...csv] (5 rows) with columns [track] and
    [streams], the run succeeds, writes [AU_data.*], [US_data.*] and
    [final_merged_data.*] in that order, and the CSV files read back with
    3, 5 and 8 records carrying the injected country column, AU before US
    in the merged file. *)
Example scenario_end_to_end :
  fst scenario = Ok tt /\
  map fst (w_files (snd scenario)) =
    ["./country_data/AU_data.csv"; "./country_data/AU_data.json"; "./country_data/AU_data.html";
     "./country_data/US_data.csv"; "./country_data/US_data.json"; "./country_data/US_data.html";
     "./final_data/final_merged_data.csv"; "./final_data/final_merged_data.json";
     "./final_data/final_merged_data.html"] /\
  read_back "./country_data/AU_data.csv" (snd scenario) =
    Some [["track"; "streams"; "country"];
          ["a1"; "300"; "AU"]; ["a2"; "200"; "AU"]; ["a3"; "100"; "AU"]] /\
  option_map (fun rs => map (fun r => nth 2 r EmptyString) rs)
    (read_back "./final_data/final_merged_data.csv" (snd scenario)) =
    Some ["country"; "AU"; "AU"; "AU"; "US"; "US"; "US"; "US"; "US"].
Proof. vm_compute. repeat split; reflexivity. Qed.

Lemma merge_by_country_ok_witness :
  accumulate sample_read [] (walk_csv "./spotify_data" sample_tree) = Ok sample_store /\
  fst scenario = Ok tt /\
  w_files (snd scenario) =
    w_files empty_world ++ merge_plan sample_read sample_tree "./spotify_data" "./country_data" "./final_data".
Proof.
  assert (Hacc : accumulate sample_read [] (walk_csv "./spotify_data" sample_tree) = Ok sample_store)
    by (vm_compute; reflexivity).
  split; [exact Hacc|].
  destruct (merge_by_country_ok sample_read (fun _ => true) sample_tree "./spotify_data" "./country_data"
              "./final_data" empty_world sample_store Hacc ltac:(vm_compute; discriminate)
              (fun _ => eq_refl) ltac:(discriminate) eq_refl ltac:(discriminate) eq_refl
              (fun H => H) (fun H => H)) as [H1 [H2 _]].
  split; assumption.
Defined.

Lemma merge_by_country_rerun_witness :
  fst (merge_by_country sample_read (fun _ => true) sample_tree "./spotify_data" "./country_data" "./final_data"
         (snd scenario)) = Ok tt.
Proof.
  assert (Hacc : accumulate sample_read [] (walk_csv "./spotify_data" sample_tree) = Ok sample_store)
    by (vm_compute; reflexivity).
  exact (proj1 (merge_by_country_rerun sample_read (fun _ => true) sample_tree "./spotify_data" "./country_data"
              "./final_data" empty_world sample_store Hacc ltac:(vm_compute; discriminate)
              (fun _ => eq_refl) ltac:(discriminate) eq_refl ltac:(discriminate) eq_refl
              (fun H => H) (fun H => H))).
Defined.

Lemma merge_by_country_no_csv_witness :
  walk_csv "./spotify_data" [EFile "README.md"] = [] /\
  fst (merge_by_country sample_read (fun _ => true) [EFile "README.md"]
         "./spotify_data" "./country_data" "./final_data" empty_world) =
    Err (ValueError "No objects to concatenate").
Proof.
  assert (Hw : walk_csv "./spotify_data" [EFile "README.md"] = []) by reflexivity.
  split; [exact Hw|].
  exact (proj1 (merge_by_country_no_csv sample_read (fun _ => true) [EFile "README.md"] "./spotify_data"
                  "./country_data" "./final_data" empty_world Hw eq_refl eq_refl (fun H => H) (fun H => H))).
Defined.

End Orchestrator.
