(* ===== verification/TopItems.v ===== *)
(** The table arithmetic of section 3 of [analyze_and_visualize_insights]
    ([src/insight_analysis.py], lines 76-82):

    [top_items = combined_df.groupby('Name')['streams'].sum().nlargest(10).index]
    [filtered_df = combined_df[combined_df['Name'].isin(top_items)]]
    [for i, (name, group) in enumerate(filtered_df.groupby('Name')): plt.plot(...)]

    pandas' [groupby] drops missing keys, sorts the distinct keys with
    [safe_sort] (numbers before strings, strings by code point, which on
    UTF-8 bytes is byte order) and sums each group skipping [NaN];
    [Series.nlargest(n, keep='first')] is a stable descending sort cut to
    [n] (numpy's mergesort on the negated values); [isin] is membership;
    the second [groupby] yields each key with its rows in their order.

    The theorems: the selection has [min 10 (number of names)] distinct
    names, every selected name has a total at least that of every name
    left out, and a tie is resolved for the name that sorts first; the
    plotted lines are one per selected name, in key order, each with
    exactly that name's rows in their order. *)

From Stdlib Require Import ZArith QArith.
From S2P Require Import Prelude Frame.
From stdpp Require Import base list sorting.
Import Frame.

Module TopItems.

(** ** Keys and their order *)

#[export] Instance cell_eq_decision : EqDecision cell := cell_eq_dec.

(** [safe_sort]'s order on the keys of a group-by: integers by value,
    then strings in code-point order.  A missing key is never compared
    (it is dropped first); it is put first to make the order total. *)
Definition key_leb (a b : cell) : bool :=
  match a, b with
  | CNull, _ => true
  | _, CNull => false
  | CInt x, CInt y => Z.leb x y
  | CInt _, CStr _ => true
  | CStr _, CInt _ => false
  | CStr s, CStr t => String.leb s t
  end.

Definition key_le (a b : cell) : Prop := key_leb a b = true.

#[export] Instance key_le_dec : RelDecision key_le :=
  fun a b => decide (key_leb a b = true).

Definition is_key (c : cell) : bool := match c with CNull => false | _ => true end.

(** The sorted distinct non-missing keys of a column. *)
Definition group_keys (names : list cell) : list cell :=
  merge_sort key_le (remove_dups (List.filter is_key names)).

(** ** [df[col]] *)

(** [df[col]]: the column's cells, [KeyError] when it is absent. *)
Definition column (df : frame) (c : string) : result py_error (list cell) :=
  if mem c (columns df) then Ok (map (lookup_cell c (columns df)) (rows df))
  else Err (KeyError c).

(** ** [groupby(key)[val].sum()] *)

(** A column that holds a string has dtype [object]: the group sums are
    then objects and [nlargest] refuses them with [TypeError]. *)
Definition numeric (vals : list cell) : bool :=
  forallb (fun v => match v with CStr _ => false | _ => true end) vals.

(** The sum of one group, [NaN] skipped ([min_count=0]: an all-missing
    group sums to 0). *)
Definition cell_z (v : cell) : Z := match v with CInt z => z | _ => 0%Z end.

Definition group_sum (names vals : list cell) (k : cell) : Z :=
  fold_right Z.add 0%Z
    (map (fun nv => cell_z (snd nv)) (List.filter (fun nv => bool_decide (fst nv = k)) (combine names vals))).

(** The Series [groupby(key)[val].sum()], index in key order. *)
Definition group_sums (names vals : list cell) : list (cell * Z) :=
  map (fun k => (k, group_sum names vals k)) (group_keys names).

(** ** [Series.nlargest(n, keep='first')] *)

(** Insert [x] after every entry whose value is at least [x]'s: the
    insertion sort that keeps equal values in their order. *)
Fixpoint insert_desc (x : cell * Z) (l : list (cell * Z)) : list (cell * Z) :=
  match l with
  | [] => [x]
  | y :: l' => if Z.ltb (snd y) (snd x) then x :: l else y :: insert_desc x l'
  end.

Definition sort_desc (s : list (cell * Z)) : list (cell * Z) :=
  fold_left (fun acc x => insert_desc x acc) s [].

Definition nlargest (n : nat) (s : list (cell * Z)) : list (cell * Z) :=
  firstn n (sort_desc s).

(** [top_items]: the index of the ten largest group sums. *)
Definition top_items (names vals : list cell) : result py_error (list cell) :=
  if numeric vals then Ok (map fst (nlargest 10 (group_sums names vals)))
  else Err (TypeError "Cannot use method 'nlargest' with dtype object").

(** ** [isin] and the second [groupby] *)

Definition isin (top : list cell) (c : cell) : bool := bool_decide (c ∈ top).

(** The rows of a frame whose key cell is in [top], in their order. *)
Definition filter_rows (keycol : string) (top : list cell) (df : frame) : frame :=
  mkFrame (columns df) (List.filter (fun r => isin top (lookup_cell keycol (columns df) r)) (rows df)).

(** [df.groupby(key)]: each key with the frame of its rows. *)
Definition groups (keycol : string) (df : frame) : list (cell * frame) :=
  map (fun k => (k, mkFrame (columns df)
                        (List.filter (fun r => bool_decide (lookup_cell keycol (columns df) r = k)) (rows df))))
      (group_keys (map (lookup_cell keycol (columns df)) (rows df))).

(** ** The plotted lines *)

(** [streams / 1e6]: a count in millions, [None] for [NaN]. *)
Definition millions (v : cell) : result py_error (option Q) :=
  match v with
  | CNull => Ok None
  | CInt z => Ok (Some (Qmake z 1000000))
  | CStr _ => Err (TypeError "unsupported operand type(s) for /: 'str' and 'float'")
  end.

Fixpoint map_result {A B E} (f : A -> result E B) (l : list A) : result E (list B) :=
  match l with
  | [] => Ok []
  | x :: l' => match f x with
               | Ok y => match map_result f l' with Ok ys => Ok (y :: ys) | Err e => Err e end
               | Err e => Err e
               end
  end.

(** ** Matplotlib's x-axis units *)

(** The converter an axis holds: none (numbers) or the category
    converter of [matplotlib.category] (strings). *)
Inductive xunits : Type := NoUnits | Category.

Definition is_str (c : cell) : bool := match c with CStr _ => true | _ => false end.

(** [munits.registry.get_converter(x)]: chosen by the type of the first
    finite value ([cbook._safe_first_finite] skips [NaN]). *)
Definition get_converter (xs : list cell) : xunits :=
  match List.find (fun c => match c with CNull => false | _ => true end) xs with
  | Some (CStr _) => Category
  | _ => NoUnits
  end.

(** [Axis.update_units(x)] then [convert_xunits(x)] in a [bar] or [plot]
    call.  String data gives the axis the category converter, which it
    keeps; a categorical axis checks every value with
    [_api.check_isinstance((str, bytes), value=val)] in [UnitData.update],
    so a [NaN] or a number among the strings raises [TypeError].  An axis
    without units takes numbers; a string there (a column mixing numbers
    and strings, which [read_csv] does not produce) makes the call raise
    [numeric_err]. *)
Definition axis_convert (numeric_err : py_error) (ax : xunits) (xs : list cell) : result py_error xunits :=
  match get_converter xs, ax with
  | NoUnits, NoUnits => if existsb is_str xs then Err numeric_err else Ok NoUnits
  | _, _ => if forallb is_str xs then Ok Category
            else Err (TypeError "'value' must be an instance of str or bytes")
  end.

(** A column the category axis takes whole: all strings, or none. *)
Definition str_column (xs : list cell) : bool := forallb is_str xs || numeric xs.

(** One call [plt.plot(group['Month'], group['streams'] / 1e6,
    label=name, marker='o', color=colors(i))]. *)
Record line := mkLine {
  line_color : nat;
  line_label : cell;
  line_x : list cell;
  line_y : list (option Q)
}.

Open Scope merge_scope.

(** [Line2D] converts the data to floats when [plot] adds the line. *)
Definition plot_numeric_err : py_error := ValueError "could not convert string to float".

(** The arguments are evaluated first, then [plot] converts the x data
    on the axis of the figure, whose units the earlier calls set. *)
Definition plot_group (ax : xunits) (i : nat) (g : cell * frame) : result py_error (xunits * line) :=
  let* months := column (snd g) "Month" in
  let* streams := column (snd g) "streams" in
  let* ys := map_result millions streams in
  let* ax' := axis_convert plot_numeric_err ax months in
  Ok (ax', mkLine i (fst g) months ys).

Fixpoint plot_groups (ax : xunits) (i : nat) (gs : list (cell * frame)) : result py_error (list line) :=
  match gs with
  | [] => Ok []
  | g :: gs' =>
      let* al := plot_group ax i g in
      let* ls := plot_groups (fst al) (S i) gs' in
      Ok (snd al :: ls)
  end.

(** Lines 77-82: the lines drawn from [combined_df]. *)
Definition trend_lines (combined_df : frame) : result py_error (list line) :=
  let* names := column combined_df "Name" in
  let* streams := column combined_df "streams" in
  let* top := top_items names streams in
  plot_groups NoUnits 0 (groups "Name" (filter_rows "Name" top combined_df)).

(** ** The stable descending sort *)

Definition desc (x y : cell * Z) : Prop := (snd y <= snd x)%Z.

#[export] Instance desc_trans : Transitive desc.
Proof. intros x y z; unfold desc; lia. Qed.

Definition has_value (v : Z) (e : cell * Z) : bool := bool_decide (snd e = v).

Lemma insert_desc_perm x l : insert_desc x l ≡ₚ x :: l.
Proof.
  induction l as [|y l IH]; simpl; [done|].
  destruct (Z.ltb (snd y) (snd x)); [done|].
  rewrite IH. apply Permutation_swap.
Qed.

Lemma sort_desc_perm_gen s acc :
  fold_left (fun acc x => insert_desc x acc) s acc ≡ₚ acc ++ s.
Proof.
  revert acc. induction s as [|x s IH]; intros acc; simpl; [by rewrite app_nil_r|].
  rewrite IH, insert_desc_perm. by rewrite <- Permutation_middle.
Qed.

Lemma sort_desc_perm s : sort_desc s ≡ₚ s.
Proof. apply sort_desc_perm_gen. Qed.

Lemma insert_desc_sorted x l : Sorted desc l -> Sorted desc (insert_desc x l).
Proof.
  induction 1 as [|y l Hl IH Hhd]; simpl; [repeat constructor|].
  destruct (Z.ltb_spec (snd y) (snd x)).
  - constructor; [by constructor|]. constructor. unfold desc. lia.
  - constructor; [exact IH|]. destruct l as [|z l]; simpl.
    + constructor. unfold desc. lia.
    + inversion Hhd; subst. destruct (Z.ltb (snd z) (snd x)); constructor; unfold desc in *; lia.
Qed.

Lemma sort_desc_sorted_gen s acc :
  Sorted desc acc -> Sorted desc (fold_left (fun acc x => insert_desc x acc) s acc).
Proof.
  revert acc. induction s as [|x s IH]; intros acc H; simpl; [done|].
  apply IH, insert_desc_sorted, H.
Qed.

Lemma sort_desc_sorted s : Sorted desc (sort_desc s).
Proof. apply sort_desc_sorted_gen. constructor. Qed.

(** In a list sorted downwards, nothing after the head exceeds it. *)
Lemma sorted_desc_below y l : Sorted desc (y :: l) -> Forall (fun z => (snd z <= snd y)%Z) l.
Proof.
  intros H. apply Sorted_StronglySorted in H; [|apply _]. inversion H; subst. done.
Qed.

(** Inserting [x] puts it after every entry of the same value. *)
Lemma filter_insert_desc v x l :
  Sorted desc l ->
  List.filter (has_value v) (insert_desc x l) = List.filter (has_value v) l ++ List.filter (has_value v) [x].
Proof.
  induction l as [|y l IH]; intros Hs; [done|]. cbn [insert_desc].
  destruct (Z.ltb_spec (snd y) (snd x)) as [Hlt|Hge].
  - pose proof (sorted_desc_below y l Hs) as Hb.
    change (List.filter (has_value v) (x :: y :: l)) with
      (if has_value v x then x :: List.filter (has_value v) (y :: l) else List.filter (has_value v) (y :: l)).
    change (List.filter (has_value v) [x]) with (if has_value v x then [x] else []).
    destruct (has_value v x) eqn:Hx; [|by rewrite app_nil_r].
    unfold has_value in Hx. apply bool_decide_eq_true_1 in Hx.
    rewrite (filter_none (has_value v) (y :: l)); [done|].
    intros z [<-|Hz]; unfold has_value; apply bool_decide_eq_false_2; [lia|].
    rewrite Forall_forall in Hb. specialize (Hb z (proj2 (list_elem_of_In _ _) Hz)). lia.
  - apply Sorted_inv in Hs as [Hs _]. cbn [List.filter]. rewrite IH by done.
    destruct (has_value v y); done.
Qed.

(** Stability: the entries of each value keep their relative order. *)
Lemma sort_desc_stable_gen v s acc :
  Sorted desc acc ->
  List.filter (has_value v) (fold_left (fun acc x => insert_desc x acc) s acc) =
  List.filter (has_value v) acc ++ List.filter (has_value v) s.
Proof.
  revert acc. induction s as [|x s IH]; intros acc Hs; simpl; [by rewrite app_nil_r|].
  rewrite IH by (apply insert_desc_sorted, Hs). rewrite filter_insert_desc by done.
  rewrite <- app_assoc. f_equal. cbn [List.filter app].
  destruct (has_value v x); done.
Qed.

Lemma sort_desc_stable v s : List.filter (has_value v) (sort_desc s) = List.filter (has_value v) s.
Proof. unfold sort_desc. rewrite sort_desc_stable_gen by constructor. done. Qed.

Lemma sort_desc_ssorted s : StronglySorted desc (sort_desc s).
Proof. apply Sorted_StronglySorted; [apply _ | apply sort_desc_sorted]. Qed.

(** What [nlargest] leaves out is the rest of the sorted list. *)
Lemma nlargest_left_out n s y :
  y ∈ s -> y ∉ nlargest n s -> y ∈ drop n (sort_desc s).
Proof.
  intros Hy Hn. rewrite <- sort_desc_perm, <- (take_drop n (sort_desc s)) in Hy.
  apply elem_of_app in Hy as [Hy|Hy]; [contradiction|exact Hy].
Qed.

Lemma nlargest_length n s : length (nlargest n s) = min n (length s).
Proof. unfold nlargest. by rewrite length_take, sort_desc_perm. Qed.

Lemma nlargest_submseteq n s : nlargest n s ⊆+ s.
Proof. etrans; [apply sublist_submseteq, sublist_take | by rewrite sort_desc_perm]. Qed.

Lemma nlargest_dominates n s x y :
  x ∈ nlargest n s -> y ∈ s -> y ∉ nlargest n s -> (snd y <= snd x)%Z.
Proof.
  intros Hx Hy Hn. pose proof (sort_desc_ssorted s) as Hss.
  rewrite <- (take_drop n (sort_desc s)) in Hss.
  apply (StronglySorted_app_1_elem_of desc _ _ x y Hss Hx). by apply nlargest_left_out.
Qed.

Lemma nlargest_ties n s v :
  exists k, List.filter (has_value v) (nlargest n s) = take k (List.filter (has_value v) s).
Proof.
  destruct (filter_firstn_prefix (has_value v) n (sort_desc s)) as [k Hk].
  exists k. unfold nlargest. by rewrite Hk, sort_desc_stable.
Qed.

(** ** The key order *)

#[export] Instance key_le_total : Total key_le.
Proof.
  intros [|x|s] [|y|t]; unfold key_le; simpl; auto.
  - destruct (Z.leb_spec x y); [left | right; apply Z.leb_le]; auto; lia.
  - apply String.leb_total.
Qed.

#[export] Instance key_le_trans : Transitive key_le.
Proof.
  intros [|x|s] [|y|t] [|z|u]; unfold key_le; simpl; try discriminate; auto.
  - rewrite !Z.leb_le. lia.
  - apply string_leb_trans.
Qed.

#[export] Instance key_le_antisymm : AntiSymm (=) key_le.
Proof.
  intros [|x|s] [|y|t]; unfold key_le; simpl; try discriminate; auto.
  - rewrite !Z.leb_le. intros; f_equal; lia.
  - intros H1 H2. f_equal. apply String.leb_antisym; assumption.
Qed.

Definition by_key (x y : cell * Z) : Prop := key_le (fst x) (fst y).

Lemma StronglySorted_filter_bool {A} (R : relation A) (P : A -> bool) l :
  StronglySorted R l -> StronglySorted R (List.filter P l).
Proof.
  induction 1 as [|x l Hl IH Hx]; simpl; [constructor|].
  destruct (P x); [|exact IH]. constructor; [exact IH|].
  rewrite Forall_forall in *. intros y Hy. apply list_elem_of_In, filter_In in Hy as [Hy _].
  apply Hx, list_elem_of_In, Hy.
Qed.

Lemma StronglySorted_map_pair (g : cell -> Z) l :
  StronglySorted key_le l -> StronglySorted by_key (map (fun k => (k, g k)) l).
Proof.
  induction 1 as [|x l Hl IH Hx]; simpl; constructor; [exact IH|].
  apply Forall_map. eapply Forall_impl; [exact Hx|]. intros y Hy. exact Hy.
Qed.

(** ** The group keys and the group sums *)

Lemma group_keys_NoDup names : NoDup (group_keys names).
Proof. unfold group_keys. rewrite merge_sort_Permutation. apply NoDup_remove_dups. Qed.

Lemma elem_of_group_keys names k : k ∈ group_keys names <-> k ∈ names /\ is_key k = true.
Proof.
  unfold group_keys. rewrite merge_sort_Permutation, elem_of_remove_dups, !list_elem_of_In.
  apply filter_In.
Qed.

Lemma group_keys_sorted names : StronglySorted key_le (group_keys names).
Proof. apply Sorted_StronglySorted; [apply _ | apply Sorted_merge_sort, _]. Qed.

Lemma group_sums_fst names vals : map fst (group_sums names vals) = group_keys names.
Proof. unfold group_sums. rewrite map_map. apply map_id. Qed.

Lemma elem_of_group_sums names vals k v :
  (k, v) ∈ group_sums names vals <-> k ∈ group_keys names /\ v = group_sum names vals k.
Proof.
  unfold group_sums. rewrite !list_elem_of_In, in_map_iff. split.
  - intros [k' [[= -> ->] Hk]]. done.
  - intros [Hk ->]. exists k. done.
Qed.

Lemma top_items_ok names vals :
  numeric vals = true -> top_items names vals = Ok (map fst (nlargest 10 (group_sums names vals))).
Proof. intros H. unfold top_items. by rewrite H. Qed.

Lemma top_NoDup names vals : NoDup (map fst (nlargest 10 (group_sums names vals))).
Proof.
  unfold nlargest. rewrite <- firstn_map. eapply sublist_NoDup; [|apply sublist_take].
  assert (Hp : map fst (sort_desc (group_sums names vals)) ≡ₚ group_keys names).
  { rewrite <- (group_sums_fst names vals). apply Permutation_map, sort_desc_perm. }
  rewrite Hp. apply group_keys_NoDup.
Qed.

Lemma elem_of_top names vals k :
  k ∈ map fst (nlargest 10 (group_sums names vals)) ->
  (k, group_sum names vals k) ∈ nlargest 10 (group_sums names vals) /\ k ∈ group_keys names.
Proof.
  intros Hk. apply list_elem_of_In, in_map_iff in Hk as [[k' v] [<- Hin]]. simpl.
  apply list_elem_of_In in Hin.
  pose proof (elem_of_submseteq _ _ _ Hin (nlargest_submseteq 10 _)) as Hs.
  apply elem_of_group_sums in Hs as [Hk ->]. done.
Qed.

Lemma not_elem_of_top names vals k :
  k ∉ map fst (nlargest 10 (group_sums names vals)) ->
  (k, group_sum names vals k) ∉ nlargest 10 (group_sums names vals).
Proof. intros Hk Hin. apply Hk, list_elem_of_In, in_map_iff. exists (k, group_sum names vals k).
  split; [done|]. by apply list_elem_of_In. Qed.

(** The tie rule on keys: a kept key sorts before a left-out key of the same total. *)
Lemma top_tie names vals k k' :
  k ∈ map fst (nlargest 10 (group_sums names vals)) -> k' ∈ group_keys names ->
  k' ∉ map fst (nlargest 10 (group_sums names vals)) ->
  group_sum names vals k' = group_sum names vals k -> key_le k k'.
Proof.
  intros Hk Hk' Hn Heq. apply elem_of_top in Hk as [Hin _]. apply not_elem_of_top in Hn.
  set (s := group_sums names vals) in *. set (v := group_sum names vals k) in *.
  destruct (nlargest_ties 10 s v) as [j Hj].
  set (F := List.filter (has_value v) s) in *.
  assert (HF : StronglySorted by_key F).
  { apply StronglySorted_filter_bool, StronglySorted_map_pair, group_keys_sorted. }
  rewrite <- (take_drop j F) in HF.
  assert (Hx : (k, v) ∈ take j F).
  { rewrite <- Hj. apply list_elem_of_In, filter_In. split; [by apply list_elem_of_In|].
    unfold has_value. by apply bool_decide_eq_true_2. }
  assert (Hy : (k', v) ∈ drop j F).
  { assert (HyF : (k', v) ∈ F).
    { apply list_elem_of_In, filter_In.
      split; [apply list_elem_of_In, elem_of_group_sums; split; [exact Hk' | symmetry; exact Heq]|].
      unfold has_value. by apply bool_decide_eq_true_2. }
    rewrite <- (take_drop j F) in HyF. apply elem_of_app in HyF as [HyF|HyF]; [|exact HyF].
    exfalso. apply Hn. rewrite Heq. rewrite <- Hj in HyF.
    apply list_elem_of_In, filter_In in HyF as [HyF _]. by apply list_elem_of_In. }
  exact (StronglySorted_app_1_elem_of by_key _ _ _ _ HF Hx Hy).
Qed.

(** ** The second group-by and the plotted lines *)

(** The rows of [df] whose [Name] is [k], in order. *)
Definition rows_named (df : frame) (k : cell) : list (list cell) :=
  List.filter (fun r => bool_decide (lookup_cell "Name" (columns df) r = k)) (rows df).

Lemma merge_sort_perm_eq l1 l2 : l1 ≡ₚ l2 -> merge_sort key_le l1 = merge_sort key_le l2.
Proof.
  intros Hp. apply (Sorted_unique key_le); [apply Sorted_merge_sort, _ | apply Sorted_merge_sort, _|].
  by rewrite !merge_sort_Permutation.
Qed.

Lemma column_ok df c cs : column df c = Ok cs -> mem c (columns df) = true /\ cs = map (lookup_cell c (columns df)) (rows df).
Proof. unfold column. destruct (mem c (columns df)); [intros [= <-]; done | discriminate]. Qed.

Lemma forallb_map_filter (p : cell -> bool) (f : list cell -> cell) P l :
  forallb p (map f l) = true -> forallb p (map f (List.filter P l)) = true.
Proof.
  induction l as [|x l IH]; simpl; [done|].
  intros [Hx Hl]%andb_prop. destruct (P x); simpl; rewrite ?Hx; auto.
Qed.

Lemma numeric_filter (f : list cell -> cell) P l :
  numeric (map f l) = true -> numeric (map f (List.filter P l)) = true.
Proof. apply forallb_map_filter. Qed.

Lemma map_result_millions vs : numeric vs = true -> exists ys, map_result millions vs = Ok ys.
Proof.
  unfold numeric. induction vs as [|[|z|t] vs IH]; simpl; intros H; try discriminate; [by exists []| |];
    destruct (IH H) as [ys ->]; eexists; reflexivity.
Qed.

Lemma numeric_existsb xs : numeric xs = negb (existsb is_str xs).
Proof. induction xs as [|[| |] xs IH]; simpl; auto. Qed.

(** A string column has its category converter from its first value. *)
Lemma get_converter_str xs : forallb is_str xs = true -> get_converter xs = NoUnits -> xs = [].
Proof. unfold get_converter. destruct xs as [|[| |t] xs]; simpl; intros H1 H2; congruence. Qed.

Lemma get_converter_numeric xs : numeric xs = true -> get_converter xs = NoUnits.
Proof.
  unfold get_converter. induction xs as [|[| |t] xs IH]; simpl; intros H; try discriminate; auto.
Qed.

Lemma axis_convert_str e ax xs : forallb is_str xs = true -> exists ax', axis_convert e ax xs = Ok ax'.
Proof.
  intros H. unfold axis_convert. destruct (get_converter xs) eqn:G, ax; rewrite ?H; try by eexists.
  apply get_converter_str in G; [subst xs; by eexists | exact H].
Qed.

Lemma axis_convert_numeric e xs : numeric xs = true -> axis_convert e NoUnits xs = Ok NoUnits.
Proof.
  intros H. unfold axis_convert. rewrite get_converter_numeric by exact H.
  rewrite numeric_existsb in H. apply negb_true_iff in H. rewrite H. reflexivity.
Qed.

Lemma plot_group_inv ax j g ax' l :
  plot_group ax j g = Ok (ax', l) ->
  line_color l = j /\ line_label l = fst g /\
  line_x l = map (lookup_cell "Month" (columns (snd g))) (rows (snd g)) /\
  map_result millions (map (lookup_cell "streams" (columns (snd g))) (rows (snd g))) = Ok (line_y l).
Proof.
  unfold plot_group, column.
  destruct (mem "Month" (columns (snd g))); [|discriminate]. destruct (mem "streams" (columns (snd g))); [|discriminate].
  simpl. destruct (map_result millions _) as [ys|]; [|discriminate]. simpl.
  destruct (axis_convert _ _ _); [|discriminate]. intros [= <- <-]. done.
Qed.

Definition plottable (g : cell * frame) : Prop :=
  mem "Month" (columns (snd g)) = true /\ mem "streams" (columns (snd g)) = true /\
  numeric (map (lookup_cell "streams" (columns (snd g))) (rows (snd g))) = true.

Definition months_of (g : cell * frame) : list cell :=
  map (lookup_cell "Month" (columns (snd g))) (rows (snd g)).

(** The x data of the groups fit the axis: all strings, or no string on
    an axis without units. *)
Definition axis_clean (ax : xunits) (gs : list (cell * frame)) : Prop :=
  Forall (fun g => forallb is_str (months_of g) = true) gs \/
  (Forall (fun g => numeric (months_of g) = true) gs /\ ax = NoUnits).

Lemma plot_group_ok ax j g :
  plottable g -> forallb is_str (months_of g) = true \/ (numeric (months_of g) = true /\ ax = NoUnits) ->
  exists ax' l, plot_group ax j g = Ok (ax', l) /\ (numeric (months_of g) = true /\ ax = NoUnits -> ax' = NoUnits).
Proof.
  intros (H1 & H2 & H3) Hx. destruct (map_result_millions _ H3) as [ys E].
  unfold plot_group, column. rewrite H1, H2. simpl. rewrite E. simpl. fold (months_of g).
  destruct Hx as [Hs | [Hn ->]].
  - destruct (axis_convert_str plot_numeric_err ax _ Hs) as [ax' Ea]. rewrite Ea.
    exists ax', (mkLine j (fst g) (months_of g) ys). split; [reflexivity|].
    intros [Hn ->]. rewrite axis_convert_numeric in Ea by exact Hn. congruence.
  - rewrite axis_convert_numeric by exact Hn. do 2 eexists. split; [reflexivity|]. done.
Qed.

Lemma plot_groups_ok ax i gs :
  (forall g, g ∈ gs -> plottable g) -> axis_clean ax gs ->
  exists ls, plot_groups ax i gs = Ok ls /\ length ls = length gs /\
    forall j l g, ls !! j = Some l -> gs !! j = Some g -> exists a a', plot_group a (i + j) g = Ok (a', l).
Proof.
  revert ax i. induction gs as [|g gs IH]; intros ax i Hp Hc; simpl; [by exists []|].
  assert (Hg : forallb is_str (months_of g) = true \/ (numeric (months_of g) = true /\ ax = NoUnits)).
  { destruct Hc as [Hc | [Hc ->]]; apply Forall_cons in Hc as [Hh _]; auto. }
  destruct (plot_group_ok ax i g) as (ax' & l & El & Hax); [apply Hp; left | exact Hg |].
  destruct (IH ax' (S i)) as [ls [Els [Len Hls]]]; [intros; apply Hp; by right| |].
  { destruct Hc as [Hc | [Hc ->]]; apply Forall_cons in Hc as [Hh Ht]; [by left|].
    right. split; [exact Ht | apply Hax; done]. }
  exists (l :: ls). rewrite El. simpl. rewrite Els. split; [done|]. split; [simpl; lia|].
  intros [|j] l' g'; simpl; [intros [= <-] [= <-]; rewrite Nat.add_0_r; by exists ax, ax'|].
  intros H1 H2. rewrite Nat.add_succ_r. exact (Hls j l' g' H1 H2).
Qed.

(** The keys of the filtered rows are the selected names. *)
Lemma filtered_keys_perm top cols rs :
  NoDup top -> (forall k, k ∈ top -> k ∈ map (lookup_cell "Name" cols) rs /\ is_key k = true) ->
  remove_dups (List.filter is_key (map (lookup_cell "Name" cols)
     (List.filter (fun r => isin top (lookup_cell "Name" cols r)) rs))) ≡ₚ top.
Proof.
  intros Hnd Htop. apply NoDup_Permutation; [apply NoDup_remove_dups | exact Hnd|].
  intros x. rewrite elem_of_remove_dups, !list_elem_of_In, filter_In, in_map_iff. split.
  - intros [[r [<- Hr]] _]. apply filter_In in Hr as [_ Hr]. unfold isin in Hr.
    apply bool_decide_eq_true_1, list_elem_of_In in Hr. exact Hr.
  - intros Hx. apply list_elem_of_In in Hx. destruct (Htop x Hx) as [Hm Hk].
    apply list_elem_of_In, in_map_iff in Hm as [r [Hr Hin]]. split; [|exact Hk].
    exists r. split; [exact Hr|]. apply filter_In. split; [exact Hin|].
    unfold isin. apply bool_decide_eq_true_2. rewrite Hr. exact Hx.
Qed.

Lemma groups_filter_rows top df :
  NoDup top -> (forall k, k ∈ top -> k ∈ map (lookup_cell "Name" (columns df)) (rows df) /\ is_key k = true) ->
  groups "Name" (filter_rows "Name" top df) =
  map (fun k => (k, mkFrame (columns df) (rows_named df k))) (merge_sort key_le top).
Proof.
  intros Hnd Htop. unfold groups, filter_rows, group_keys. cbn [columns rows].
  rewrite (merge_sort_perm_eq _ _ (filtered_keys_perm top _ _ Hnd Htop)).
  apply map_ext_in. intros k Hk. f_equal. f_equal. unfold rows_named.
  apply list_elem_of_In in Hk. rewrite merge_sort_Permutation in Hk.
  rewrite filter_filter_bool. apply filter_ext. intros r.
  destruct (bool_decide_reflect (lookup_cell "Name" (columns df) r = k)) as [->|]; [|by rewrite andb_false_r].
  unfold isin. rewrite bool_decide_true by exact Hk. done.
Qed.

(** ** Properties of the selection *)

(** C25. [Series.nlargest(n, keep='first')] keeps [min n (len s)] entries
    of the series, each at most as often as in the series, sorted by
    decreasing value; no entry left out has a larger value than an entry
    kept; and among the entries of one value, those kept are the first
    ones of the series (a tie goes to the entry that comes first). *)
Theorem nlargest_spec n s :
  length (nlargest n s) = min n (length s) /\
  nlargest n s ⊆+ s /\
  StronglySorted desc (nlargest n s) /\
  (forall x y, x ∈ nlargest n s -> y ∈ s -> y ∉ nlargest n s -> (snd y <= snd x)%Z) /\
  (forall v, exists k, List.filter (has_value v) (nlargest n s) = take k (List.filter (has_value v) s)).
Proof.
  split; [apply nlargest_length|]. split; [apply nlargest_submseteq|].
  split; [|split; [apply nlargest_dominates | apply nlargest_ties]].
  pose proof (sort_desc_ssorted s) as Hss. rewrite <- (take_drop n (sort_desc s)) in Hss.
  exact (StronglySorted_app_1_l _ _ _ Hss).
Qed.

(** C26. [groupby('Name')['streams'].sum().nlargest(10).index] on a
    numeric [streams] column: the selected names are distinct non-missing
    names of the column, [min 10 (number of names)] of them; every name
    left out has a total at most that of every selected name, and when the
    totals are equal the selected name sorts before the one left out. *)
Theorem top_items_spec names vals :
  numeric vals = true ->
  exists top, top_items names vals = Ok top /\
    NoDup top /\
    length top = min 10 (length (group_keys names)) /\
    (forall k, k ∈ top -> k ∈ names /\ is_key k = true) /\
    (forall k k', k ∈ top -> k' ∈ group_keys names -> k' ∉ top ->
       (group_sum names vals k' <= group_sum names vals k)%Z /\
       (group_sum names vals k' = group_sum names vals k -> key_le k k')).
Proof.
  intros Hn. eexists. split; [apply top_items_ok, Hn|].
  split; [apply top_NoDup|].
  split; [by rewrite length_map, nlargest_length, <- (group_sums_fst names vals), length_map|].
  split; [intros k Hk; apply elem_of_group_keys, (elem_of_top names vals k Hk)|].
  intros k k' Hk Hk' Hn'. split; [|by apply top_tie].
  pose proof (proj1 (elem_of_top names vals k Hk)) as Hx.
  apply (nlargest_dominates 10 _ _ (k', group_sum names vals k') Hx); [|by apply not_elem_of_top].
  by apply elem_of_group_sums.
Qed.

(** The groups section 3 plots for the selected names [top]. *)
Definition name_groups (df : frame) (top : list cell) : list (cell * frame) :=
  map (fun k => (k, mkFrame (columns df) (rows_named df k))) (merge_sort key_le top).

(** With a numeric [streams] column, section 3 plots the groups of the
    ten selected names, in key order. *)
Lemma trend_lines_groups df names vals :
  column df "Name" = Ok names -> column df "streams" = Ok vals -> numeric vals = true ->
  top_items names vals = Ok (map fst (nlargest 10 (group_sums names vals))) /\
  trend_lines df = plot_groups NoUnits 0 (name_groups df (map fst (nlargest 10 (group_sums names vals)))).
Proof.
  intros Hn Hs Hnum. split; [apply top_items_ok, Hnum|].
  pose proof (column_ok _ _ _ Hn) as [_ Hnames].
  unfold trend_lines. rewrite Hn, Hs. cbn [rbind]. rewrite top_items_ok by exact Hnum. cbn [rbind].
  rewrite groups_filter_rows; [reflexivity | apply top_NoDup |].
  intros k Hk. rewrite <- Hnames. apply elem_of_group_keys, (elem_of_top names vals k Hk).
Qed.

Lemma name_groups_plottable df vals top :
  mem "Month" (columns df) = true -> column df "streams" = Ok vals -> numeric vals = true ->
  forall g, g ∈ name_groups df top -> plottable g.
Proof.
  intros Hm Hs Hnum g Hg. destruct (column_ok _ _ _ Hs) as [HmS Hvals].
  apply list_elem_of_In, in_map_iff in Hg as [k [<- _]].
  cbn [snd columns rows]. unfold rows_named.
  split; [exact Hm|]. split; [exact HmS|]. apply numeric_filter. rewrite Hvals in Hnum. exact Hnum.
Qed.

(** What a plotted group can raise when its columns are there. *)
Definition axis_error (e : py_error) : Prop := (exists m, e = TypeError m) \/ e = plot_numeric_err.

Lemma axis_convert_err ax xs e : axis_convert plot_numeric_err ax xs = Err e -> axis_error e.
Proof.
  unfold axis_convert, axis_error. destruct (get_converter xs), ax; repeat case_match; intros Herr;
    inversion Herr; subst; first [left; eexists; reflexivity | right; reflexivity].
Qed.

(** Strings mixed with a missing value or a number: the axis refuses. *)
Lemma axis_convert_mixed ax xs :
  existsb is_str xs = true -> forallb is_str xs = false -> exists e, axis_convert plot_numeric_err ax xs = Err e.
Proof. intros H1 H2. unfold axis_convert. destruct (get_converter xs), ax; rewrite ?H1, ?H2; eexists; reflexivity. Qed.

Lemma plot_group_err_kind ax i g e : plottable g -> plot_group ax i g = Err e -> axis_error e.
Proof.
  intros (H1 & H2 & H3) E. destruct (map_result_millions _ H3) as [ys Ey].
  unfold plot_group, column in E. rewrite H1, H2 in E. simpl in E. rewrite Ey in E. simpl in E.
  destruct (axis_convert _ _ _) eqn:Ea; [discriminate|]. injection E as <-. exact (axis_convert_err _ _ _ Ea).
Qed.

Lemma plot_group_mixed ax i g :
  plottable g -> existsb is_str (months_of g) = true -> forallb is_str (months_of g) = false ->
  exists e, plot_group ax i g = Err e.
Proof.
  intros (H1 & H2 & H3) Hs Hn. destruct (map_result_millions _ H3) as [ys Ey].
  unfold plot_group, column. rewrite H1, H2. simpl. rewrite Ey. simpl. fold (months_of g).
  destruct (axis_convert_mixed ax _ Hs Hn) as [e Ee]. rewrite Ee. by exists e.
Qed.

Lemma plot_groups_mixed ax i gs g :
  (forall g, g ∈ gs -> plottable g) -> g ∈ gs ->
  existsb is_str (months_of g) = true -> forallb is_str (months_of g) = false ->
  exists e, plot_groups ax i gs = Err e /\ axis_error e.
Proof.
  revert ax i. induction gs as [|g0 gs IH]; intros ax i Hp Hg Hs Hn;
    apply list_elem_of_In in Hg; [destruct Hg|]. cbn [plot_groups].
  destruct Hg as [<-|Hg].
  - destruct (plot_group_mixed ax i g0 (Hp g0 ltac:(left)) Hs Hn) as [e Ee]. rewrite Ee.
    exists e. split; [reflexivity|]. exact (plot_group_err_kind _ _ _ _ (Hp g0 ltac:(left)) Ee).
  - apply list_elem_of_In in Hg. destruct (plot_group ax i g0) as [[ax' l]|e] eqn:E; simpl.
    + destruct (IH ax' (S i)) as [e [Ee He]]; [intros; apply Hp; by right | exact Hg | exact Hs | exact Hn |].
      rewrite Ee. by exists e.
    + exists e. split; [reflexivity|]. exact (plot_group_err_kind _ _ _ _ (Hp g0 ltac:(left)) E).
Qed.

(** C27. Section 3 draws, for a frame with [Name], [streams] and [Month]
    columns, a numeric [streams] column and a [Month] column that is all
    strings or holds no string (so that [plt.plot]'s category axis
    accepts every call), one line per selected name,
    in key order ([groupby] sorts), the [i]-th in colour [i]; each line
    plots exactly the rows of that name, in their order, with their
    [Month] on x and [streams / 1e6] on y. *)
Theorem trend_lines_spec df names vals :
  column df "Name" = Ok names -> column df "streams" = Ok vals ->
  mem "Month" (columns df) = true -> numeric vals = true ->
  str_column (map (lookup_cell "Month" (columns df)) (rows df)) = true ->
  exists top ls, top_items names vals = Ok top /\ trend_lines df = Ok ls /\
    map line_label ls = merge_sort key_le top /\
    forall j l, ls !! j = Some l ->
      line_color l = j /\
      line_x l = map (lookup_cell "Month" (columns df)) (rows_named df (line_label l)) /\
      map_result millions (map (lookup_cell "streams" (columns df)) (rows_named df (line_label l))) =
        Ok (line_y l).
Proof.
  intros Hn Hs Hm Hnum Hmonth.
  destruct (trend_lines_groups df names vals Hn Hs Hnum) as [Et Etl].
  set (top := map fst (nlargest 10 (group_sums names vals))) in *.
  set (gs := name_groups df top) in *.
  destruct (plot_groups_ok NoUnits 0 gs) as [ls [Els [Len Hls]]].
  { exact (name_groups_plottable df vals top Hm Hs Hnum). }
  { unfold gs, name_groups. apply orb_prop in Hmonth as [Hm1|Hm1]; [left | right; split; [|reflexivity]];
      apply Forall_forall; intros g Hg; apply list_elem_of_In, in_map_iff in Hg as [k [<- _]];
      unfold months_of, rows_named; cbn [snd columns rows]; apply forallb_map_filter, Hm1. }
  exists top, ls. split; [exact Et|]. split; [rewrite Etl; exact Els|].
  assert (Hj : forall j l, ls !! j = Some l ->
             exists k a a', merge_sort key_le top !! j = Some k /\
               plot_group a j (k, mkFrame (columns df) (rows_named df k)) = Ok (a', l)).
  { intros j l Hl. destruct (lookup_lt_is_Some_2 gs j) as [g Hg].
    { rewrite <- Len. apply lookup_lt_is_Some_1. by eexists. }
    pose proof (Hls j l g Hl Hg) as E. unfold gs, name_groups in Hg. rewrite list_lookup_fmap in Hg.
    destruct (merge_sort key_le top !! j) as [k|]; [|discriminate]. injection Hg as <-.
    destruct E as [a [a' E]]. by exists k, a, a'. }
  split.
  - apply list_eq. intros j. rewrite list_lookup_fmap.
    destruct (ls !! j) as [l|] eqn:El.
    + destruct (Hj j l El) as (k & a & a' & Ek & Ep). rewrite Ek. simpl. f_equal.
      apply (plot_group_inv _ _ _ _ _ Ep).
    + apply lookup_ge_None_1 in El. symmetry. apply lookup_ge_None_2.
      rewrite Len in El. unfold gs, name_groups in El. rewrite length_map in El. exact El.
  - intros j l Hl. destruct (Hj j l Hl) as (k & a & a' & _ & Ep).
    destruct (plot_group_inv _ _ _ _ _ Ep) as (Hc & Hlab & Hx & Hy). simpl in Hlab. rewrite Hlab. auto.
Qed.

(** C34. The error path of section 3: when a selected name's [Month]
    values mix strings with a missing value (or a number), the [plt.plot]
    calls cannot all pass the axis's unit conversion, and section 3
    raises a [TypeError] (or, on an axis without units, the float
    conversion's [ValueError]) instead of drawing the chart. *)
Theorem trend_lines_month_error df names vals k :
  column df "Name" = Ok names -> column df "streams" = Ok vals ->
  mem "Month" (columns df) = true -> numeric vals = true ->
  k ∈ map fst (nlargest 10 (group_sums names vals)) ->
  existsb is_str (map (lookup_cell "Month" (columns df)) (rows_named df k)) = true ->
  forallb is_str (map (lookup_cell "Month" (columns df)) (rows_named df k)) = false ->
  exists e, trend_lines df = Err e /\ axis_error e.
Proof.
  intros Hn Hs Hm Hnum Hk Hs1 Hs2.
  destruct (trend_lines_groups df names vals Hn Hs Hnum) as [_ ->].
  apply (plot_groups_mixed _ _ _ (k, mkFrame (columns df) (rows_named df k))
           (name_groups_plottable df vals _ Hm Hs Hnum)); [|exact Hs1|exact Hs2].
  unfold name_groups. apply list_elem_of_In, in_map_iff. exists k. split; [reflexivity|].
  apply list_elem_of_In. rewrite merge_sort_Permutation. exact Hk.
Qed.

(** ** The sample of the witnesses *)

(** Twelve names, [t01] on two rows, [t10] and [t11] tied at the cut,
    and a row without a name. *)
Definition sample_combined : frame :=
  mkFrame ["Month"; "Name"; "streams"]
  [[CStr "2023-01"; CStr "t01"; CInt 100];
   [CStr "2023-02"; CStr "t01"; CInt 20];
   [CStr "2023-01"; CStr "t02"; CInt 90];
   [CStr "2023-01"; CStr "t03"; CInt 80];
   [CStr "2023-01"; CStr "t04"; CInt 70];
   [CStr "2023-01"; CStr "t05"; CInt 65];
   [CStr "2023-01"; CStr "t06"; CInt 60];
   [CStr "2023-01"; CStr "t07"; CInt 58];
   [CStr "2023-01"; CStr "t08"; CInt 55];
   [CStr "2023-01"; CStr "t09"; CInt 52];
   [CStr "2023-01"; CStr "t10"; CInt 50];
   [CStr "2023-01"; CStr "t11"; CInt 50];
   [CStr "2023-01"; CStr "t12"; CInt 10];
   [CStr "2023-01"; CNull; CInt 500]].

Definition sample_names : list cell := map (lookup_cell "Name" (columns sample_combined)) (rows sample_combined).
Definition sample_streams : list cell := map (lookup_cell "streams" (columns sample_combined)) (rows sample_combined).

Lemma top_items_spec_witness :
  numeric sample_streams = true /\
  exists top, top_items sample_names sample_streams = Ok top /\ length top = 10 /\
    CStr "t10" ∈ top /\ CStr "t11" ∉ top.
Proof.
  assert (Hn : numeric sample_streams = true) by reflexivity. split; [exact Hn|].
  destruct (top_items_spec sample_names sample_streams Hn) as [top [E [_ [L _]]]].
  exists top. split; [exact E|]. split; [rewrite L; vm_compute; reflexivity|].
  vm_compute in E. injection E as <-.
  split; eapply bool_decide_eq_true_1; vm_compute; reflexivity.
Defined.

Lemma trend_lines_spec_witness :
  column sample_combined "Name" = Ok sample_names /\ column sample_combined "streams" = Ok sample_streams /\
  mem "Month" (columns sample_combined) = true /\ numeric sample_streams = true /\
  str_column (map (lookup_cell "Month" (columns sample_combined)) (rows sample_combined)) = true /\
  exists top ls, top_items sample_names sample_streams = Ok top /\ trend_lines sample_combined = Ok ls /\
    map line_label ls = merge_sort key_le top.
Proof.
  assert (H1 : column sample_combined "Name" = Ok sample_names) by reflexivity.
  assert (H2 : column sample_combined "streams" = Ok sample_streams) by reflexivity.
  assert (H3 : mem "Month" (columns sample_combined) = true) by reflexivity.
  assert (H4 : numeric sample_streams = true) by reflexivity.
  assert (H5 : str_column (map (lookup_cell "Month" (columns sample_combined)) (rows sample_combined)) = true)
    by (vm_compute; reflexivity).
  do 5 (split; [assumption|]).
  destruct (trend_lines_spec sample_combined sample_names sample_streams H1 H2 H3 H4 H5) as (top & ls & E1 & E2 & E3 & _).
  exists top, ls. auto.
Defined.

Definition sample_month_gap : frame :=
  mkFrame ["Month"; "Name"; "streams"]
    [[CStr "2023-01"; CStr "t01"; CInt 5]; [CNull; CStr "t01"; CInt 7]; [CStr "2023-01"; CStr "t02"; CInt 3]].

Lemma trend_lines_month_error_witness :
  exists e, trend_lines sample_month_gap = Err e /\ axis_error e.
Proof.
  apply (trend_lines_month_error sample_month_gap
           (map (lookup_cell "Name" (columns sample_month_gap)) (rows sample_month_gap))
           (map (lookup_cell "streams" (columns sample_month_gap)) (rows sample_month_gap)) (CStr "t01")).
  all: try (vm_compute; reflexivity).
  apply list_elem_of_In. vm_compute. auto.
Defined.

(** A missing month among the month strings of a plotted name: the
    category axis refuses the [NaN] and section 3 raises [TypeError]. *)
Example trend_lines_missing_month :
  trend_lines (mkFrame ["Month"; "Name"; "streams"]
                 [[CStr "2023-01"; CStr "t01"; CInt 5]; [CNull; CStr "t01"; CInt 7]]) =
  Err (TypeError "'value' must be an instance of str or bytes").
Proof. vm_compute. reflexivity. Qed.

End TopItems.
