(* ===== verification/Insights.v ===== *)
(** The insight script [src/insight_analysis.py]: [setup_korean_font]
    (lines 7-17) and [analyze_and_visualize_insights] (lines 19-99) with
    its entry point (lines 101-104).

    The script's state is an [iworld]: the directories, the existing
    files, the figures saved by [plt.savefig] (path and the data the
    figure draws) and the printed lines.  Its computations run in the
    state-and-error monad [IM], given to stdpp's [MRet]/[MBind] classes so
    that the source's statement sequences read as [x ← c; k] and [c ;; k].
    [pd.read_csv] is a section variable, as in the merge script.

    A figure is recorded by its data, not its pixels: the two bar series
    of section 1, the three region sizes [venn2] computes from the two
    artist sets of section 2 (sets are stdpp's [gset]), and the lines of
    section 3 from [TopItems].  Titles, fonts, colours and layout calls
    draw nothing the theorems look at and are not modelled. *)

From Stdlib Require Import ZArith QArith.
From S2P Require Import Prelude Frame TopItems.
From stdpp Require Import base list countable gmap sets strings.
Import Frame TopItems.
Open Scope merge_scope.

Module Insights.

(** ** Sets of cells *)

Definition cell_enc (c : cell) : option (Z + string) :=
  match c with CNull => None | CInt z => Some (inl z) | CStr s => Some (inr s) end.

Definition cell_dec (o : option (Z + string)) : cell :=
  match o with None => CNull | Some (inl z) => CInt z | Some (inr s) => CStr s end.

#[export] Instance cell_countable : Countable cell.
Proof. apply (inj_countable' cell_enc cell_dec). intros []; reflexivity. Defined.

(** [set(df[col])]: the distinct cells of a column ([NaN] of a text
    column is pandas' single [nan] object, one element). *)
Definition py_set (col : list cell) : gset cell := list_to_set col.

(** [venn2([A, B])] draws the sizes of [A - B], [B - A] and [A & B]. *)
Definition venn2_subsets (a b : gset cell) : nat * nat * nat :=
  (size (a ∖ b), size (b ∖ a), size (a ∩ b)).

(** ** Figures and the world *)

Inductive figure : Type :=
| BarFigure (maxima minima : list (cell * option Q))
| VennFigure (sizes : nat * nat * nat)
| LineFigure (lines : list line).

Record iworld := mkIWorld {
  i_dirs : list string;
  i_files : list string;
  i_saved : list (string * figure);
  i_log : list string
}.

Definition IM (A : Type) : Type := iworld -> result py_error A * iworld.

#[export] Instance im_ret : MRet IM := fun A a w => (Ok a, w).
#[export] Instance im_bind : MBind IM := fun A B k c w =>
  match c w with
  | (Ok a, w') => k a w'
  | (Err e, w') => (Err e, w')
  end.

Definition lift {A} (r : result py_error A) : IM A := fun w => (r, w).

Section Script.

Variable read_csv : string -> option frame.
Variable can_write : string -> bool.

(** [os.path.exists(p)]: a directory, a file or a saved figure. *)
Definition exists_in (w : iworld) (p : string) : bool :=
  mem p (i_dirs w) || mem p (i_files w) || mem p (map fst (i_saved w)).

Definition path_exists (p : string) : IM bool := fun w => (Ok (exists_in w p), w).

(** [os.makedirs(p)] without [exist_ok]. *)
Definition makedirs_new (p : string) : IM unit :=
  fun w =>
    if exists_in w p then (Err (FileExistsError p), w)
    else if can_write p then (Ok tt, mkIWorld (i_dirs w ++ [p]) (i_files w) (i_saved w) (i_log w))
    else (Err (OSError p), w).

Definition py_print (line : string) : IM unit :=
  fun w => (Ok tt, mkIWorld (i_dirs w) (i_files w) (i_saved w) (i_log w ++ [line])).

(** [pd.read_csv(p)] of an existing file. *)
Definition read (p : string) : IM frame :=
  lift (match read_csv p with Some df => Ok df | None => Err (ParserError p) end).

(** [plt.savefig(p)]: the directory of [p] must exist. *)
Definition savefig (p : string) (fig : figure) : IM unit :=
  fun w =>
    if mem (py_dirname p) (i_dirs w) && can_write p
    then (Ok tt, mkIWorld (i_dirs w) (i_files w) (i_saved w ++ [(p, fig)]) (i_log w))
    else (Err (OSError p), w).

(** ** Lines 7-17 *)

Definition font_path : string := "/usr/share/fonts/opentype/noto/NotoSansCJK-Regular.ttc".

Definition setup_korean_font : IM unit :=
  ok ← path_exists font_path;
  if (ok : bool) then py_print ("한글 폰트 설정 완료: " ++ font_path)
  else py_print "폰트를 찾을 수 없습니다. Actions 설정을 확인하세요.".

(** ** Section 1, lines 28-50 *)

(** [bar]'s [left = x - width / 2] on an object array of numbers and
    strings. *)
Definition bar_numeric_err : py_error :=
  TypeError "the dtypes of parameters x (object) and width (float64) are incompatible".

(** [plt.bar(df['Country'], df['streams'] / 1e6)] on an axis whose units
    the earlier call set: the arguments first, then the conversion of the
    x data ([axis_convert]). *)
Definition bars (ax : xunits) (df : frame) : result py_error (xunits * list (cell * option Q)) :=
  let* xs := column df "Country" in
  let* hs := column df "streams" in
  let* ys := map_result millions hs in
  let* ax' := axis_convert bar_numeric_err ax xs in
  Ok (ax', combine xs ys).

Definition saved_message (p : string) : string := "시각화 결과 저장: " ++ p.

(** The common tail of a section that drew a figure: lines 44-48. *)
Definition save_figure (output_folder name : string) (fig : figure) : IM (option string) :=
  let result_path := py_path_join output_folder name in
  savefig result_path fig ;;
  py_print (saved_message result_path) ;;
  mret (Some result_path).

Definition stream_trends (input_folder output_folder : string) : IM (option string) :=
  let max_stream_path := py_path_join input_folder "max_stream_month.csv" in
  let min_stream_path := py_path_join input_folder "min_stream_month.csv" in
  e1 ← path_exists max_stream_path;
  e2 ← path_exists min_stream_path;
  if e1 && e2 then
    max_df ← read max_stream_path;
    min_df ← read min_stream_path;
    maxima ← lift (bars NoUnits max_df);
    minima ← lift (bars (fst maxima) min_df);
    save_figure output_folder "country_stream_trends_improved.png" (BarFigure (snd maxima) (snd minima))
  else
    py_print (max_stream_path ++ " 또는 " ++ min_stream_path ++ " 파일이 존재하지 않습니다.") ;;
    mret None.

(** ** Section 2, lines 53-71 *)

Definition artist_overlap (input_folder output_folder : string) : IM (option string) :=
  let top_artists_path := py_path_join input_folder "top_artists_by_country.csv" in
  let global_artists_path := py_path_join input_folder "global_top_artists.csv" in
  e1 ← path_exists top_artists_path;
  e2 ← path_exists global_artists_path;
  if e1 && e2 then
    local_df ← read top_artists_path;
    global_df ← read global_artists_path;
    local_col ← lift (column local_df "artist_names");
    global_col ← lift (column global_df "artist_names");
    save_figure output_folder "artist_overlap_improved.png"
      (VennFigure (venn2_subsets (py_set local_col) (py_set global_col)))
  else
    py_print (top_artists_path ++ " 또는 " ++ global_artists_path ++ " 파일이 존재하지 않습니다.") ;;
    mret None.

(** ** Section 3, lines 74-96 *)

Definition global_trends (input_folder output_folder : string) : IM (option string) :=
  let combined_data_path := py_path_join input_folder "monthly_common_tracks_and_artists.csv" in
  e ← path_exists combined_data_path;
  if (e : bool) then
    combined_df ← read combined_data_path;
    lines ← lift (trend_lines combined_df);
    save_figure output_folder "global_trends_improved.png" (LineFigure lines)
  else
    py_print (combined_data_path ++ " 파일이 존재하지 않습니다.") ;;
    mret None.

(** ** The run, lines 19-25 and 98-104 *)

Definition option_to_list {A} (o : option A) : list A := match o with Some x => [x] | None => [] end.

(** Line 99: [print("생성된 파일들:", generated_files)]. *)
Definition generated_message (generated_files : list string) : string :=
  "생성된 파일들: " ++ py_repr_list generated_files.

Definition analyze_and_visualize_insights (input_folder output_folder : string) : IM unit :=
  e ← path_exists output_folder;
  (if (e : bool) then mret tt
   else makedirs_new output_folder ;; py_print ("결과 폴더 생성 완료: " ++ output_folder)) ;;
  py_print ("데이터 분석 및 시각화 결과는 " ++ output_folder ++ "에 저장됩니다.") ;;
  g1 ← stream_trends input_folder output_folder;
  g2 ← artist_overlap input_folder output_folder;
  g3 ← global_trends input_folder output_folder;
  py_print (generated_message (option_to_list g1 ++ option_to_list g2 ++ option_to_list g3)).

Definition main : IM unit :=
  setup_korean_font ;;
  analyze_and_visualize_insights "./final_data" "./insights".

End Script.

(** ** Monad lemmas *)

Lemma im_bind_ok {A B} (c : IM A) (k : A -> IM B) w a w1 :
  c w = (Ok a, w1) -> (c ≫= k) w = k a w1.
Proof. intros H. unfold mbind, im_bind. rewrite H. reflexivity. Qed.

Lemma im_bind_err {A B} (c : IM A) (k : A -> IM B) w e w1 :
  c w = (Err e, w1) -> (c ≫= k) w = (Err e, w1).
Proof. intros H. unfold mbind, im_bind. rewrite H. reflexivity. Qed.

Lemma im_bind_ext {A B} (c : IM A) (k1 k2 : A -> IM B) w :
  (forall a w', k1 a w' = k2 a w') -> (c ≫= k1) w = (c ≫= k2) w.
Proof. intros H. unfold mbind, im_bind. destruct (c w) as [[a|e] w1]; [apply H | reflexivity]. Qed.

(** ** Which figures a computation saves *)

(** [c] leaves the saved figures alone. *)
Definition keeps {A} (c : IM A) : Prop := forall w, i_saved (snd (c w)) = i_saved w.

(** [c] saves one figure at [p] when it returns [Some p], none otherwise. *)
Definition saves_at (p : string) (c : IM (option string)) : Prop :=
  forall w, match fst (c w) with
            | Ok (Some q) => q = p /\ exists fig, i_saved (snd (c w)) = i_saved w ++ [(p, fig)]
            | _ => i_saved (snd (c w)) = i_saved w
            end.

Section Saves.

Variable read_csv : string -> option frame.
Variable can_write : string -> bool.

Lemma keeps_ret {A} (a : A) : keeps (mret a : IM A).
Proof. intros w. reflexivity. Qed.

Lemma keeps_lift {A} (r : result py_error A) : keeps (lift r).
Proof. intros w. reflexivity. Qed.

Lemma keeps_path_exists p : keeps (path_exists p).
Proof. intros w. reflexivity. Qed.

Lemma keeps_print m : keeps (py_print m).
Proof. intros w. reflexivity. Qed.

Lemma keeps_read p : keeps (read read_csv p).
Proof. apply keeps_lift. Qed.

Lemma keeps_makedirs p : keeps (makedirs_new can_write p).
Proof. intros w. unfold makedirs_new. repeat case_match; reflexivity. Qed.

Lemma keeps_bind {A B} (c : IM A) (k : A -> IM B) : keeps c -> (forall a, keeps (k a)) -> keeps (c ≫= k).
Proof.
  intros Hc Hk w. unfold mbind, im_bind. specialize (Hc w).
  destruct (c w) as [[a|e] w1]; simpl in *; [rewrite Hk; exact Hc | exact Hc].
Qed.

Lemma saves_at_bind {A} p (c : IM A) (k : A -> IM (option string)) :
  keeps c -> (forall a, saves_at p (k a)) -> saves_at p (c ≫= k).
Proof.
  intros Hc Hk w. unfold mbind, im_bind. specialize (Hc w).
  destruct (c w) as [[a|e] w1]; simpl in *; [|exact Hc].
  specialize (Hk a w1). destruct (fst (k a w1)) as [[q|]|e]; [|rewrite Hk; exact Hc|rewrite Hk; exact Hc].
  destruct Hk as [-> [fig Hf]]. split; [reflexivity|]. exists fig. rewrite Hf, Hc. reflexivity.
Qed.

Lemma saves_at_skip p m : saves_at p (py_print m ;; mret None).
Proof. intros w. reflexivity. Qed.

Lemma save_figure_saves out name fig :
  saves_at (py_path_join out name) (save_figure can_write out name fig).
Proof.
  intros w. unfold save_figure, savefig, mbind, im_bind.
  destruct (mem _ (i_dirs w) && can_write _); simpl; [|reflexivity].
  split; [reflexivity|]. by exists fig.
Qed.

Create HintDb insights.

#[local] Hint Resolve keeps_ret keeps_lift keeps_path_exists keeps_print keeps_read keeps_makedirs
  saves_at_skip save_figure_saves : insights.

Ltac saves_tac :=
  repeat first [ solve [eauto with insights]
               | apply saves_at_bind; [eauto with insights|intros ?]
               | match goal with |- saves_at _ (if ?b then _ else _) => destruct b end ].

Lemma stream_trends_saves inp out :
  saves_at (py_path_join out "country_stream_trends_improved.png") (stream_trends read_csv can_write inp out).
Proof. unfold stream_trends. cbv zeta. saves_tac. Qed.

Lemma artist_overlap_saves inp out :
  saves_at (py_path_join out "artist_overlap_improved.png") (artist_overlap read_csv can_write inp out).
Proof. unfold artist_overlap. cbv zeta. saves_tac. Qed.

Lemma global_trends_saves inp out :
  saves_at (py_path_join out "global_trends_improved.png") (global_trends read_csv can_write inp out).
Proof. unfold global_trends. cbv zeta. saves_tac. Qed.

End Saves.

(** ** The run reports exactly the figures it saved *)

Definition figure_paths (out : string) : list string :=
  [py_path_join out "country_stream_trends_improved.png";
   py_path_join out "artist_overlap_improved.png";
   py_path_join out "global_trends_improved.png"].

(** A continuation that, given the files generated so far, saves figures
    among [ps] in order and on return prints the full list. *)
Definition reports (ps : list string) (K : list string -> IM unit) : Prop :=
  forall gen w, exists new,
    i_saved (snd (K gen w)) = i_saved w ++ new /\ map fst new `sublist_of` ps /\
    (fst (K gen w) = Ok tt -> last (i_log (snd (K gen w))) = Some (generated_message (gen ++ map fst new))).

Lemma reports_print : reports [] (fun gen => py_print (generated_message gen)).
Proof.
  intros gen w. exists []. rewrite app_nil_r. split; [reflexivity|]. split; [constructor|].
  intros _. simpl. rewrite last_snoc, app_nil_r. reflexivity.
Qed.

Lemma reports_step p s ps K :
  saves_at p s -> reports ps K -> reports (p :: ps) (fun gen => g ← s; K (gen ++ option_to_list g)).
Proof.
  intros Hs HK gen w. specialize (Hs w). unfold mbind, im_bind.
  destruct (s w) as [[g|e] w1]; simpl in Hs |- *.
  - destruct g as [q|]; cbn [option_to_list].
    + destruct Hs as [-> [fig Hf]]. destruct (HK (gen ++ [p]) w1) as [new [S [Sub L]]].
      exists ((p, fig) :: new). split; [rewrite S, Hf, <- app_assoc; reflexivity|].
      split; [by apply sublist_skip|]. intros Hok. rewrite (L Hok), <- app_assoc. reflexivity.
    + destruct (HK (gen ++ []) w1) as [new [S [Sub L]]]. exists new.
      split; [rewrite S, Hs; reflexivity|]. split; [by apply sublist_cons|].
      intros Hok. rewrite (L Hok), app_nil_r. reflexivity.
  - exists []. rewrite app_nil_r. split; [exact Hs|]. split; [apply sublist_nil_l|]. discriminate.
Qed.

Section Run.

Variable read_csv : string -> option frame.
Variable can_write : string -> bool.

Lemma analyze_tail_eq inp out w :
  (g1 ← stream_trends read_csv can_write inp out;
   g2 ← artist_overlap read_csv can_write inp out;
   g3 ← global_trends read_csv can_write inp out;
   py_print (generated_message (option_to_list g1 ++ option_to_list g2 ++ option_to_list g3))) w =
  (g1 ← stream_trends read_csv can_write inp out;
   (fun gen => g2 ← artist_overlap read_csv can_write inp out;
     (fun gen => g3 ← global_trends read_csv can_write inp out;
       py_print (generated_message (gen ++ option_to_list g3))) (gen ++ option_to_list g2)) ([] ++ option_to_list g1)) w.
Proof.
  apply im_bind_ext. intros g1 w1. apply im_bind_ext. intros g2 w2. apply im_bind_ext. intros g3 w3.
  simpl. rewrite <- app_assoc. reflexivity.
Qed.

Lemma analyze_prefix_keeps out :
  forall e : bool, keeps (if e then mret tt else makedirs_new can_write out ;; py_print ("결과 폴더 생성 완료: " ++ out)).
Proof. intros []; [apply keeps_ret | apply keeps_bind; [apply keeps_makedirs | intros; apply keeps_print]]. Qed.

(** C28. Whatever the inputs, their contents and the permissions, a run
    of [analyze_and_visualize_insights] saves figures only at the three
    chart paths under the output folder, each at most once and in the
    order of the sections; and when it returns normally, its last line
    prints exactly the list of the figures it saved
    ([generated_files]). *)
Theorem analyze_reports_saved inp out w0 :
  let r := analyze_and_visualize_insights read_csv can_write inp out w0 in
  exists new, i_saved (snd r) = i_saved w0 ++ new /\ map fst new `sublist_of` figure_paths out /\
    (fst r = Ok tt -> last (i_log (snd r)) = Some (generated_message (map fst new))).
Proof.
  pose proof (reports_step _ _ _ _ (stream_trends_saves read_csv can_write inp out)
               (reports_step _ _ _ _ (artist_overlap_saves read_csv can_write inp out)
                 (reports_step _ _ _ _ (global_trends_saves read_csv can_write inp out) reports_print))) as HR.
  cbv zeta. unfold analyze_and_visualize_insights.
  rewrite (im_bind_ok (path_exists out) _ w0 _ w0 eq_refl).
  match goal with
  | |- context [((if ?b then ?x else ?y) ≫= _) w0] =>
      pose proof (analyze_prefix_keeps out b w0) as Hk;
      destruct ((if b then x else y) w0) as [[[]|e] w1] eqn:E1
  end.
  - rewrite (im_bind_ok _ _ _ _ _ E1), (im_bind_ok (py_print _) _ w1 tt _ eq_refl), analyze_tail_eq.
    match goal with |- context [(stream_trends _ _ _ _ ≫= _) ?w2] => destruct (HR [] w2) as [new [S [Sub L]]] end.
    cbn beta in S, L |- *. exists new. simpl in Hk.
    split; [rewrite S; cbn [i_saved]; rewrite Hk; reflexivity|].
    split; [exact Sub|]. intros Hok. rewrite (L Hok). reflexivity.
  - rewrite (im_bind_err _ _ _ _ _ E1). exists []. rewrite app_nil_r.
    split; [exact Hk|]. split; [apply sublist_nil_l|]. discriminate.
Qed.

End Run.

(** ** Missing inputs *)

Definition input_paths (inp : string) : list string :=
  [py_path_join inp "max_stream_month.csv"; py_path_join inp "min_stream_month.csv";
   py_path_join inp "top_artists_by_country.csv"; py_path_join inp "global_top_artists.csv";
   py_path_join inp "monthly_common_tracks_and_artists.csv"].

Section Missing.

Variable read_csv : string -> option frame.
Variable can_write : string -> bool.

(** C29. Missing inputs are tolerated (spec section 7a): when the output
    folder exists and none of the five input files does, the run returns
    normally, reads and saves nothing, and prints the start line, one
    diagnostic per section naming the missing files, and the empty list
    of generated files. *)
Theorem analyze_no_inputs inp out w0 :
  mem out (i_dirs w0) = true ->
  Forall (fun p => exists_in w0 p = false) (input_paths inp) ->
  analyze_and_visualize_insights read_csv can_write inp out w0 =
  (Ok tt, mkIWorld (i_dirs w0) (i_files w0) (i_saved w0)
     (i_log w0 ++
      [("데이터 분석 및 시각화 결과는 " ++ out ++ "에 저장됩니다.")%string;
       (py_path_join inp "max_stream_month.csv" ++ " 또는 " ++ py_path_join inp "min_stream_month.csv"
         ++ " 파일이 존재하지 않습니다.")%string;
       (py_path_join inp "top_artists_by_country.csv" ++ " 또는 " ++ py_path_join inp "global_top_artists.csv"
         ++ " 파일이 존재하지 않습니다.")%string;
       (py_path_join inp "monthly_common_tracks_and_artists.csv" ++ " 파일이 존재하지 않습니다.")%string;
       generated_message []])).
Proof.
  intros Hd Hin. unfold input_paths in Hin. rewrite !Forall_cons in Hin.
  destruct Hin as (H1 & H2 & H3 & H4 & H5 & _).
  unfold exists_in in *.
  unfold analyze_and_visualize_insights, stream_trends, artist_overlap, global_trends.
  cbv [mbind im_bind path_exists exists_in py_print mret im_ret]. cbn [i_dirs i_files i_saved i_log].
  rewrite Hd. cbn -[mem py_path_join]. rewrite H1. cbn -[mem py_path_join].
  rewrite H3. cbn -[mem py_path_join]. rewrite H5. cbn -[mem py_path_join].
  rewrite <- !app_assoc. reflexivity.
Qed.

End Missing.

(** ** The Venn diagram *)

Lemma size_py_set l : size (py_set l) = length (remove_dups l).
Proof.
  unfold py_set. rewrite <- (size_list_to_set (C:=gset cell) (remove_dups l)) by apply NoDup_remove_dups.
  f_equal. apply set_eq. intros x. rewrite !elem_of_list_to_set, elem_of_remove_dups. done.
Qed.

Lemma size_split (a b : gset cell) : size a = size (a ∖ b) + size (a ∩ b).
Proof.
  rewrite <- size_union by set_solver. f_equal. apply set_eq. intros x.
  destruct (decide (x ∈ b)); set_solver.
Qed.

Lemma size_union3 (a b : gset cell) : size (a ∪ b) = size (a ∖ b) + size (b ∖ a) + size (a ∩ b).
Proof.
  rewrite <- !size_union by set_solver. f_equal. apply set_eq. intros x.
  destruct (decide (x ∈ a)), (decide (x ∈ b)); set_solver.
Qed.

(** The sizes [venn2] draws for the sets of two columns. *)
Lemma venn2_subsets_sizes (l1 l2 : list cell) :
  let '(x, y, z) := venn2_subsets (py_set l1) (py_set l2) in
  x + z = length (remove_dups l1) /\ y + z = length (remove_dups l2) /\
  x + y + z = length (remove_dups (l1 ++ l2)).
Proof.
  unfold venn2_subsets. rewrite <- !size_py_set. split; [|split].
  - symmetry. apply size_split.
  - rewrite (size_split (py_set l2) (py_set l1)).
    assert (py_set l2 ∩ py_set l1 = py_set l1 ∩ py_set l2) as -> by (apply set_eq; set_solver).
    reflexivity.
  - rewrite <- size_union3. f_equal. unfold py_set. rewrite list_to_set_app_L. reflexivity.
Qed.

(** ** All inputs present *)

Section AllInputs.

Variable read_csv : string -> option frame.
Variable can_write : string -> bool.

(** C31. When the output folder exists, all five inputs are files that
    read to frames with the columns each section uses and whose
    [Country] and [Month] data Matplotlib's axes accept (the two bar
    calls and the line calls succeed, [axis_convert] included), and the
    chart paths are writable, the run returns normally having saved, in this
    order, the bar chart of the maxima and minima, the Venn diagram of
    the two artist sets and the line chart of the top names, and created
    no directory. *)
Theorem analyze_all_inputs inp out w0 a b c d e ax ax' xa xb lc ld ls :
  out <> EmptyString -> rstrip_char slash out = out -> mem out (i_dirs w0) = true ->
  Forall (fun p => mem p (i_files w0) = true) (input_paths inp) ->
  Forall (fun p => can_write p = true) (figure_paths out) ->
  read_csv (py_path_join inp "max_stream_month.csv") = Some a ->
  read_csv (py_path_join inp "min_stream_month.csv") = Some b ->
  read_csv (py_path_join inp "top_artists_by_country.csv") = Some c ->
  read_csv (py_path_join inp "global_top_artists.csv") = Some d ->
  read_csv (py_path_join inp "monthly_common_tracks_and_artists.csv") = Some e ->
  bars NoUnits a = Ok (ax, xa) -> bars ax b = Ok (ax', xb) ->
  column c "artist_names" = Ok lc -> column d "artist_names" = Ok ld ->
  trend_lines e = Ok ls ->
  let r := analyze_and_visualize_insights read_csv can_write inp out w0 in
  fst r = Ok tt /\ i_dirs (snd r) = i_dirs w0 /\
  i_saved (snd r) = i_saved w0 ++
    [(py_path_join out "country_stream_trends_improved.png", BarFigure xa xb);
     (py_path_join out "artist_overlap_improved.png", VennFigure (venn2_subsets (py_set lc) (py_set ld)));
     (py_path_join out "global_trends_improved.png", LineFigure ls)].
Proof.
  intros Hne Hr Hd Hin Hw Ra Rb Rc Rd Re Ba Bb Cc Cd Te.
  unfold input_paths in Hin. rewrite !Forall_cons in Hin. destruct Hin as (F1 & F2 & F3 & F4 & F5 & _).
  unfold figure_paths in Hw. rewrite !Forall_cons in Hw. destruct Hw as (W1 & W2 & W3 & _).
  pose proof (py_dirname_join out "country_stream_trends_improved.png" Hne Hr eq_refl) as D1.
  pose proof (py_dirname_join out "artist_overlap_improved.png" Hne Hr eq_refl) as D2.
  pose proof (py_dirname_join out "global_trends_improved.png" Hne Hr eq_refl) as D3.
  unfold analyze_and_visualize_insights, stream_trends, artist_overlap, global_trends, save_figure, read.
  cbv [mbind im_bind path_exists exists_in py_print mret im_ret lift savefig].
  repeat progress (cbn -[mem py_path_join py_dirname bars column trend_lines venn2_subsets py_set];
    rewrite ?Hd, ?F1, ?F2, ?F3, ?F4, ?F5, ?W1, ?W2, ?W3, ?D1, ?D2, ?D3, ?Ra, ?Rb, ?Rc, ?Rd, ?Re,
      ?Ba, ?Bb, ?Cc, ?Cd, ?Te, ?orb_true_r).
  split; [reflexivity|]. split; [reflexivity|]. rewrite <- !app_assoc. reflexivity.
Qed.

(** C30. Section 2 draws the overlap of the two artist files the right
    way round: when both files exist and read to frames with an
    [artist_names] column and the chart path is writable, the section
    saves one Venn figure at [artist_overlap_improved.png] and prints its
    path, and the three regions it draws count the artists only in
    [top_artists_by_country.csv], only in [global_top_artists.csv] and
    in both: the first and third add up to the distinct local artists,
    the second and third to the distinct global artists, all three to
    the distinct artists of the two files together. *)
Theorem artist_overlap_venn inp out w c d lc ld :
  out <> EmptyString -> rstrip_char slash out = out -> mem out (i_dirs w) = true ->
  mem (py_path_join inp "top_artists_by_country.csv") (i_files w) = true ->
  mem (py_path_join inp "global_top_artists.csv") (i_files w) = true ->
  can_write (py_path_join out "artist_overlap_improved.png") = true ->
  read_csv (py_path_join inp "top_artists_by_country.csv") = Some c ->
  read_csv (py_path_join inp "global_top_artists.csv") = Some d ->
  column c "artist_names" = Ok lc -> column d "artist_names" = Ok ld ->
  let p := py_path_join out "artist_overlap_improved.png" in
  exists x y z,
    artist_overlap read_csv can_write inp out w =
      (Ok (Some p), mkIWorld (i_dirs w) (i_files w) (i_saved w ++ [(p, VennFigure (x, y, z))])
                      (i_log w ++ [saved_message p])) /\
    x + z = length (remove_dups lc) /\ y + z = length (remove_dups ld) /\
    x + y + z = length (remove_dups (lc ++ ld)).
Proof.
  intros Hne Hr Hd F1 F2 W Rc Rd Cc Cd. cbv zeta.
  pose proof (py_dirname_join out "artist_overlap_improved.png" Hne Hr eq_refl) as D.
  pose proof (venn2_subsets_sizes lc ld) as Hv.
  destruct (venn2_subsets (py_set lc) (py_set ld)) as [[x y] z] eqn:Ev.
  exists x, y, z. split; [|exact Hv].
  unfold artist_overlap, save_figure, read.
  cbv [mbind im_bind path_exists exists_in py_print mret im_ret lift savefig].
  repeat progress (cbn -[mem py_path_join py_dirname column venn2_subsets py_set];
    rewrite ?Hd, ?F1, ?F2, ?W, ?D, ?Rc, ?Rd, ?Cc, ?Cd, ?Ev, ?orb_true_r).
  reflexivity.
Qed.


End AllInputs.

(** ** Samples of the witnesses *)

Definition sample_max : frame := mkFrame ["Country"; "streams"] [[CStr "AU"; CInt 3000000]; [CStr "US"; CInt 9000000]].
Definition sample_min : frame := mkFrame ["Country"; "streams"] [[CStr "AU"; CInt 1000000]; [CStr "US"; CInt 2000000]].
Definition sample_local : frame := mkFrame ["artist_names"] [[CStr "A"]; [CStr "B"]; [CStr "A"]].
Definition sample_global : frame := mkFrame ["artist_names"] [[CStr "B"]; [CStr "C"]].

Definition sample_read (p : string) : option frame :=
  if String.eqb p (py_path_join "./final_data" "max_stream_month.csv") then Some sample_max
  else if String.eqb p (py_path_join "./final_data" "min_stream_month.csv") then Some sample_min
  else if String.eqb p (py_path_join "./final_data" "top_artists_by_country.csv") then Some sample_local
  else if String.eqb p (py_path_join "./final_data" "global_top_artists.csv") then Some sample_global
  else if String.eqb p (py_path_join "./final_data" "monthly_common_tracks_and_artists.csv") then Some sample_combined
  else None.

Definition sample_lines : list line :=
  match trend_lines sample_combined with Ok ls => ls | Err _ => [] end.

Definition bare_world : iworld := mkIWorld ["."; "./insights"] [] [] [].
Definition full_world : iworld := mkIWorld ["."; "./insights"] (input_paths "./final_data") [] [].

Lemma analyze_no_inputs_witness :
  fst (analyze_and_visualize_insights sample_read (fun _ => true) "./final_data" "./insights" bare_world) = Ok tt /\
  i_saved (snd (analyze_and_visualize_insights sample_read (fun _ => true) "./final_data" "./insights" bare_world)) = [].
Proof.
  rewrite (analyze_no_inputs sample_read (fun _ => true) "./final_data" "./insights" bare_world);
    [split; reflexivity | reflexivity | repeat constructor].
Defined.

Lemma analyze_all_inputs_witness :
  let r := analyze_and_visualize_insights sample_read (fun _ => true) "./final_data" "./insights" full_world in
  fst r = Ok tt /\
  map fst (i_saved (snd r)) =
    ["./insights/country_stream_trends_improved.png"; "./insights/artist_overlap_improved.png";
     "./insights/global_trends_improved.png"] /\
  venn2_subsets (py_set [CStr "A"; CStr "B"; CStr "A"]) (py_set [CStr "B"; CStr "C"]) = (1, 1, 1).
Proof.
  assert (Hf : Forall (fun p => mem p (i_files full_world) = true) (input_paths "./final_data"))
    by (repeat (constructor; [vm_compute; reflexivity|]); constructor).
  assert (Hw : Forall (fun p => (fun _ : string => true) p = true) (figure_paths "./insights"))
    by (repeat (constructor; [reflexivity|]); constructor).
  assert (Ht : trend_lines sample_combined = Ok sample_lines) by (vm_compute; reflexivity).
  destruct (analyze_all_inputs sample_read (fun _ => true) "./final_data" "./insights" full_world
              sample_max sample_min sample_local sample_global sample_combined Category Category
              [(CStr "AU", Some (Qmake 3000000 1000000)); (CStr "US", Some (Qmake 9000000 1000000))]
              [(CStr "AU", Some (Qmake 1000000 1000000)); (CStr "US", Some (Qmake 2000000 1000000))]
              [CStr "A"; CStr "B"; CStr "A"] [CStr "B"; CStr "C"] sample_lines
              ltac:(discriminate) ltac:(vm_compute; reflexivity) ltac:(vm_compute; reflexivity) Hf Hw
              ltac:(vm_compute; reflexivity) ltac:(vm_compute; reflexivity) ltac:(vm_compute; reflexivity)
              ltac:(vm_compute; reflexivity) ltac:(vm_compute; reflexivity)
              ltac:(vm_compute; reflexivity) ltac:(vm_compute; reflexivity)
              ltac:(vm_compute; reflexivity) ltac:(vm_compute; reflexivity) Ht)
    as (E & _ & S).
  split; [exact E|]. split; [rewrite S; vm_compute; reflexivity|]. vm_compute. reflexivity.
Defined.

Lemma artist_overlap_venn_witness :
  exists x y z,
    fst (artist_overlap sample_read (fun _ => true) "./final_data" "./insights" full_world) =
      Ok (Some "./insights/artist_overlap_improved.png") /\ x + z = 2 /\ x + y + z = 3.
Proof.
  destruct (artist_overlap_venn sample_read (fun _ => true) "./final_data" "./insights" full_world
              sample_local sample_global [CStr "A"; CStr "B"; CStr "A"] [CStr "B"; CStr "C"]
              ltac:(discriminate) ltac:(vm_compute; reflexivity) ltac:(vm_compute; reflexivity)
              ltac:(vm_compute; reflexivity) ltac:(vm_compute; reflexivity) eq_refl
              ltac:(vm_compute; reflexivity) ltac:(vm_compute; reflexivity)
              ltac:(vm_compute; reflexivity) ltac:(vm_compute; reflexivity))
    as (x & y & z & E & L & _ & S).
  exists x, y, z. rewrite E. split; [reflexivity|]. rewrite L, S. split; vm_compute; reflexivity.
Defined.




End Insights.
