(* ===== verification/JsonReader.v ===== *)
(** A JSON reader, the oracle for the structured-record document of
    [save_as_json] ([src/merge_csv.py], lines 15-17).  The spec (section
    8) says that the document, when parsed, yields an array with one
    element per row whose keys are the columns.  The reader here parses
    the JSON the writer emits: whitespace, [null], integers, strings with
    the escapes of RFC 8259 ([\u] escapes up to [ÿ], the ones the
    writer produces for control bytes), arrays and objects.  Values are
    parsed by recursive descent with fuel; string bodies by a structural
    state machine over the characters.

    The theorem: reading back [to_json df] gives [records_value df], the
    array of row objects, for every well-formed frame and enough fuel. *)

From Stdlib Require Import ZArith DecimalString DecimalZ.
From S2P Require Import Prelude Frame JsonWriter.
Import Frame JsonWriter.

Module JsonReader.

Create Rewrite HintDb json_rw.

(** ** Tokens *)

Definition is_ws (c : ascii) : bool :=
  let n := nat_of_ascii c in Nat.eqb n 32 || Nat.eqb n 10 || Nat.eqb n 9 || Nat.eqb n 13.

Fixpoint skip_ws (s : string) : string :=
  match s with
  | EmptyString => EmptyString
  | String c s' => if is_ws c then skip_ws s' else s
  end.

Definition is_num_char (c : ascii) : bool :=
  Ascii.eqb c "-" || (Nat.leb 48 (nat_of_ascii c) && Nat.leb (nat_of_ascii c) 57).

(** The longest prefix of number characters. *)
Fixpoint span_num (s : string) : string * string :=
  match s with
  | EmptyString => (EmptyString, EmptyString)
  | String c s' => if is_num_char c then let (t, r) := span_num s' in (String c t, r) else (EmptyString, s)
  end.

Definition parse_number (s : string) : option (Z * string) :=
  let (t, r) := span_num s in
  match NilZero.int_of_string t with
  | Some d => Some (Z.of_int d, r)
  | None => None
  end.

Definition hex_value (c : ascii) : option nat :=
  let n := nat_of_ascii c in
  if Nat.leb 48 n && Nat.leb n 57 then Some (n - 48)
  else if Nat.leb 97 n && Nat.leb n 102 then Some (n - 87)
  else if Nat.leb 65 n && Nat.leb n 70 then Some (n - 55)
  else None.

(** ** String bodies *)

(** Where the reader is inside a string: plain text, after a backslash,
    or inside a [\u00XX] escape. *)
Inductive sstate : Type :=
| SNormal
| SEsc
| SU1
| SU2
| SU3
| SU4 (hi : nat).

Definition cons_char (c : ascii) (o : option (string * string)) : option (string * string) :=
  match o with
  | Some (b, r) => Some (String c b, r)
  | None => None
  end.

Definition unescape (c : ascii) : option ascii :=
  if Ascii.eqb c dq_char || Ascii.eqb c bslash || Ascii.eqb c slash then Some c
  else if Ascii.eqb c "b" then Some (ascii_of_nat 8)
  else if Ascii.eqb c "f" then Some (ascii_of_nat 12)
  else if Ascii.eqb c "n" then Some (ascii_of_nat 10)
  else if Ascii.eqb c "r" then Some (ascii_of_nat 13)
  else if Ascii.eqb c "t" then Some (ascii_of_nat 9)
  else None.

(** The body of a string up to its closing quote, and the rest. *)
Fixpoint string_body (st : sstate) (s : string) : option (string * string) :=
  match s with
  | EmptyString => None
  | String c s' =>
      match st with
      | SNormal =>
          if Ascii.eqb c dq_char then Some (EmptyString, s')
          else if Ascii.eqb c bslash then string_body SEsc s'
          else cons_char c (string_body SNormal s')
      | SEsc =>
          if Ascii.eqb c "u" then string_body SU1 s'
          else match unescape c with
               | Some d => cons_char d (string_body SNormal s')
               | None => None
               end
      | SU1 => if Ascii.eqb c "0" then string_body SU2 s' else None
      | SU2 => if Ascii.eqb c "0" then string_body SU3 s' else None
      | SU3 => match hex_value c with Some h => string_body (SU4 h) s' | None => None end
      | SU4 h =>
          match hex_value c with
          | Some l => cons_char (ascii_of_nat (16 * h + l)) (string_body SNormal s')
          | None => None
          end
      end
  end.

(** ** Values *)

Definition lbrack : ascii := "[".
Definition rbrack : ascii := "]".
Definition lbrace : ascii := "{".
Definition rbrace : ascii := "}".
Definition comma_char : ascii := ",".
Definition colon_char : ascii := ":".

Fixpoint parse_value (fuel : nat) (s : string) : option (json * string) :=
  match fuel with
  | 0 => None
  | S f =>
      match skip_ws s with
      | EmptyString => None
      | String c s' =>
          if Ascii.eqb c dq_char then
            match string_body SNormal s' with Some (t, r) => Some (JStr t, r) | None => None end
          else if Ascii.eqb c lbrack then
            match skip_ws s' with
            | String d r => if Ascii.eqb d rbrack then Some (JArr [], r) else parse_items f (String d r)
            | EmptyString => None
            end
          else if Ascii.eqb c lbrace then
            match skip_ws s' with
            | String d r => if Ascii.eqb d rbrace then Some (JObj [], r) else parse_members f (String d r)
            | EmptyString => None
            end
          else if String.prefix "null" (String c s') then Some (JNull, substring 3 (String.length s') s')
          else match parse_number (String c s') with Some (z, r) => Some (JInt z, r) | None => None end
      end
  end
(** The elements of an array after its [\[], through its [\]]. *)
with parse_items (fuel : nat) (s : string) : option (json * string) :=
  match fuel with
  | 0 => None
  | S f =>
      match parse_value f s with
      | Some (v, r) =>
          match skip_ws r with
          | String c r' =>
              if Ascii.eqb c comma_char then
                match parse_items f r' with
                | Some (JArr vs, r'') => Some (JArr (v :: vs), r'')
                | _ => None
                end
              else if Ascii.eqb c rbrack then Some (JArr [v], r')
              else None
          | EmptyString => None
          end
      | None => None
      end
  end
(** The members of an object after its [{], through its [}]. *)
with parse_members (fuel : nat) (s : string) : option (json * string) :=
  match fuel with
  | 0 => None
  | S f =>
      match skip_ws s with
      | String q s1 =>
          if Ascii.eqb q dq_char then
            match string_body SNormal s1 with
            | Some (k, r1) =>
                match skip_ws r1 with
                | String col r2 =>
                    if Ascii.eqb col colon_char then
                      match parse_value f r2 with
                      | Some (v, r3) =>
                          match skip_ws r3 with
                          | String c r4 =>
                              if Ascii.eqb c comma_char then
                                match parse_members f r4 with
                                | Some (JObj ms, r5) => Some (JObj ((k, v) :: ms), r5)
                                | _ => None
                                end
                              else if Ascii.eqb c rbrace then Some (JObj [(k, v)], r4)
                              else None
                          | EmptyString => None
                          end
                      | None => None
                      end
                    else None
                | EmptyString => None
                end
            | None => None
            end
          else None
      | EmptyString => None
      end
  end.

(** A whole document: one value and nothing but whitespace after it. *)
Definition parse_json_fuel (fuel : nat) (s : string) : option json :=
  match parse_value fuel s with
  | Some (v, r) => if String.eqb (skip_ws r) EmptyString then Some v else None
  | None => None
  end.

(** ** Lemmas: strings *)

(** Every byte's escape reads back to the byte. *)
Lemma escape_char_body c t :
  string_body SNormal (escape_char c ++ t) = cons_char c (string_body SNormal t).
Proof. destruct c as [[] [] [] [] [] [] [] []]; reflexivity. Qed.

Lemma json_escape_body s t :
  string_body SNormal (json_escape s ++ dq ++ t) = Some (s, t).
Proof.
  induction s as [|c s IH]; [reflexivity|]. cbn [json_escape].
  rewrite append_assoc, escape_char_body, IH. reflexivity.
Qed.

(** ** Lemmas: whitespace *)

Lemma skip_ws_indent n t : skip_ws (indent n ++ t) = skip_ws t.
Proof. induction n as [|n IH]; [reflexivity|]. exact IH. Qed.

Lemma skip_ws_nl t : skip_ws (nl ++ t) = skip_ws t.
Proof. reflexivity. Qed.

Lemma skip_ws_idem s : skip_ws (skip_ws s) = skip_ws s.
Proof.
  induction s as [|c s IH]; [reflexivity|]. simpl.
  destruct (is_ws c) eqn:E; [exact IH | simpl; rewrite E; reflexivity].
Qed.

Lemma skip_ws_nows c t : is_ws c = false -> skip_ws (String c t) = String c t.
Proof. intros H. simpl. rewrite H. reflexivity. Qed.

#[export] Hint Rewrite skip_ws_indent skip_ws_nl skip_ws_idem : json_rw.

(** ** Lemmas: numbers *)

Fixpoint all_num (s : string) : bool :=
  match s with
  | EmptyString => true
  | String c s' => is_num_char c && all_num s'
  end.

(** What may follow a number: anything but a number character. *)
Definition num_stop (t : string) : bool :=
  match t with
  | EmptyString => true
  | String c _ => negb (is_num_char c)
  end.

Lemma span_num_app a t : all_num a = true -> num_stop t = true -> span_num (a ++ t) = (a, t).
Proof.
  intros Ha Ht. induction a as [|c a IH]; simpl in *.
  - destruct t as [|c t]; [reflexivity|]. simpl in Ht. apply negb_true_iff in Ht. simpl. rewrite Ht. reflexivity.
  - apply andb_prop in Ha as [Hc Ha]. rewrite Hc, (IH Ha). reflexivity.
Qed.

Lemma all_num_uint u : all_num (NilEmpty.string_of_uint u) = true.
Proof. induction u; simpl; auto. Qed.

Lemma all_num_z_text z : all_num (z_text z) = true.
Proof.
  unfold z_text, NilZero.string_of_int, NilZero.string_of_uint.
  destruct (Z.to_int z) as [u|u]; destruct u; simpl; rewrite ?all_num_uint; reflexivity.
Qed.

Lemma int_of_z_text z : NilZero.int_of_string (z_text z) = Some (Z.to_int z).
Proof.
  unfold z_text. apply NilZero.isi; intros E; pose proof (DecimalZ.of_to z) as H; rewrite E in H;
    simpl in H; subst z; discriminate.
Qed.

Lemma parse_number_z_text z t : num_stop t = true -> parse_number (z_text z ++ t) = Some (z, t).
Proof.
  intros Ht. unfold parse_number. rewrite span_num_app by (apply all_num_z_text || exact Ht).
  rewrite int_of_z_text, DecimalZ.of_to. reflexivity.
Qed.

(** ** Lemmas: values *)

Lemma num_char_facts c :
  is_num_char c = true ->
  is_ws c = false /\ Ascii.eqb c dq_char = false /\ Ascii.eqb c lbrack = false /\
  Ascii.eqb c lbrace = false /\ (forall s, String.prefix "null" (String c s) = false).
Proof. destruct c as [[] [] [] [] [] [] [] []]; intros H; (discriminate || (repeat split; reflexivity)). Qed.

Lemma substring_0_long s m : String.length s <= m -> substring 0 m s = s.
Proof.
  revert m. induction s as [|c s IH]; intros [|m] H; simpl in *; try reflexivity; [lia|].
  rewrite IH by lia. reflexivity.
Qed.

Lemma z_text_cons z : exists c r, z_text z = String c r /\ is_num_char c = true.
Proof.
  pose proof (all_num_z_text z) as Ha. pose proof (int_of_z_text z) as Hi.
  destruct (z_text z) as [|c r]; [discriminate|]. apply andb_prop in Ha as [Hc _]. eauto.
Qed.

Lemma parse_value_skip f s : parse_value f (skip_ws s) = parse_value f s.
Proof. destruct f; [reflexivity|]. simpl. rewrite skip_ws_idem. reflexivity. Qed.

Lemma parse_members_skip f s : parse_members f (skip_ws s) = parse_members f s.
Proof. destruct f; [reflexivity|]. simpl. rewrite skip_ws_idem. reflexivity. Qed.

(** A cell's value reads back, whatever follows it that cannot continue a number. *)
Lemma parse_cell f l c t :
  num_stop t = true -> parse_value (S f) (render l (json_of_cell c) ++ t) = Some (json_of_cell c, t).
Proof.
  intros Ht. destruct c as [|z|s]; cbn [json_of_cell render].
  - simpl. rewrite substring_0_long by lia. destruct t; reflexivity.
  - destruct (z_text_cons z) as [c [r [E Hc]]]. destruct (num_char_facts c Hc) as (H1 & H2 & H3 & H4 & H5).
    pose proof (parse_number_z_text z t Ht) as Hp. rewrite E in Hp |- *.
    change (String c r ++ t)%string with (String c (r ++ t)) in *.
    cbn [parse_value]. rewrite (skip_ws_nows c _ H1), H2, H3, H4, H5, Hp. reflexivity.
  - unfold json_string. rewrite !append_assoc. change (dq ++ ?x)%string with (String dq_char x).
    cbn [parse_value]. rewrite (skip_ws_nows dq_char _ eq_refl), Ascii.eqb_refl, json_escape_body.
    reflexivity.
Qed.

(** One member [indent "k":v] followed by [rest]: the reader takes the
    member and goes on with what follows it. *)
Lemma parse_member_step f l k c rest :
  num_stop rest = true ->
  parse_members (S (S f)) (indent (S l) ++ json_string k ++ ":" ++ render (S l) (json_of_cell c) ++ rest) =
  match skip_ws rest with
  | String d r4 =>
      if Ascii.eqb d comma_char then
        match parse_members (S f) r4 with
        | Some (JObj ms, r5) => Some (JObj ((k, json_of_cell c) :: ms), r5)
        | _ => None
        end
      else if Ascii.eqb d rbrace then Some (JObj [(k, json_of_cell c)], r4)
      else None
  | EmptyString => None
  end.
Proof.
  intros Hr. cbn [parse_members]. rewrite skip_ws_indent. unfold json_string. rewrite !append_assoc.
  change (dq ++ ?x)%string with (String dq_char x).
  rewrite (skip_ws_nows dq_char _ eq_refl), Ascii.eqb_refl, json_escape_body.
  change (":" ++ ?x)%string with (String colon_char x).
  rewrite (skip_ws_nows colon_char _ eq_refl), Ascii.eqb_refl, parse_cell by exact Hr.
  reflexivity.
Qed.

(** The text of one member of a row object at nesting level [l + 1]. *)
Definition cell_member (l : nat) (kv : string * cell) : string :=
  indent (S l) ++ json_string (fst kv) ++ ":" ++ render (S l) (json_of_cell (snd kv)).

Lemma num_stop_nl t : num_stop (nl ++ t) = true.
Proof. reflexivity. Qed.

Lemma parse_members_nl f t : parse_members f (nl ++ t) = parse_members f t.
Proof. rewrite <- parse_members_skip, skip_ws_nl, parse_members_skip. reflexivity. Qed.

Lemma skip_ws_close l (d : ascii) t :
  is_ws d = false -> skip_ws (nl ++ indent l ++ String d t) = String d t.
Proof. intros H. rewrite skip_ws_nl, skip_ws_indent. apply skip_ws_nows, H. Qed.

(** The members of a row object read back, given one unit of fuel per
    member and one more. *)
Lemma parse_members_cells l kcs f t :
  kcs <> [] -> length kcs < f ->
  parse_members f (py_join ("," ++ nl) (map (cell_member l) kcs) ++ nl ++ indent l ++ "}" ++ t) =
  Some (JObj (map (fun kv => (fst kv, json_of_cell (snd kv))) kcs), t).
Proof.
  revert f. induction kcs as [|[k c] kcs IH]; intros f Hne Hf; [congruence|].
  destruct f as [|[|f]]; simpl in Hf; [lia | destruct kcs; simpl in Hf; lia |].
  destruct kcs as [|kv' kcs].
  - cbn [map py_join]. unfold cell_member. cbn [fst snd]. rewrite !append_assoc.
    rewrite parse_member_step by apply num_stop_nl.
    change ("}" ++ t)%string with (String rbrace t).
    rewrite (skip_ws_close l rbrace t eq_refl). reflexivity.
  - rewrite map_cons, py_join_cons by discriminate. unfold cell_member at 1. cbn [fst snd].
    rewrite !append_assoc, parse_member_step by reflexivity.
    change ("," ++ ?x)%string with (String comma_char x).
    rewrite (skip_ws_nows comma_char _ eq_refl), Ascii.eqb_refl, parse_members_nl.
    rewrite IH by (discriminate || (simpl in *; lia)). reflexivity.
Qed.

Lemma parse_items_skip f s : parse_items f (skip_ws s) = parse_items f s.
Proof. destruct f; [reflexivity|]. cbn [parse_items]. rewrite parse_value_skip. reflexivity. Qed.

(** After [{] that does not close at once, the reader reads members. *)
Lemma parse_value_obj f s d r :
  skip_ws s = String d r -> Ascii.eqb d rbrace = false ->
  parse_value (S f) (String lbrace s) = parse_members f s.
Proof.
  intros E Hd. simpl. rewrite E, Hd, <- E, parse_members_skip. reflexivity.
Qed.

(** After [\[] that does not close at once, the reader reads items. *)
Lemma parse_value_arr f s d r :
  skip_ws s = String d r -> Ascii.eqb d rbrack = false ->
  parse_value (S f) (String lbrack s) = parse_items f s.
Proof.
  intros E Hd. simpl. rewrite E, Hd, <- E, parse_items_skip. reflexivity.
Qed.

Lemma py_join_head sep x xs : exists tl, py_join sep (x :: xs) = (x ++ tl)%string.
Proof. destruct xs; [exists EmptyString; rewrite append_empty_r | eexists]; reflexivity. Qed.

Definition cells_obj (kcs : list (string * cell)) : json :=
  JObj (map (fun kv => (fst kv, json_of_cell (snd kv))) kcs).

(** A row object reads back, given one unit of fuel per member and one more. *)
Lemma parse_object_cells f l kcs t :
  length kcs < f -> parse_value (S f) (render l (cells_obj kcs) ++ t) = Some (cells_obj kcs, t).
Proof.
  intros Hf. unfold cells_obj. destruct kcs as [|kc kcs]; [reflexivity|].
  rewrite render_obj_ne by discriminate. rewrite map_map.
  change (@map (string * cell) string _ (kc :: kcs)) with (map (cell_member l) (kc :: kcs)).
  rewrite !append_assoc. change ("{" ++ ?x)%string with (String lbrace x).
  destruct (py_join_head ("," ++ nl) (cell_member l kc) (map (cell_member l) kcs)) as [tl Etl].
  rewrite (parse_value_obj f _ dq_char
             (json_escape (fst kc) ++ dq ++ ":" ++ render (S l) (json_of_cell (snd kc)) ++ tl ++ nl ++ indent l ++ "}" ++ t)).
  - rewrite parse_members_nl. apply parse_members_cells; [discriminate | exact Hf].
  - change (map (cell_member l) (kc :: kcs)) with (cell_member l kc :: map (cell_member l) kcs).
    rewrite Etl. unfold cell_member, json_string. rewrite !append_assoc, skip_ws_nl, skip_ws_indent.
    reflexivity.
  - reflexivity.
Qed.

Lemma parse_value_indent f n s : parse_value f (indent n ++ s) = parse_value f s.
Proof. rewrite <- parse_value_skip, skip_ws_indent, parse_value_skip. reflexivity. Qed.

Lemma parse_items_nl f t : parse_items f (nl ++ t) = parse_items f t.
Proof. rewrite <- parse_items_skip, skip_ws_nl, parse_items_skip. reflexivity. Qed.

(** The rows of the array read back, one unit of fuel per row and enough
    for the widest row object. *)
Lemma parse_items_objs l (objs : list (list (string * cell))) m f t :
  objs <> [] -> Forall (fun kcs => length kcs <= m) objs -> length objs + m + 2 <= f ->
  parse_items f (py_join ("," ++ nl) (map (fun kcs => (indent (S l) ++ render (S l) (cells_obj kcs))%string) objs)
                 ++ nl ++ indent l ++ "]" ++ t) =
  Some (JArr (map cells_obj objs), t).
Proof.
  revert f. induction objs as [|kcs objs IH]; intros f Hne Hm Hf; [congruence|].
  inversion Hm as [|? ? Hk Hm']; subst. simpl in Hf.
  destruct f as [|f]; [lia|]. cbn [parse_items]. destruct f as [|f]; [lia|].
  destruct objs as [|kcs' objs].
  - cbn [map py_join]. rewrite !append_assoc, parse_value_indent, parse_object_cells by lia.
    change ("]" ++ t)%string with (String rbrack t). rewrite (skip_ws_close l rbrack t eq_refl). reflexivity.
  - rewrite map_cons, py_join_cons by discriminate. rewrite !append_assoc, parse_value_indent, parse_object_cells by lia.
    change ("," ++ ?x)%string with (String comma_char x).
    rewrite (skip_ws_nows comma_char _ eq_refl), Ascii.eqb_refl, parse_items_nl.
    rewrite IH by (discriminate || exact Hm' || (simpl in *; lia)). reflexivity.
Qed.

Lemma render_obj_head l ms : exists u, render l (JObj ms) = String lbrace u.
Proof. destruct ms; eexists; reflexivity. Qed.

Lemma records_value_cells df :
  records_value df = JArr (map cells_obj (map (combine (columns df)) (rows df))).
Proof.
  unfold records_value, cells_obj. rewrite map_map. f_equal.
  apply map_ext. intros r. rewrite combine_map_r. reflexivity.
Qed.

(** The first row of a non-empty array opens with [{] after the layout. *)
Lemma skip_ws_rows l objs tl :
  objs <> [] ->
  exists u, skip_ws (nl ++ py_join ("," ++ nl)
                       (map (fun kcs => (indent (S l) ++ render (S l) (cells_obj kcs))%string) objs) ++ tl)
            = String lbrace u.
Proof.
  destruct objs as [|x xs]; [congruence|]. intros _. cbn [map].
  destruct (py_join_head ("," ++ nl) (indent (S l) ++ render (S l) (cells_obj x))%string
              (map (fun kcs => (indent (S l) ++ render (S l) (cells_obj kcs))%string) xs)) as [tl' E].
  rewrite E. destruct (render_obj_head (S l) (map (fun kv => (fst kv, json_of_cell (snd kv))) x)) as [u Eu].
  unfold cells_obj. rewrite !append_assoc, skip_ws_nl, skip_ws_indent, Eu. eexists. reflexivity.
Qed.

(** The printed document reads back as [records_value], whatever follows it. *)
Lemma parse_records fuel df t :
  nrows df + length (columns df) + 3 <= fuel ->
  parse_value fuel (render 0 (records_value df) ++ t) = Some (records_value df, t).
Proof.
  intros Hf. rewrite records_value_cells. unfold nrows in Hf.
  destruct fuel as [|fuel]; [lia|].
  destruct (rows df) as [|r rs] eqn:Er; [reflexivity|].
  remember (map (combine (columns df)) (r :: rs)) as objs eqn:Eo.
  assert (Hne : objs <> []) by (subst; discriminate).
  assert (Hlen : length objs = S (length rs)) by (subst; apply length_map).
  rewrite render_arr_ne by (subst; discriminate). rewrite map_map, !append_assoc.
  change ("[" ++ ?x)%string with (String lbrack x).
  destruct (skip_ws_rows 0 objs (nl ++ indent 0 ++ "]" ++ t) Hne) as [u Eu].
  rewrite (parse_value_arr fuel _ lbrace u Eu eq_refl), parse_items_nl.
  apply parse_items_objs with (m := length (columns df)); [exact Hne | | rewrite Hlen; rewrite ?Er in Hf; simpl in Hf; lia].
  apply Forall_forall. intros x Hx. subst objs. apply in_map_iff in Hx.
  destruct Hx as [r' [<- _]]. rewrite length_combine. lia.
Qed.

(** ** Round trip *)

(** C35. Reading back the structured-record output: for a well-formed
    frame, a JSON reader applied to the text [to_json] writes (each
    [<country>_data.json] and [final_merged_data.json]) returns exactly the array of row objects
    [records_value], given fuel for one level per row and per column. *)
Theorem to_json_roundtrip df fuel :
  wf df -> nrows df + length (columns df) + 3 <= fuel ->
  parse_json_fuel fuel (to_json df) = Some (records_value df).
Proof.
  intros Hwf Hf. unfold parse_json_fuel. rewrite to_json_render_eq by exact Hwf.
  rewrite <- (append_empty_r (render 0 (records_value df))), parse_records by exact Hf.
  reflexivity.
Qed.

Definition sample_frame : frame :=
  mkFrame ["track"; "n"] [[CStr "a/b"; CInt 7%Z]; [CNull; CInt (-1)%Z]; [CStr "x"; CInt 0%Z]].

Lemma to_json_roundtrip_witness :
  wf sample_frame /\ nrows sample_frame + length (columns sample_frame) + 3 <= 8 /\
  parse_json_fuel 8 (to_json sample_frame) = Some (records_value sample_frame).
Proof.
  assert (H : wf sample_frame) by (apply wfb_spec; vm_compute; reflexivity).
  assert (Hf : nrows sample_frame + length (columns sample_frame) + 3 <= 8) by (vm_compute; lia).
  exact (conj H (conj Hf (to_json_roundtrip sample_frame 8 H Hf))).
Defined.

End JsonReader.
