(* ===== verification/EndToEnd.v ===== *)
(** End to end: the run of [merge_by_country] composed with the readers
    of its outputs.  After a successful run the final folder holds
    [final_merged_data.csv] and [final_merged_data.json] whose contents,
    read back with the CSV reader of [CsvWriter] and the JSON reader of
    [JsonReader], are the merged frame of all the input files: pandas'
    concatenation of the tagged frames grouped by country, with as many
    rows as the inputs together.  This joins the accumulation
    ([Accumulate]), the file-system run ([Orchestrator]) and the writers
    with their readers. *)

From Stdlib Require Import ZArith.
From S2P Require Import Prelude Classifier Frame Accumulate CsvWriter JsonWriter Orchestrator JsonReader.
Import Frame Accumulate CsvWriter JsonWriter Orchestrator JsonReader.

Module EndToEnd.

(** ** Paths *)

Lemma append_eqb_l p a b : String.eqb (p ++ a) (p ++ b) = String.eqb a b.
Proof. induction p as [|c p IH]; [reflexivity|]. simpl. rewrite Ascii.eqb_refl. exact IH. Qed.

(** Two names joined to the same folder are the same path only if the
    names are equal. *)
Lemma path_join_eqb a x y :
  py_startswith x "/" = false -> py_startswith y "/" = false ->
  String.eqb (py_path_join a x) (py_path_join a y) = String.eqb x y.
Proof.
  intros Hx Hy. unfold py_path_join. rewrite Hx, Hy.
  destruct (String.eqb a EmptyString || py_endswith a "/"); rewrite !append_eqb_l; reflexivity.
Qed.

(** The last write of each of the three outputs of a frame, when they
    are the last three writes of the world. *)
Lemma final_three_content fin m w pre :
  w_files w = pre ++ three_writes m (country_paths fin "final_merged") ->
  file_content (py_path_join fin "final_merged_data.csv") w = Some (to_csv m) /\
  file_content (py_path_join fin "final_merged_data.json") w = Some (save_as_json m).
Proof.
  intros F. unfold file_content. rewrite F, !fold_left_app. unfold country_paths, three_writes.
  cbn [String.append fold_left fst snd]. rewrite !path_join_eqb by reflexivity. split; reflexivity.
Qed.

(** ** The merged outputs read back *)

(** The final outputs of a successful run, in terms of the store. *)
Lemma final_outputs read_csv can_write tree inp inter fin w0 d m :
  accumulate read_csv [] (walk_csv inp tree) = Ok d -> concat_frames (map snd d) = Some m ->
  (forall p, can_write p = true) ->
  inter <> EmptyString -> rstrip_char slash inter = inter ->
  fin <> EmptyString -> rstrip_char slash fin = fin ->
  ~ In inter (map fst (w_files w0)) -> ~ In fin (map fst (w_files w0)) ->
  let w := snd (merge_by_country read_csv can_write tree inp inter fin w0) in
  file_content (py_path_join fin "final_merged_data.csv") w = Some (to_csv m) /\
  file_content (py_path_join fin "final_merged_data.json") w = Some (save_as_json m).
Proof.
  intros Hacc Hm Hw Hi1 Hi2 Hf1 Hf2 Hi Hf. cbv zeta.
  assert (Hne : d <> []) by (intros ->; discriminate).
  destruct (merge_by_country_ok_gen read_csv can_write tree inp inter fin w0 d Hacc Hne Hw Hi1 Hi2 Hf1 Hf2
              (or_intror Hi) (or_intror Hf)) as [_ [F _]].
  cbv zeta in F. unfold merge_plan, final_plan in F. rewrite Hacc, Hm, app_assoc in F.
  exact (final_three_content fin m _ _ F).
Qed.

(** C36. End to end through the files: when every CSV file found below
    the input folder reads as a well-formed frame, at least one is found,
    and the outputs are writable, the merged CSV file written by
    [merge_by_country] reads back to the header and cells of the merged
    frame (the concatenation of the tagged input frames grouped by
    country), and the merged JSON file reads back to the array of its
    rows as objects; that frame has exactly as many rows as all the
    input files together. *)
Theorem merged_files_read_back read_csv can_write tree inp inter fin w0 dfs :
  walk_csv inp tree <> [] ->
  Forall2 (fun q df => read_csv q = Some df) (walk_csv inp tree) dfs -> Forall wf dfs ->
  (forall p, can_write p = true) ->
  inter <> EmptyString -> rstrip_char slash inter = inter ->
  fin <> EmptyString -> rstrip_char slash fin = fin ->
  ~ In inter (map fst (w_files w0)) -> ~ In fin (map fst (w_files w0)) ->
  let w := snd (merge_by_country read_csv can_write tree inp inter fin w0) in
  exists m,
    concat_frames (flat_map (fun k => frames_of k (combine (walk_csv inp tree) dfs))
                            (unique (map classify (walk_csv inp tree)))) = Some m /\
    nrows m = list_sum (map nrows dfs) /\
    read_back (py_path_join fin "final_merged_data.csv") w =
      Some (columns m :: map (map cell_text) (rows m)) /\
    exists txt, file_content (py_path_join fin "final_merged_data.json") w = Some txt /\
      parse_json_fuel (nrows m + length (columns m) + 3) txt = Some (records_value m).
Proof.
  intros Hfiles Hr Hwf Hw Hi1 Hi2 Hf1 Hf2 Hi Hf. cbv zeta.
  destruct (accumulate_spec_gen read_csv _ dfs Hr Hwf [] ltac:(intros k f; discriminate))
    as [d [Hacc [_ Hkeys]]].
  assert (Hd : map snd d <> []).
  { intros E. apply map_eq_nil in E. subst d. destruct (walk_csv inp tree) as [|x l]; [congruence|].
    simpl in Hkeys. discriminate. }
  destruct (concat_frames_some _ Hd) as [m Hm].
  destruct (final_outputs read_csv can_write tree inp inter fin w0 d m Hacc Hm Hw Hi1 Hi2 Hf1 Hf2 Hi Hf)
    as [Hcsv Hjson].
  exists m. split; [rewrite <- (accumulate_merged_eq _ _ _ _ Hr Hwf Hacc); exact Hm|].
  split; [exact (accumulate_merged_nrows_eq _ _ _ _ _ Hr Hwf Hacc Hm)|].
  split; [unfold read_back; rewrite Hcsv; apply to_csv_reads_back|].
  exists (save_as_json m). split; [exact Hjson|].
  unfold parse_json_fuel, save_as_json. rewrite (to_json_render_eq m (wf_concat_frames _ _ Hm)).
  rewrite <- (append_empty_r (render 0 (records_value m))), parse_records by lia. reflexivity.
Qed.

Lemma merged_files_read_back_witness :
  exists m,
    nrows m = 8 /\
    read_back "./final_data/final_merged_data.csv" (snd scenario) =
      Some (columns m :: map (map cell_text) (rows m)).
Proof.
  assert (Hwalk : walk_csv "./spotify_data" sample_tree = [au_path; us_path]) by reflexivity.
  assert (Hr : Forall2 (fun q df => sample_read q = Some df) (walk_csv "./spotify_data" sample_tree)
                 [sample_au; sample_us]) by (rewrite Hwalk; exact sample_reads).
  destruct (merged_files_read_back sample_read (fun _ => true) sample_tree "./spotify_data" "./country_data"
              "./final_data" empty_world [sample_au; sample_us]
              ltac:(rewrite Hwalk; discriminate) Hr sample_wf (fun _ => eq_refl)
              ltac:(discriminate) eq_refl ltac:(discriminate) eq_refl (fun H => H) (fun H => H))
    as [m [_ [Hn [Hcsv _]]]].
  exists m. split; [exact Hn | exact Hcsv].
Defined.

End EndToEnd.
